(** * airtable-api-proxy: the ESOVDB / Zotero synchronisation engine

    A shallow embedding of [esovdb.js], [zotero.js] and the helpers of
    [util.js] they call, followed by the properties of the engine that
    are settled against it.

    JavaScript values are embedded as a small universe [jsval]; numbers
    are the integers ([Z]), [NaN] is [None] wherever a numeric coercion
    can produce it.  Effects (HTTP responses, requests to Airtable and
    Zotero, the response cache, arrays mutated in place) are threaded
    through a state-and-exception monad over an explicit [world]. *)

From stdpp Require Import base strings list gmap pretty.
From Stdlib Require Import ZArith Lia Ascii.

Set Warnings "-register-all".

(** ** JavaScript values *)

Module JS.

Inductive jsval : Type :=
| JUndefined
| JNull
| JBool (b : bool)
| JNum (n : Z)
| JStr (s : string)
| JArr (elems : list jsval)
| JObj (props : list (string * jsval)).

Inductive exn : Type :=
| TypeError
| URIError
| Error (msg : string).

(** The result of running a piece of code: a value, a thrown exception,
    or a loop that was not given enough fuel to finish. *)
Inductive outcome (A : Type) : Type :=
| Ok (a : A)
| Throw (e : exn)
| OutOfFuel.
Arguments Ok {A} a.
Arguments Throw {A} e.
Arguments OutOfFuel {A}.

#[export] Instance outcome_ret : MRet outcome := fun A a => Ok a.
#[export] Instance outcome_bind : MBind outcome := fun A B f m =>
  match m with
  | Ok a => f a
  | Throw e => Throw e
  | OutOfFuel => OutOfFuel
  end.

#[export] Instance outcome_fmap : FMap outcome := fun A B f m =>
  match m with
  | Ok a => Ok (f a)
  | Throw e => Throw e
  | OutOfFuel => OutOfFuel
  end.

(** [ToBoolean] *)
Definition truthy (v : jsval) : bool :=
  match v with
  | JUndefined | JNull => false
  | JBool b => b
  | JNum n => negb (n =? 0)%Z
  | JStr s => negb (bool_decide (s = ""))
  | JArr _ | JObj _ => true
  end.

(** [v == null] *)
Definition nullish (v : jsval) : bool :=
  match v with
  | JUndefined | JNull => true
  | _ => false
  end.

(** [a || b] and [a && b] on values. *)
Definition js_or (a b : jsval) : jsval := if truthy a then a else b.
Definition js_and (a b : jsval) : jsval := if truthy a then b else a.

(** [ToString]; an array joins its elements with a comma, [null] and
    [undefined] elements printing as the empty string. *)
Fixpoint to_string (v : jsval) : string :=
  match v with
  | JUndefined => "undefined"
  | JNull => "null"
  | JBool true => "true"
  | JBool false => "false"
  | JNum n => pretty n
  | JStr s => s
  | JArr l =>
      (fix join (l : list jsval) : string :=
         match l with
         | [] => ""
         | x :: r =>
             let sx := match x with
                       | JUndefined | JNull => ""
                       | _ => to_string x
                       end in
             match r with
             | [] => sx
             | _ :: _ => sx +:+ "," +:+ join r
             end
         end) l
  | JObj _ => "[object Object]"
  end.

(** [a + b] where one operand is a string literal. *)
Definition str_concat (a b : jsval) : jsval := JStr (to_string a +:+ to_string b).

(** Own properties of an object, in enumeration order. *)
Fixpoint assoc (k : string) (o : list (string * jsval)) : option jsval :=
  match o with
  | [] => None
  | (k', v) :: r => if decide (k = k') then Some v else assoc k r
  end.

(** [o[k] = v]: an existing property keeps its place, a new one is added
    last. *)
Fixpoint obj_set (k : string) (v : jsval) (o : list (string * jsval))
  : list (string * jsval) :=
  match o with
  | [] => [(k, v)]
  | (k', v') :: r =>
      if decide (k = k') then (k, v) :: r else (k', v') :: obj_set k v r
  end.

Definition obj_get (k : string) (o : list (string * jsval)) : jsval :=
  default JUndefined (assoc k o).

(** The characters of a string, as one-character strings. *)
Fixpoint chars (s : string) : list jsval :=
  match s with
  | EmptyString => []
  | String c r => JStr (String c EmptyString) :: chars r
  end.

(** [v[i]] for a numeric index [i]. *)
Definition get_index (v : jsval) (i : nat) : outcome jsval :=
  match v with
  | JUndefined | JNull => Throw TypeError
  | JArr l => Ok (default JUndefined (l !! i))
  | JStr s => Ok (default JUndefined (chars s !! i))
  | JObj o => Ok (obj_get (pretty i) o)
  | JBool _ | JNum _ => Ok JUndefined
  end.

(** [v.k] for a property name [k] written in the source ([length] is the
    only inherited property the code reads). *)
Definition get_prop (v : jsval) (k : string) : outcome jsval :=
  match v with
  | JUndefined | JNull => Throw TypeError
  | JObj o => Ok (obj_get k o)
  | JArr l =>
      Ok (if decide (k = "length") then JNum (Z.of_nat (length l)) else JUndefined)
  | JStr s =>
      Ok (if decide (k = "length") then JNum (Z.of_nat (String.length s))
          else JUndefined)
  | JBool _ | JNum _ => Ok JUndefined
  end.

(** [v.k = x] (sloppy mode: silently ignored on a primitive). *)
Definition set_prop (v : jsval) (k : string) (x : jsval) : outcome jsval :=
  match v with
  | JUndefined | JNull => Throw TypeError
  | JObj o => Ok (JObj (obj_set k x o))
  | _ => Ok v
  end.

(** Index keys ["0"], ["1"], ... paired with the elements. *)
Definition indexed (l : list jsval) : list (string * jsval) :=
  imap (fun i x => (pretty i, x)) l.

(** [{...v}]: the own enumerable properties copied by object spread. *)
Definition spread (v : jsval) : list (string * jsval) :=
  match v with
  | JObj o => o
  | JArr l => indexed l
  | JStr s => indexed (chars s)
  | _ => []
  end.

(** [Object.values(v)] *)
Definition Object_values (v : jsval) : outcome (list jsval) :=
  match v with
  | JUndefined | JNull => Throw TypeError
  | JObj o => Ok (o.*2)
  | JArr l => Ok l
  | JStr s => Ok (chars s)
  | JBool _ | JNum _ => Ok []
  end.

(** An object literal [{...base, k1: v1, ..., kn: vn}]. *)
Definition obj_literal (base : list (string * jsval))
    (fields : list (string * jsval)) : list (string * jsval) :=
  foldl (fun o kv => obj_set kv.1 kv.2 o) base fields.

End JS.
Export JS.

(** ** The environment

    What the JavaScript runtime supplies and the embedding does not
    compute: parsing a string as a number, URI decoding, date parsing,
    and the rendering of an ISO-8601 instant in the server's time zone. *)

Record Env : Type := {
  (** [Number(s)] for a string [s]; [None] is [NaN]. *)
  StringToNumber : string → option Z;
  (** [decodeURIComponent(s)]; [None] when it throws [URIError]. *)
  decodeURIComponent : string → option string;
  (** [Date.parse(s)] in milliseconds; [None] is [NaN]. *)
  Date_parse : string → option Z;
  (** [Some r] when [s] matches the ISO-8601 pattern of [formatDate], [r]
      being the local-time rendering; [None] when it does not match. *)
  iso8601_local : string → option string
}.

Section Coercions.
Context (E : Env).

(** [ToNumber]; arrays and objects go through their string form. *)
Definition ToNumber (v : jsval) : option Z :=
  match v with
  | JUndefined => None
  | JNull => Some 0%Z
  | JBool b => Some (if b then 1 else 0)%Z
  | JNum n => Some n
  | JStr s => StringToNumber E s
  | JArr _ | JObj _ => StringToNumber E (to_string v)
  end.

(** Truthiness of a number: neither [NaN] nor zero. *)
Definition num_truthy (n : option Z) : bool :=
  match n with
  | Some n => negb (n =? 0)%Z
  | None => false
  end.

(** [a < b] and [a > b] on numbers; any comparison with [NaN] is false. *)
Definition num_lt (a b : option Z) : bool :=
  match a, b with
  | Some a, Some b => (a <? b)%Z
  | _, _ => false
  end.
Definition num_gt (a b : option Z) : bool := num_lt b a.

(** [v == 0] (loose equality with the number zero). *)
Definition loose_eq_zero (v : jsval) : bool :=
  match v with
  | JUndefined | JNull => false
  | _ => bool_decide (ToNumber v = Some 0%Z)
  end.
End Coercions.

(** ** util.js *)

Module Util.

(** The text of a number, [NaN] included. *)
Definition num_text (n : option Z) : string :=
  match n with
  | Some n => pretty n
  | None => "NaN"
  end.

(** [pad(string, length)] with the default pad string ['0'], prepended:
    [padding] is [length - string.length] zeros (none when that is not
    positive). *)
Definition pad (s : string) (len : nat) : string :=
  let padding := String.concat "" (replicate (len - String.length s) "0") in
  if decide (String.length s < len)%nat then padding +:+ s else s.

(** One part of a duration: a number, or the padded text of a number. *)
Inductive part : Type :=
| PNum (n : option Z)
| PPad (n : option Z).

Definition part_text (p : part) : string :=
  match p with
  | PNum n => num_text n
  | PPad n => pad (num_text n) 2
  end.

(** [+i !== 0]: the padded text of a number converts back to that number. *)
Definition part_nonzero (p : part) : bool :=
  match p with
  | PNum n | PPad n =>
      match n with
      | Some n => negb (n =? 0)%Z
      | None => true
      end
  end.

(** [Math.floor(n / k)] and [n % k] on integers. *)
Definition floor_div (n : option Z) (k : Z) : option Z :=
  (fun n => n `div` k)%Z <$> n.
Definition num_rem (n : option Z) (k : Z) : option Z :=
  (fun n => n `rem` k)%Z <$> n.

Section WithEnv.
Context (E : Env).

(** [formatDuration(duration)] *)
Definition formatDuration (duration : jsval) : jsval :=
  let d := ToNumber E duration in
  let parts :=
    [ PNum (floor_div d 3600);
      (if num_gt d (Some 3600%Z)
       then PPad (floor_div (num_rem d 3600) 60)
       else PNum (floor_div (num_rem d 3600) 60));
      PPad (num_rem d 60) ] in
  JStr ((if num_lt d (Some 60%Z) then "0:" else "")
        +:+ String.concat ":"
              (part_text <$> filter (fun p => part_nonzero p = true) parts)).

(** [formatDate(rawDate)]: a date that is not in ISO-8601 form is
    returned as it is. *)
Definition formatDate (rawDate : jsval) : jsval :=
  match iso8601_local E (to_string rawDate) with
  | Some r => JStr r
  | None => rawDate
  end.
End WithEnv.

(** [packageAuthors(first, last)]:
    [first.map((f, i) => ({ firstName: f, lastName: last[i] }))] *)
Definition packageAuthors (first last : jsval) : outcome jsval :=
  match first with
  | JArr fs =>
      JArr <$> mapM (fun '(i, f) =>
                       l ← get_index last i;
                       mret (JObj [("firstName", f); ("lastName", l)]))
                    (imap pair fs)
  | _ => Throw TypeError
  end.

(** [pad(string, length, padString, prepend)] with all four arguments,
    for a text [string] and an integer [length].  [padString.repeat]
    throws a [RangeError] for a negative or an infinite count, before
    the lengths are compared: the result is then [None].  The count is
    [Math.ceil(length / padString.length)], which is infinite for an
    empty pad string and a [length] other than zero, and [NaN] (counted
    as zero by [repeat]) for an empty pad string and a [length] of
    zero; [substr(0, n)] is empty for [n ≤ 0]. *)
Definition pad_with (s : string) (len : Z) (padString : string) (prepend : bool)
  : option string :=
  let n := Z.of_nat (String.length padString) in
  count ← (if decide (n = 0)%Z
           then if decide (len = 0)%Z then Some 0%nat else None
           else let c := (- ((- len) `div` n))%Z in
                if decide (c < 0)%Z then None else Some (Z.to_nat c));
  let padding :=
    String.substring 0 (Z.to_nat (len - Z.of_nat (String.length s)))
      (String.concat "" (replicate count padString)) in
  Some (if decide (Z.of_nat (String.length s) < len)%Z
        then if prepend then padding +:+ s else s +:+ padding
        else s).

Section Authors.
Context (E : Env).

(** [formatAuthors(first, last, reverse)]:
    [first.map((f, i) => last[i] + (f.length > 0 ? ', ' + f : ''))] when
    [reverse] is set,
    [first.map((f, i) => (f.length > 0 ? f + ' ' : '') + last[i])]
    otherwise. *)
Definition formatAuthors (first last : jsval) (reverse : bool) : outcome jsval :=
  match first with
  | JArr fs =>
      JArr <$> mapM (fun '(i, f) =>
                       if reverse then
                         l ← get_index last i;
                         len ← get_prop f "length";
                         mret (str_concat l
                                 (if num_gt (ToNumber E len) (Some 0%Z)
                                  then str_concat (JStr ", ") f else JStr ""))
                       else
                         len ← get_prop f "length";
                         l ← get_index last i;
                         mret (str_concat
                                 (if num_gt (ToNumber E len) (Some 0%Z)
                                  then str_concat f (JStr " ") else JStr "")
                                 l))
                    (imap pair fs)
  | _ => Throw TypeError
  end.
End Authors.

(** *** patternsToArray *)

(** [s.split(sep)] for a separator of one character: the pieces between
    the separators, empty ones included; never an empty list. *)
Fixpoint split_on (sep : Ascii.ascii) (s : string) : list string :=
  match s with
  | EmptyString => [EmptyString]
  | String c r =>
      if decide (c = sep) then EmptyString :: split_on sep r
      else match split_on sep r with
           | h :: t => String c h :: t
           | [] => [String c EmptyString]
           end
  end.

(** [l.join(sep)]: [null] and [undefined] elements print as the empty
    string. *)
Definition join (sep : string) (l : list jsval) : string :=
  String.concat sep
    ((fun x => match x with
               | JUndefined | JNull => ""
               | _ => to_string x
               end) <$> l).

(** [part === '*' ? [...Array(256).keys()] : [part]] *)
Definition part_values (part : string) : list jsval :=
  if decide (part = "*") then (fun n => JNum (Z.of_nat n)) <$> seq 0 256
  else [JStr part].

(** [l.flat()]: the elements of [l] that are arrays are replaced by
    their elements. *)
Definition flat (l : list jsval) : list jsval :=
  l ≫= (fun x => match x with JArr xs => xs | _ => [x] end).

(** [a.flatMap((d) => b.map((e) => [d, e].flat()))] *)
Definition cross (a b : list jsval) : list jsval :=
  a ≫= (fun d => (fun e => JArr (flat [d; e])) <$> b).

(** [l.reduce(f)] without an initial value: a [TypeError] on an empty
    array, the only element of an array of one. *)
Definition reduce {A} (f : A → A → A) (l : list A) : outcome A :=
  match l with
  | [] => Throw TypeError
  | a :: r => Ok (foldl f a r)
  end.

(** [patternsToArray(patterns)] for a text [patterns].  The last [map]
    calls [join] on what the [flatMap] collected: an array for a
    pattern of two parts or more, but the part itself, which has no
    [join], for a pattern without a dot. *)
Definition patternsToArray (patterns : string) : outcome (list string) :=
  let ips := (fun pattern => part_values <$> split_on "." pattern)
               <$> split_on " " patterns in
  combined ← mapM (reduce cross) ips;
  mapM (fun ip => match ip with
                  | JArr xs => Ok (join "." xs)
                  | _ => Throw TypeError
                  end)
       (concat combined).

End Util.

(** ** The world the handlers run in *)

(** The parameters of an Airtable [select] as [listVideos] builds them;
    [view], [sort] and [fields] are the constants of the source. *)
Record options : Type := {
  pageSize : option Z;
  view : string;
  sort : list (string * string);
  fields : list string;
  maxRecords : option (option Z);
  filterByFormula : option string
}.

(** An Airtable record: its field values; [record.get(f)] is
    [obj_get f]. *)
Definition record : Type := list (string * jsval).

(** What [eachPage] delivers for one [select]: the pages that arrive, in
    order, and then either completion ([done(null)]) or the error object
    of the request that failed ([done(err)]). *)
Record walk : Type := {
  pages : list (list record);
  failure : option (list (string * jsval))
}.

(** Location of an array object in the store. *)
Definition loc : Type := nat.

Inductive event : Type :=
(** [res.status(s).send(JSON.stringify(v))] (or [.end]) *)
| HttpSend (status : Z) (body : jsval)
(** [base('Videos').select(opts).eachPage(...)] *)
| SourceSelect (opts : options)
(** [base('Videos').update(records)] *)
| SourceUpdate (records : list jsval)
(** [zoteroLibrary.post(path, body)] *)
| TargetPost (path : string) (body : jsval)
(** [zotero.get('items/new', { params: { itemType } })] *)
| TargetGetTemplate (itemType : string)
(** [fs.writeFile(file, JSON.stringify(v), ...)] *)
| FileWrite (file : string) (content : jsval)
(** [sleep(seconds)] *)
| Sleep (seconds : Z)
(** [console.error(err.message)] *)
| ConsoleError (e : exn).

Record world : Type := {
  (** everything done so far, oldest first *)
  trace : list event;
  (** the response cache, by path *)
  cache : gmap string jsval;
  (** the arrays that are mutated in place *)
  arrays : gmap loc (list jsval)
}.

(** The external services: what Airtable delivers for a [select], and
    what Zotero answers to a request, given everything done before it. *)
Record Services : Type := {
  source_select : options → walk;
  (** the response object of axios, or the error it rejects with *)
  target_post : list event → string → jsval → exn + jsval;
  target_get_template : list event → exn + jsval
}.

(** An answer received, or the rejection thrown by [await]. *)
Definition awaited {A} (x : exn + A) : outcome A :=
  match x with
  | inl e => Throw e
  | inr a => Ok a
  end.

(** State and exceptions. *)
Definition M (A : Type) : Type := world → outcome A * world.

#[export] Instance M_ret : MRet M := fun A a w => (Ok a, w).
#[export] Instance M_bind : MBind M := fun A B f m w =>
  match m w with
  | (Ok a, w') => f a w'
  | (Throw e, w') => (Throw e, w')
  | (OutOfFuel, w') => (OutOfFuel, w')
  end.

#[export] Instance M_fmap : FMap M := fun A B f m w =>
  match m w with
  | (r, w') => (f <$> r, w')
  end.

Definition lift {A} (o : outcome A) : M A := fun w => (o, w).
Definition throw {A} (e : exn) : M A := lift (Throw e).

(** [try { m } catch (err) { h err }] *)
Definition try_catch {A} (m : M A) (h : exn → M A) : M A := fun w =>
  match m w with
  | (Throw e, w') => h e w'
  | r => r
  end.

Definition emit (e : event) : M unit := fun w =>
  (Ok (), {| trace := trace w ++ [e]; cache := cache w; arrays := arrays w |}).

(** [while (cond) { body }] *)
Fixpoint while (fuel : nat) (cond : M bool) (body : M unit) : M unit :=
  c ← cond;
  if c : bool then
    match fuel with
    | O => lift OutOfFuel
    | S fuel' => _ ← body; while fuel' cond body
    end
  else mret ().

(** *** Arrays in the store *)

(** A new array object. *)
Definition alloc (l : list jsval) : M loc := fun w =>
  let a := fresh (dom (arrays w)) in
  (Ok a, {| trace := trace w; cache := cache w; arrays := <[a:=l]> (arrays w) |}).

Definition read (a : loc) : M (list jsval) := fun w =>
  match arrays w !! a with
  | Some l => (Ok l, w)
  | None => (Throw TypeError, w)
  end.

(** [a.splice(0, n)]: removes the first [n] elements of [a] and returns
    them. *)
Definition splice0 (a : loc) (n : nat) : M (list jsval) := fun w =>
  match arrays w !! a with
  | Some l =>
      (Ok (take n l),
       {| trace := trace w; cache := cache w; arrays := <[a:=drop n l]> (arrays w) |})
  | None => (Throw TypeError, w)
  end.

(** *** cache.js *)

(** Modelled from the spec: [cache.js] is not among the sources.  The
    spec's ResponseCache is a keyed store of complete result sets,
    [read(key) -> ResultSet | absent]; absence is [null]. *)
Definition readCacheWithPath (path : string) : M jsval := fun w =>
  (Ok (default JNull (cache w !! path)), w).

(** Modelled from the spec: [cache.js] is not among the sources.
    [write(key, ResultSet) -> void]; entries persist until overwritten. *)
Definition writeCacheWithPath (path : string) (data : jsval) : M unit := fun w =>
  (Ok (), {| trace := trace w; cache := <[path:=data]> (cache w); arrays := arrays w |}).

(** ** esovdb.js *)

Module Esovdb.

(** A request to [/videos/list]: the route parameter, the four query
    parameters the handler reads, and the URL. *)
Record request : Type := {
  params_pg : jsval;
  query_pageSize : jsval;
  query_maxRecords : jsval;
  query_createdAfter : jsval;
  query_modifiedAfter : jsval;
  url : string
}.

Definition select_fields : list string :=
  [ "Zotero Key"; "Zotero Version"; "Title"; "URL"; "Year"; "Description";
    "Running Time"; "Format"; "Topic"; "Learn More"; "Series Text";
    "Series Count Text"; "Vol."; "No."; "Publisher Text";
    "Presenter First Name"; "Presenter Last Name"; "Language Code";
    "Location"; "Plus Code"; "Video Provider"; "ESOVDBID"; "Record ID";
    "ISO Added"; "Created"; "Modified" ].

Section WithEnv.
Context (E : Env) (S : Services).

(** [req.params.pg] after the first statement; [None] is [null]. *)
Definition page_index (pg : jsval) : option Z :=
  if negb (truthy pg) || negb (num_truthy (ToNumber E pg))
     || num_lt (ToNumber E pg) (Some 0%Z)
  then None
  else (fun n => n - 1)%Z <$> ToNumber E pg.

(** [req.query.pageSize] after the second statement. *)
Definition pageSize_default (ps : jsval) : jsval :=
  if negb (truthy ps)
     || negb (num_truthy
                (ToNumber E (js_or ps (JBool (num_gt (ToNumber E ps) (Some 100%Z))))))
  then JNum 100
  else ps.

(** [req.query.maxRecords] after the third statement. *)
Definition maxRecords_default (mr : jsval) : jsval :=
  if negb (num_truthy (ToNumber E (js_or mr (JBool (loose_eq_zero E mr)))))
  then JNull
  else mr.

(** [req.query.pageSize] after the fourth statement. *)
Definition pageSize_clamped (ps mr : jsval) : jsval :=
  if truthy mr && num_lt (ToNumber E mr) (ToNumber E ps) then mr else ps.

(** [modifiedAfter] / [createdAfter]: the parsed date when the
    parameter is given and parses to a positive number, [None]
    ([undefined]) otherwise. *)
Definition after_date (q : jsval) : outcome (option Z) :=
  if truthy q then
    match decodeURIComponent E (to_string q) with
    | None => Throw URIError
    | Some s =>
        Ok (if num_gt (Date_parse E s) (Some 0%Z) then Date_parse E s else None)
    end
  else Ok None.

Definition modified_filter (t : Z) : string :=
  "IS_AFTER({Modified}, DATETIME_PARSE(" +:+ pretty t +:+ "))".
Definition created_filter (t : Z) : string :=
  "IS_AFTER(CREATED_TIME(), DATETIME_PARSE(" +:+ pretty t +:+ "))".

(** The [options] object after lines 115-151. *)
Definition select_options (ps mr : jsval) (modifiedAfter createdAfter : option Z)
  : options :=
  let o0 := {| pageSize := ToNumber E ps;
               view := "All Online Videos";
               sort := [("Modified", "desc")];
               fields := select_fields;
               maxRecords := None;
               filterByFormula := None |} in
  let o1 := if truthy mr
            then {| pageSize := pageSize o0; view := view o0; sort := sort o0;
                    fields := fields o0;
                    maxRecords := Some (ToNumber E mr);
                    filterByFormula := filterByFormula o0 |}
            else o0 in
  let o2 := if num_truthy modifiedAfter
            then {| pageSize := pageSize o1; view := view o1; sort := sort o1;
                    fields := fields o1; maxRecords := maxRecords o1;
                    filterByFormula := modified_filter <$> modifiedAfter |}
            else o1 in
  if num_truthy createdAfter
  then {| pageSize := pageSize o2; view := view o2; sort := sort o2;
          fields := fields o2; maxRecords := maxRecords o2;
          filterByFormula := created_filter <$> createdAfter |}
  else o2.

(** The row pushed for one record (lines 166-195). *)
Definition row (r : record) : outcome jsval :=
  let get f := obj_get f r in
  presenters ← Util.packageAuthors (get "Presenter First Name")
                                   (get "Presenter Last Name");
  mret (JObj
    [ ("zoteroKey", js_or (get "Zotero Key") (JStr ""));
      ("zoteroVersion", js_or (get "Zotero Version") (JStr ""));
      ("title", js_or (get "Title") (JStr ""));
      ("url", js_or (get "URL") (JStr ""));
      ("year", js_or (get "Year") (JStr ""));
      ("desc", js_or (get "Description") (JStr ""));
      ("runningTime", js_or (Util.formatDuration E (get "Running Time")) (JStr ""));
      ("format", js_or (get "Format") (JStr ""));
      ("topic", get "Topic");
      ("learnMore", get "Learn More");
      ("series", js_or (get "Series Text") (JStr ""));
      ("seriesCount", js_or (get "Series Count Text") (JStr ""));
      ("vol", js_or (get "Vol.") (JStr ""));
      ("no", js_or (get "No.") (JStr ""));
      ("publisher", js_or (get "Publisher Text") (JStr ""));
      ("presenters", presenters);
      ("language", js_or (get "Language Code") (JStr ""));
      ("location", js_or (get "Location") (JStr ""));
      ("plusCode", js_or (get "Plus Code") (JStr ""));
      ("provider", js_or (get "Video Provider") (JStr ""));
      ("esovdbId", js_or (get "ESOVDBID") (JStr ""));
      ("recordId", js_or (get "Record ID") (JStr ""));
      ("accessDate", js_or (Util.formatDate E (get "ISO Added")) (JStr ""));
      ("created", get "Created");
      ("modified", get "Modified") ]).

(** [done(err)] (lines 215-226). *)
Definition done (cachePath : string) (err : option (list (string * jsval)))
    (data : list jsval) : M unit :=
  match err with
  | Some e => emit (HttpSend 400 (JObj e))
  | None =>
      _ ← writeCacheWithPath cachePath (JArr data);
      emit (HttpSend 200 (JArr data))
  end.

(** The page walk: [page] (lines 159-214) is called for each page that
    arrives, with the counter [pg] and the accumulator [data]; [done]
    is called when the walk ends.  An exception thrown inside [page]
    is taken to end the walk there: what the Airtable client does with
    it is not part of this file. *)
Fixpoint eachPage (cachePath : string) (req_pg : option Z)
    (ps : list (list record)) (err : option (list (string * jsval)))
    (pg : Z) (data : list jsval) : M unit :=
  match ps with
  | [] => done cachePath err data
  | records :: rest =>
      if negb (num_truthy req_pg) || bool_decide (Some pg = req_pg) then
        rows ← lift (mapM row records);
        let data := data ++ rows in
        _ ← (if bool_decide (Some pg = req_pg)
             then emit (HttpSend 200 (JArr data))
             else mret ());
        eachPage cachePath req_pg rest err (pg + 1)%Z data
      else
        eachPage cachePath req_pg rest err (pg + 1)%Z data
  end.

(** [listVideos(req, res)] *)
Definition listVideos (req : request) : M unit :=
  let req_pg := page_index (params_pg req) in
  let ps := pageSize_default (query_pageSize req) in
  let mr := maxRecords_default (query_maxRecords req) in
  let ps := pageSize_clamped ps mr in
  modifiedAfter ← lift (after_date (query_modifiedAfter req));
  createdAfter ← lift (after_date (query_createdAfter req));
  let cachePath := ".cache" +:+ url req +:+ ".json" in
  cachedResult ← readCacheWithPath cachePath;
  if negb (nullish cachedResult) then
    emit (HttpSend 200 cachedResult)
  else
    let opts := select_options ps mr modifiedAfter createdAfter in
    _ ← emit (SourceSelect opts);
    let w := source_select S opts in
    eachPage cachePath req_pg (pages w) (failure w) 0%Z [].

(** [processUpdates(videos)]: [updates] is a copy of [videos]; the
    counters [i] and [queue] only feed the log line. *)
Definition processUpdates (fuel : nat) (videos : loc) : M loc :=
  vs ← read videos;
  updates ← alloc vs;
  _ ← while fuel
        (us ← read updates; mret (negb (bool_decide (length us = 0%nat))))
        (chunk ← splice0 updates 50; emit (SourceUpdate chunk));
  mret videos.

(** [updateVideos(req, res)], for a request whose body is the array at
    [body]. *)
Definition updateVideos (fuel : nat) (body : loc) : M unit :=
  b ← read body;
  if bool_decide (0 < length b)%nat then
    data ← processUpdates fuel body;
    d ← read data;
    emit (HttpSend 200 (JArr d))
  else mret ().
End WithEnv.

End Esovdb.

(** ** zotero.js *)

Module Zotero.

(** Parent collections of the Zotero library, by name. *)
Definition collections : list (string * string) :=
  [ ("series", "HYQEFRGR");
    ("topics", "EGB8TQZ8") ].

(** ESOVDB topics and their collection keys in Zotero. *)
Definition topics : list (string * string) :=
  [ ("Mantle Geodynamics, Geochemistry, Convection, Rheology, & Seismic Imaging and Modeling", "5XQD67DA");
    ("Igneous & Metamorphic Petrology, Volcanism, & Hydrothermal Systems", "L6JMIGTE");
    ("Alluvial, Pluvial & Terrestrial Sedimentology, Erosion & Weathering, Geomorphology, Karst, Groundwater & Provenance", "BV7G3CIC");
    ("Early Earth, Life's Origins, Deep Biosphere, and the Formation of the Planet", "9DK53U7F");
    ("Geological Stories, News, Tours, & Field Trips", "XDFHQTC3");
    ("History, Education, Careers, Field Work, Economic Geology, & Technology", "M4NKIHBK");
    ("Glaciation, Atmospheric Science, Carbon Cycle, & Climate", "AD997U4T");
    ("The Anthropocene", "P2WNJD9N");
    ("Geo-Archaeology", "UJDCHPB5");
    ("Paleoclimatology, Isotope Geochemistry, Radiometric Dating, Deep Time, & Snowball Earth", "L4PLXHN8");
    ("Seafloor Spreading, Oceanography, Paleomagnetism, & Geodesy", "NPDV3BHH");
    ("Tectonics, Terranes, Structural Geology, & Dynamic Topography", "U3JYUDHI");
    ("Seismology, Mass Wasting, Tsunamis, & Natural Disasters", "63TE3Y26");
    ("Minerals, Mining & Resources, Crystallography, & Solid-state Chemistry", "YY5W7DB8");
    ("Marine & Littoral Sedimentology, Sequence Stratigraphy, Carbonates, Evaporites, Coal, Petroleum, and Mud Volcanism", "37J3LYFL");
    ("Planetary Geology, Impact Events, Astronomy, & the Search for Extraterrestrial Life", "HLV7WMZQ");
    ("Paleobiology, Mass Extinctions, Fossils, & Evolution", "VYWX6R2B") ].

(** [map.get(key)] on a [Map] with string keys. *)
Definition Map_get (m : list (string * string)) (key : jsval) : jsval :=
  match key with
  | JStr k =>
      match list_find (fun kv => kv.1 = k) m with
      | Some (_, (_, v)) => JStr v
      | None => JUndefined
      end
  | _ => JUndefined
  end.

(** Seconds to wait between requests to the Zotero API. *)
Definition zoteroRateLimit : Z := 10.

(** The answer of [postItems]. *)
Record ZoteroResponse : Type := {
  successful : list jsval;
  unchanged : list jsval;
  failed : list jsval
}.

(** The line feed. *)
Definition LF : string := String (Ascii.ascii_of_nat 10) EmptyString.

(** *** The pattern [/rec[\w]{14}$/] *)

Definition word_char (c : Ascii.ascii) : bool :=
  let n := Ascii.nat_of_ascii c in
  (48 <=? n)%nat && (n <=? 57)%nat
  || (65 <=? n)%nat && (n <=? 90)%nat
  || (97 <=? n)%nat && (n <=? 122)%nat
  || (n =? 95)%nat.

(** [n] word characters and then the end of the input. *)
Fixpoint words_then_end (n : nat) (s : string) : bool :=
  match n, s with
  | O, EmptyString => true
  | S n', String c r => word_char c && words_then_end n' r
  | _, _ => false
  end.

(** The pattern matches at the start of [s]. *)
Definition match_here (s : string) : bool :=
  match s with
  | String "r"%char (String "e"%char (String "c"%char r)) => words_then_end 14 r
  | _ => false
  end.

(** [s.match(/rec[\w]{14}$/)]: the text of the leftmost match, [None]
    for [null]. *)
Fixpoint regex_match (s : string) : option string :=
  if match_here s then Some s
  else match s with
       | EmptyString => None
       | String _ r => regex_match r
       end.

(** The patch instruction built for one posted item (lines 358-364). *)
Definition itemToSync (item : jsval) : outcome jsval :=
  data ← get_prop item "data";
  archiveLocation ← get_prop data "archiveLocation";
  id ← match archiveLocation with
       | JStr s =>
           match regex_match s with
           | Some m => Ok (JStr m)
           | None => Throw TypeError
           end
       | _ => Throw TypeError
       end;
  key ← get_prop item "key";
  version ← get_prop item "version";
  mret (JObj [ ("id", id);
               ("fields", JObj [ ("Zotero Key", key);
                                 ("Zotero Version", version) ]) ]).

(** The creator made of a first and a last name (lines 222-231). *)
Definition contributor (firstName lastName : jsval) : jsval :=
  if negb (truthy firstName) || negb (truthy lastName)
  then JObj [ ("creatorType", JStr "contributor");
              ("name", js_or (js_or firstName (str_concat (JStr "") lastName))
                             (JStr "")) ]
  else JObj [ ("creatorType", JStr "contributor");
              ("firstName", firstName);
              ("lastName", lastName) ].

(** One creator of the payload, from one packaged presenter. *)
Definition creator (presenter : jsval) : outcome jsval :=
  firstName ← get_prop presenter "firstName";
  lastName ← get_prop presenter "lastName";
  mret (contributor firstName lastName).

(** [payload.collections.push(x)] *)
Definition push_collection (x : jsval) (payload : list (string * jsval))
  : list (string * jsval) :=
  match obj_get "collections" payload with
  | JArr cs => obj_set "collections" (JArr (cs ++ [x])) payload
  | _ => payload
  end.

Section WithEnv.
Context (E : Env) (S : Services).

Definition console_error (e : exn) : M unit := emit (ConsoleError e).

(** The [creators] of the payload (lines 221-235):
    [video.presenters.length > 0 ? video.presenters.map(...) : {...}]. *)
Definition creators (presenters : jsval) : outcome jsval :=
  len ← get_prop presenters "length";
  if num_gt (ToNumber E len) (Some 0%Z) then
    match presenters with
    | JArr ps => JArr <$> mapM creator ps
    | _ => Throw TypeError
    end
  else Ok (JObj [ ("creatorType", JStr "contributor");
                  ("name", JStr "Unknown") ]).

(** [zoteroLibrary.post(path, body)] *)
Definition zoteroLibrary_post (path : string) (body : jsval) : M jsval := fun w =>
  (awaited (target_post S (trace w) path body),
   {| trace := trace w ++ [TargetPost path body];
      cache := cache w; arrays := arrays w |}).

(** [zotero.get('items/new', { params: { itemType: 'videoRecording' } })] *)
Definition zotero_get_template : M jsval := fun w =>
  (awaited (target_get_template S (trace w)),
   {| trace := trace w ++ [TargetGetTemplate "videoRecording"];
      cache := cache w; arrays := arrays w |}).

(** [updateTable(items, table)]; [None] is [undefined].  The first
    line reads [Object.keys(items[0].fields)] for the log, outside the
    [try].  The table name reaches [processUpdates] as an argument it
    does not have. *)
Definition updateTable (fuel : nat) (items : list jsval) (table : string)
  : M (option loc) :=
  _ ← lift (i0 ← get_index (JArr items) 0;
            fs ← get_prop i0 "fields";
            Object_values fs);
  items ← alloc items;
  try_catch
    (response ← Esovdb.processUpdates fuel items;
     r ← read response;
     if bool_decide (0 < length r)%nat then mret (Some response)
     else throw (Error ("[ERROR] Couldn't update " +:+ pretty (length r)
                        +:+ " item"
                        +:+ (if bool_decide (length r = 1%nat) then "" else "s")
                        +:+ ".")))
    (fun err => _ ← console_error err; mret None).

(** [getTemplate()]; [JUndefined] when it fails. *)
Definition getTemplate : M jsval :=
  try_catch
    (response ← zotero_get_template;
     data ← lift (get_prop response "data");
     if truthy data then mret data
     else throw (Error "[ERROR] Couldn't retrieve template from Zotero."))
    (fun err => _ ← console_error err; mret JUndefined).

(** [postItems(items)]; [None] is [undefined]. *)
Definition postItems (items : list jsval) : M (option ZoteroResponse) :=
  try_catch
    (response ← zoteroLibrary_post "items" (JArr items);
     data ← lift (get_prop response "data");
     s ← lift (get_prop data "successful" ≫= Object_values);
     u ← lift (get_prop data "unchanged" ≫= Object_values);
     f ← lift (get_prop data "failed" ≫= Object_values);
     _ ← (if bool_decide (0 < length f)%nat
          then failedItems ← lift (get_prop data "failed");
               emit (FileWrite "failed.json" failedItems)
          else mret ());
     mret (Some {| successful := s; unchanged := u; failed := f |}))
    (fun err => _ ← console_error err; mret None).

(** [createCollection(name, parent)]; [JUndefined] when it fails. *)
Definition createCollection (name parent : jsval) : M jsval :=
  try_catch
    (if truthy (Map_get collections parent) then
       zoteroLibrary_post "collections"
         (JArr [ JObj [ ("name", name);
                        ("parentCollection", Map_get collections parent) ] ])
     else throw (Error "[ERROR] Unrecognized parent collection."))
    (fun err => _ ← console_error err; mret JUndefined).

(** The payload after lines 237-272. *)
Definition payload_of (video : list (string * jsval)) (template presenters : jsval)
  : list (string * jsval) :=
  let get k := obj_get k video in
  let extras :=
    (if truthy (get "topic") then [("Topic", get "topic")] else [])
    ++ (if truthy (get "tagsList") then [("Tags", get "tagsList")] else [])
    ++ (if truthy (get "location") then [("Location", get "location")] else [])
    ++ (if truthy (get "plusCode") then [("Plus Code", get "plusCode")] else [])
    ++ (if truthy (get "learnMore") then [("Learn More", get "learnMore")] else []) in
  let payload :=
    obj_literal (spread template)
      [ ("itemType", JStr "videoRecording");
        ("title", js_or (get "title") (JStr ""));
        ("creators", presenters);
        ("abstractNote", js_or (get "desc") (JStr ""));
        ("videoRecordingFormat", js_or (get "format") (JStr ""));
        ("seriesTitle", js_or (get "series") (JStr ""));
        ("volume",
          if truthy (get "vol")
          then JStr (to_string (js_or (get "vol") (JStr "")) +:+ ":"
                     +:+ to_string (js_or (get "no") (JStr "")))
          else js_or (get "no") (JStr ""));
        ("numberOfVolumes",
          if num_gt (ToNumber E (get "seriesCount")) (Some 1%Z)
          then get "seriesCount" else JStr "");
        ("place", js_or (get "provider") (JStr ""));
        ("studio", js_or (get "publisher") (JStr ""));
        ("date", js_or (get "year") (JStr ""));
        ("runningTime", js_or (Util.formatDuration E (get "runningTime")) (JStr ""));
        ("language", js_or (get "language") (JStr ""));
        ("ISBN", JStr "");
        ("shortTitle", JStr "");
        ("url", js_or (get "url") (JStr ""));
        ("accessDate", js_or (Util.formatDate E (get "accessDate")) (JStr ""));
        ("archive", JStr "Earth Science Online Video Database");
        ("archiveLocation",
          str_concat (JStr "https://airtable.com/tbl3WP689vHdmg7P2/viwD9Tpr6JAAr97CW/")
                     (get "recordId"));
        ("libraryCatalog", JStr "");
        ("callNumber", js_or (get "esovdbId") (JStr ""));
        ("rights", JStr "");
        ("extra",
          JStr (String.concat LF
                  ((fun item => item.1 +:+ ": " +:+ to_string item.2) <$> extras)));
        ("tags", JArr []);
        ("collections",
          if truthy (Map_get topics (get "topic"))
          then JArr [Map_get topics (get "topic")] else JArr []);
        ("relations", JObj []) ] in
  if truthy (js_and (get "zoteroKey") (get "zoteroVersion"))
  then obj_set "version" (get "zoteroVersion")
         (obj_set "key" (get "zoteroKey") payload)
  else payload.

(** The series collection of the payload (lines 274-299).  The [try]
    block is split where it pushes onto [payload.collections]: an
    exception before the push leaves the payload as it was, one after
    it keeps the pushed key. *)
Definition resolve_series (fuel : nat) (video payload : list (string * jsval))
  : M (list (string * jsval)) :=
  let get k := obj_get k video in
  if truthy (get "series") then
    if truthy (get "zoteroSeries") then
      mret (push_collection (get "zoteroSeries") payload)
    else
      created ←
        try_catch
          (response ← createCollection (get "series") (JStr "series");
           data ← lift (get_prop response "data");
           success ← lift (get_prop data "success");
           values ← lift (if truthy success then Object_values success else Ok []);
           if truthy success && bool_decide (0 < length values)%nat then
             Some <$> lift (get_index success 0)
           else
             failed ← lift (get_prop data "failed");
             len ← lift (get_prop failed "length");
             message ←
               lift (if num_gt (ToNumber E len) (Some 1%Z) then
                       f0 ← get_index failed 0;
                       m ← get_prop f0 "message";
                       mret (if truthy m then m else JStr "")
                     else Ok (JStr ""));
             throw (Error ("[ERROR] Failed to create series collection"
                           +:+ (if truthy message
                                then " (" +:+ to_string message +:+ ")" else "")
                           +:+ ".")))
          (fun err => _ ← console_error err; mret None);
      match created with
      | None => mret payload
      | Some key =>
          _ ← try_catch
                (updateSeriesResponse ←
                   updateTable fuel
                     [ JObj [ ("id", get "seriesId");
                              ("fields", JObj [ ("Zotero Key", key) ]) ] ]
                     "Series";
                 match updateSeriesResponse with
                 | Some _ => mret ()
                 | None =>
                     throw (Error "[ERROR] Failed to sync series collection key with the ESOVDB")
                 end)
                (fun err => console_error err);
          mret (push_collection key payload)
      end
  else mret payload.

(** [formatItems(video, template)]: the payload as an object.  Reading
    [presentersFirstName] from [null] or [undefined] throws, and on any
    other value that is not an object it is [undefined], which
    [packageAuthors] rejects. *)
Definition formatItems (fuel : nat) (video template : jsval) : M jsval :=
  first ← lift (get_prop video "presentersFirstName");
  last ← lift (get_prop video "presentersLastName");
  presenters ← lift (Util.packageAuthors first last);
  video ← lift (set_prop video "presenters" presenters);
  cs ← lift (get_prop video "presenters" ≫= creators);
  let v := spread video in
  payload ← resolve_series fuel v (payload_of v template cs);
  mret (JObj payload).

(** The write loop of [syncItems] (lines 329-350): [items] is spliced
    in place, [posted] and the three totals accumulate. *)
Fixpoint postLoop (fuel : nat) (items posted : list jsval) (totals : nat * nat * nat)
  : M (list jsval * (nat * nat * nat)) :=
  if bool_decide (length items = 0%nat) then mret (posted, totals)
  else
    match fuel with
    | O => lift OutOfFuel
    | Datatypes.S fuel' =>
        response ← postItems (take 50 items);
        let items := drop 50 items in
        match response with
        | None => throw TypeError
        | Some r =>
            let posted :=
              if bool_decide (0 < length (successful r))%nat
              then posted ++ successful r else posted in
            let totals :=
              (totals.1.1 + length (successful r),
               totals.1.2 + length (unchanged r),
               totals.2 + length (failed r))%nat in
            _ ← (if bool_decide (50 < length items)%nat
                 then emit (Sleep zoteroRateLimit) else mret ());
            postLoop fuel' items posted totals
        end
    end.
End WithEnv.

End Zotero.

(** ** What a trace shows *)

(** The [select] calls made to Airtable. *)
Definition selects (t : list event) : list options :=
  omap (fun e => match e with SourceSelect o => Some o | _ => None end) t.

(** The batches sent to Airtable's [update]. *)
Definition updates (t : list event) : list (list jsval) :=
  omap (fun e => match e with SourceUpdate c => Some c | _ => None end) t.

(** The requests posted to Zotero. *)
Definition posts (t : list event) : list (string * jsval) :=
  omap (fun e => match e with TargetPost p b => Some (p, b) | _ => None end) t.

(** The responses sent on the HTTP connection of the request.  Only the
    first one reaches the caller: a response is sent once. *)
Definition sends (t : list event) : list event :=
  omap (fun e => match e with
                 | HttpSend _ _ => Some e
                 | _ => None
                 end) t.
Definition http_response (t : list event) : option event := head (sends t).

(** The pauses taken, in seconds. *)
Definition sleeps (t : list event) : list Z :=
  omap (fun e => match e with Sleep n => Some n | _ => None end) t.

(** The fields that the object literal of [formatItems] sets. *)
Definition payload_fields : list string :=
  [ "itemType"; "title"; "creators"; "abstractNote"; "videoRecordingFormat";
    "seriesTitle"; "volume"; "numberOfVolumes"; "place"; "studio"; "date";
    "runningTime"; "language"; "ISBN"; "shortTitle"; "url"; "accessDate";
    "archive"; "archiveLocation"; "libraryCatalog"; "callNumber"; "rights";
    "extra"; "tags"; "collections"; "relations" ].

(** The collections that [formatItems] takes from the topic of a video. *)
Definition topic_collections (video : list (string * jsval)) : list jsval :=
  if truthy (Zotero.Map_get Zotero.topics (obj_get "topic" video))
  then [Zotero.Map_get Zotero.topics (obj_get "topic" video)]
  else [].

(** A batch cut into consecutive chunks of [n]. *)
Fixpoint chunks_fuel {A} (fuel n : nat) (l : list A) : list (list A) :=
  match fuel, l with
  | O, _ | _, [] => []
  | S fuel', _ :: _ => take n l :: chunks_fuel fuel' n (drop n l)
  end.
Definition chunks {A} (n : nat) (l : list A) : list (list A) :=
  chunks_fuel (length l) n l.

(** A Zotero answer [postItems] can take apart. *)
Definition readable_answer (response : jsval) : Prop :=
  ∃ data s u f,
    get_prop response "data" = Ok data
    ∧ get_prop data "successful" ≫= Object_values = Ok s
    ∧ get_prop data "unchanged" ≫= Object_values = Ok u
    ∧ get_prop data "failed" ≫= Object_values = Ok f.

(** A record identifier of Airtable: [rec] and fourteen word
    characters. *)
Definition record_id (s : string) : Prop :=
  ∃ tail, s = "rec" +:+ tail
          ∧ String.length tail = 14%nat
          ∧ Forall (fun c => Zotero.word_char c = true) (String.list_ascii_of_string tail).

(** The query parameter [q] decodes and parses to the positive date [t]. *)
Definition positive_date (E : Env) (q : jsval) (t : Z) : Prop :=
  truthy q = true
  ∧ ∃ s, decodeURIComponent E (to_string q) = Some s
         ∧ Date_parse E s = Some t
         ∧ (0 < t)%Z.

(** The cache has nothing for the request. *)
Definition cache_miss (req : Esovdb.request) (w : world) : Prop :=
  nullish (default JNull (cache w !! (".cache" +:+ Esovdb.url req +:+ ".json"))) = true.

(** The [options] that [listVideos] builds for a request whose two date
    parameters came out as [modifiedAfter] and [createdAfter]. *)
Definition request_options (E : Env) (req : Esovdb.request)
    (modifiedAfter createdAfter : option Z) : options :=
  let mr := Esovdb.maxRecords_default E (Esovdb.query_maxRecords req) in
  Esovdb.select_options E
    (Esovdb.pageSize_clamped E
       (Esovdb.pageSize_default E (Esovdb.query_pageSize req)) mr)
    mr modifiedAfter createdAfter.

(** The world once [e] has happened. *)
Definition after (e : event) (w : world) : world :=
  {| trace := trace w ++ [e]; cache := cache w; arrays := arrays w |}.

(** The code [m] does not run out of fuel, whatever the world. *)
Definition total {A} (m : M A) : Prop := ∀ w, (m w).1 ≠ OutOfFuel.

(** What [patternsToArray] builds on the way: the combinations of one
    pattern, as its [reduce] leaves them, and the text of one
    combination, as its last [map] joins it. *)
Definition is_array (x : jsval) : Prop := ∃ xs, x = JArr xs.

Definition combinations (pattern : string) : list jsval :=
  match Util.part_values <$> Util.split_on "." pattern with
  | a :: r => foldl Util.cross a r
  | [] => []
  end.

Definition joined (ip : jsval) : outcome string :=
  match ip with
  | JArr xs => Ok (Util.join "." xs)
  | _ => Throw TypeError
  end.

(** ** Sample data

    An environment that agrees with the JavaScript runtime on the inputs
    used below ([Number] on the empty string and on decimal digits,
    [decodeURIComponent] on text without escapes, [Date.parse] on two
    dates, [formatDate] on text that is not an ISO-8601 instant), and
    services to run the handlers against. *)

Definition digit_value (c : ascii) : option Z :=
  let n := nat_of_ascii c in
  if (48 <=? n)%nat && (n <=? 57)%nat then Some (Z.of_nat (n - 48)) else None.

Fixpoint digits_value (acc : Z) (s : string) : option Z :=
  match s with
  | EmptyString => Some acc
  | String c r =>
      match digit_value c with
      | Some d => digits_value (10 * acc + d)%Z r
      | None => None
      end
  end.

Definition sample_env : Env := {|
  StringToNumber := digits_value 0;
  decodeURIComponent := Some;
  Date_parse := fun s =>
    if decide (s = "2020-01-01") then Some 1577836800000%Z
    else if decide (s = "2021-01-01") then Some 1609459200000%Z
    else None;
  iso8601_local := fun _ => None
|}.

(** Airtable serving a table: pages of [pageSize] records, one empty page
    for an empty table, and optionally an error after the first
    [fail_after] pages. *)
Definition sample_source (table : list record) (fail_after : option nat)
    (opts : options) : walk :=
  let n := Z.to_nat (default 100%Z (pageSize opts)) in
  let ps := match chunks n table with [] => [[]] | ps => ps end in
  match fail_after with
  | Some k => {| pages := take k ps;
                 failure := Some [ ("error", JStr "SERVER_ERROR");
                                   ("statusCode", JNum 500) ] |}
  | None => {| pages := ps; failure := None |}
  end.

(** Zotero accepting every item it is sent, under keys [K0], [K1], ... *)
Definition sample_target_post (t : list event) (path : string) (body : jsval)
  : exn + jsval :=
  match body with
  | JArr items =>
      inr (JObj [ ("data",
                  JObj [ ("successful",
                          JObj (imap (fun i x =>
                                        (pretty i,
                                         JObj [ ("key", JStr ("K" +:+ pretty i));
                                                ("version", JNum 1);
                                                ("data", x) ])) items));
                         ("success",
                          JObj (imap (fun i (x : jsval) =>
                                        (pretty i, JStr ("K" +:+ pretty i))) items));
                         ("unchanged", JObj []);
                         ("failed", JObj []) ]) ])
  | _ => inl (Error "Request failed with status code 400")
  end.

Definition sample_services (table : list record) (fail_after : option nat)
  : Services := {|
  source_select := sample_source table fail_after;
  target_post := sample_target_post;
  target_get_template := fun _ =>
    inr (JObj [ ("data", JObj [ ("itemType", JStr "videoRecording");
                                ("title", JStr "") ]) ])
|}.

Definition empty_world : world := {| trace := []; cache := ∅; arrays := ∅ |}.

(** A batch of 120 update instructions, and a world holding it as the
    array at location 0. *)
Definition sample_batch : list jsval :=
  (fun n => JObj [ ("id", JStr ("rec" +:+ pretty n));
                   ("fields", JObj [ ("Zotero Version", JNum 1) ]) ])
  <$> seq 0 120.

Definition batch_world : world :=
  {| trace := []; cache := ∅; arrays := {[ 0%nat := sample_batch ]} |}.

(** A video record of the table, with a title and one presenter. *)
Definition sample_record (n : Z) : record :=
  [ ("Title", JStr ("Video " +:+ pretty n));
    ("Presenter First Name", JArr [JStr "Jane"]);
    ("Presenter Last Name", JArr [JStr "Doe"]) ].

Definition five_records : list record := sample_record <$> [1; 2; 3; 4; 5]%Z.

(** The rows of the records that [row] projects. *)
Definition rows_of (E : Env) (records : list record) : list jsval :=
  omap (fun r => match Esovdb.row E r with Ok x => Some x | _ => None end) records.

(** [GET /videos/list/<page>?pageSize=2] *)
Definition list_request (page : string) : Esovdb.request := {|
  Esovdb.params_pg := if decide (page = "") then JUndefined else JStr page;
  Esovdb.query_pageSize := JStr "2";
  Esovdb.query_maxRecords := JUndefined;
  Esovdb.query_createdAfter := JUndefined;
  Esovdb.query_modifiedAfter := JUndefined;
  Esovdb.url := "/videos/list/" +:+ page +:+ "?pageSize=2"
|}.

(** [GET /videos/list?createdAfter=2021-01-01&modifiedAfter=2020-01-01] *)
Definition both_filters_request : Esovdb.request := {|
  Esovdb.params_pg := JUndefined;
  Esovdb.query_pageSize := JUndefined;
  Esovdb.query_maxRecords := JUndefined;
  Esovdb.query_createdAfter := JStr "2021-01-01";
  Esovdb.query_modifiedAfter := JStr "2020-01-01";
  Esovdb.url := "/videos/list?createdAfter=2021-01-01&modifiedAfter=2020-01-01"
|}.

(** A video as [/sync] receives it. *)
Definition sample_video : jsval :=
  JObj [ ("title", JStr "Plate Tectonics");
         ("presentersFirstName", JArr [JStr "Jane"]);
         ("presentersLastName", JArr [JStr "Doe"]);
         ("recordId", JStr "recA1b2C3d4E5f6G7") ].

Definition sample_template : jsval :=
  JObj [ ("itemType", JStr "videoRecording"); ("title", JStr "");
         ("creators", JArr []) ].

(** * Properties *)

Import Esovdb Zotero.

(** ** Objects *)

Lemma assoc_obj_set k k' x o :
  assoc k (obj_set k' x o) = if decide (k = k') then Some x else assoc k o.
Proof.
  induction o as [|[k0 v0] o IH]; simpl.
  - repeat case_decide; congruence.
  - repeat (case_decide; simpl); congruence.
Qed.

Lemma obj_get_obj_set_ne k k' x o :
  k ≠ k' → obj_get k (obj_set k' x o) = obj_get k o.
Proof. intros Hne. unfold obj_get. rewrite assoc_obj_set. by case_decide. Qed.

Lemma obj_get_obj_set_eq k x o : obj_get k (obj_set k x o) = x.
Proof. unfold obj_get. rewrite assoc_obj_set. by case_decide. Qed.

Lemma assoc_obj_literal k base fields :
  assoc k (obj_literal base fields)
  = match assoc k (reverse fields) with
    | Some v => Some v
    | None => assoc k base
    end.
Proof.
  unfold obj_literal. revert base.
  induction fields as [|[k0 v0] fields IH]; intros base; simpl.
  { done. }
  rewrite IH, reverse_cons, assoc_obj_set.
  clear IH. induction (reverse fields) as [|[k1 v1] r IHr]; simpl.
  - by destruct (decide (k = k0)).
  - destruct (decide (k = k1)); [done|]. apply IHr.
Qed.

Lemma assoc_push_collection k x payload :
  k ≠ "collections" →
  assoc k (Zotero.push_collection x payload) = assoc k payload.
Proof.
  intros Hne. unfold Zotero.push_collection.
  destruct (obj_get "collections" payload); try done.
  rewrite assoc_obj_set. by case_decide.
Qed.

(** ** The monad *)

Lemma bind_lift_ok {A B} (a : A) (f : A → M B) w :
  (lift (Ok a) ≫= f) w = f a w.
Proof. done. Qed.

(** ** util.js on the examples of its documentation *)

Example formatDuration_hours :
  Util.formatDuration sample_env (JNum 9244) = JStr "2:34:04".
Proof. reflexivity. Qed.

Example formatDuration_minutes :
  Util.formatDuration sample_env (JNum 2722) = JStr "45:22".
Proof. reflexivity. Qed.

Example formatDuration_seconds :
  Util.formatDuration sample_env (JNum 27) = JStr "0:27".
Proof. reflexivity. Qed.

Example packageAuthors_example :
  Util.packageAuthors (JArr [JStr "John C."; JStr "F."])
                      (JArr [JStr "Smith"; JStr "Johnson"])
  = Ok (JArr [ JObj [ ("firstName", JStr "John C."); ("lastName", JStr "Smith") ];
               JObj [ ("firstName", JStr "F."); ("lastName", JStr "Johnson") ] ]).
Proof. reflexivity. Qed.

(** ** packageAuthors *)

Lemma mapM_outcome_ok {A B} (f : A → outcome B) (g : A → B) l :
  (∀ x, x ∈ l → f x = Ok (g x)) → mapM f l = Ok (g <$> l).
Proof.
  induction l as [|x l IH]; intros Hf; simpl; [done|].
  rewrite (Hf x) by set_solver. simpl.
  rewrite IH by (intros; apply Hf; set_solver). done.
Qed.

Lemma mapM_outcome_throw {A B} (f : A → outcome B) e l x :
  x ∈ l → f x = Throw e →
  (∀ y, y ∈ l → (∃ b, f y = Ok b) ∨ f y = Throw e) →
  mapM f l = Throw e.
Proof.
  induction l as [|y l IH]; intros Hin Hx Hall; [set_solver|].
  simpl. destruct (Hall y) as [[b Hb]|Hy]; [constructor| |].
  - rewrite Hb. simpl.
    apply elem_of_cons in Hin as [Heq|Hin]; [congruence|].
    rewrite IH; [done..|]. intros; apply Hall; set_solver.
  - by rewrite Hy.
Qed.

Lemma packageAuthors_arrays fs ls :
  Util.packageAuthors (JArr fs) (JArr ls)
  = Ok (JArr (imap (fun i f => JObj [ ("firstName", f);
                                      ("lastName", default JUndefined (ls !! i)) ])
                   fs)).
Proof.
  unfold Util.packageAuthors.
  rewrite (mapM_outcome_ok _
             (fun '(i, f) => JObj [ ("firstName", f);
                                    ("lastName", default JUndefined (ls !! i)) ])).
  - simpl. by rewrite fmap_imap.
  - by intros [i f] _.
Qed.

Lemma packageAuthors_not_array first last :
  (∀ fs, first ≠ JArr fs) → Util.packageAuthors first last = Throw TypeError.
Proof. intros H. destruct first; try done. by destruct (H elems). Qed.

Lemma packageAuthors_outcome first last :
  (∃ ps, Util.packageAuthors first last = Ok (JArr ps))
  ∨ Util.packageAuthors first last = Throw TypeError.
Proof.
  destruct first as [| | | | |fs|]; try by right.
  unfold Util.packageAuthors.
  generalize (imap pair fs). intros l.
  induction l as [|[i f] l IH]; simpl; [by left; eexists|].
  destruct last; simpl; try (by right);
    (destruct IH as [[ps IH]|IH];
     [ left; destruct (mapM _ l); simplify_eq/=; by eexists
     | right; destruct (mapM _ l); simplify_eq/=; done ]).
Qed.

Lemma row_outcome E r :
  (∃ x, Esovdb.row E r = Ok x) ∨ Esovdb.row E r = Throw TypeError.
Proof.
  unfold Esovdb.row.
  destruct (packageAuthors_outcome (obj_get "Presenter First Name" r)
              (obj_get "Presenter Last Name" r)) as [[ps ->]| ->].
  - left. by eexists.
  - by right.
Qed.

Lemma formatItems_not_array E S fuel v template w :
  (∀ fs, obj_get "presentersFirstName" v ≠ JArr fs) →
  formatItems E S fuel (JObj v) template w = (Throw TypeError, w).
Proof.
  intros H. unfold formatItems. simpl.
  rewrite !bind_lift_ok.
  by rewrite (packageAuthors_not_array _ _ H).
Qed.

(** A video that is not an object has no first names to package. *)
Lemma formatItems_not_object E S fuel video template w :
  (∀ v, video ≠ JObj v) →
  formatItems E S fuel video template w = (Throw TypeError, w).
Proof.
  intros H. unfold formatItems.
  destruct video; try done; by destruct (H props).
Qed.

(** C9: [packageAuthors] needs an array as its first argument and
    throws [TypeError] on anything else, [null] and [undefined]
    included; so for a record whose presenter first names are absent the
    row projection of [listVideos] (alone, and within a page) and
    [formatItems] throw instead of giving an empty list of presenters. *)
Theorem packageAuthors_partial E S fuel (first last : jsval) (r : record)
    (v : list (string * jsval)) (template : jsval) (w : world) :
  (∀ fs, first ≠ JArr fs) →
  obj_get "Presenter First Name" r = first →
  obj_get "presentersFirstName" v = first →
  Util.packageAuthors first last = Throw TypeError
  ∧ Util.packageAuthors JNull last = Throw TypeError
  ∧ Util.packageAuthors JUndefined last = Throw TypeError
  ∧ Esovdb.row E r = Throw TypeError
  ∧ (∀ records, r ∈ records → mapM (Esovdb.row E) records = Throw TypeError)
  ∧ formatItems E S fuel (JObj v) template w = (Throw TypeError, w).
Proof.
  intros Hfirst Hr Hv.
  assert (Hrow : Esovdb.row E r = Throw TypeError).
  { unfold Esovdb.row. rewrite Hr. by rewrite packageAuthors_not_array. }
  split_and!; try done.
  - by apply packageAuthors_not_array.
  - intros records Hin.
    eapply mapM_outcome_throw; [done..|]. intros; apply row_outcome.
  - apply formatItems_not_array. by rewrite Hv.
Qed.

Lemma packageAuthors_partial_witness :
  Util.packageAuthors JUndefined (JArr [JStr "Doe"]) = Throw TypeError
  ∧ Esovdb.row sample_env [("Title", JStr "Video 1")] = Throw TypeError
  ∧ formatItems sample_env (sample_services [] None) 1
      (JObj [("title", JStr "Plate Tectonics")]) sample_template empty_world
    = (Throw TypeError, empty_world).
Proof.
  destruct (packageAuthors_partial sample_env (sample_services [] None) 1
              JUndefined (JArr [JStr "Doe"]) [("Title", JStr "Video 1")]
              [("title", JStr "Plate Tectonics")] sample_template empty_world)
    as (H1 & _ & _ & H2 & _ & H3); [by intros fs|reflexivity|reflexivity|].
  exact (conj H1 (conj H2 H3)).
Defined.

(** ** createCollection *)

Lemma Map_get_collections parent :
  Map_get collections parent
  = match parent with
    | JStr k => if decide (k = "series") then JStr "HYQEFRGR"
                else if decide (k = "topics") then JStr "EGB8TQZ8"
                else JUndefined
    | _ => JUndefined
    end.
Proof.
  destruct parent as [| | | |k| |]; try done.
  unfold Map_get, collections. simpl.
  repeat (case_decide; simplify_eq/=; try done).
Qed.

Lemma posts_app t1 t2 : posts (t1 ++ t2) = posts t1 ++ posts t2.
Proof. apply omap_app. Qed.

(** C8: [createCollection] with a parent other than ['series'] and
    ['topics'] fails (the error is logged, the result is [undefined])
    without any request to Zotero; with one of the two it posts exactly
    one collection, under the fixed identifier of that parent. *)
Theorem createCollection_parent (S : Services) (name parent : jsval) (w : world) :
  (parent ≠ JStr "series" → parent ≠ JStr "topics" →
   ∃ w', createCollection S name parent w = (Ok JUndefined, w')
         ∧ trace w' = trace w
                      ++ [ConsoleError (Error "[ERROR] Unrecognized parent collection.")]
         ∧ posts (trace w') = posts (trace w))
  ∧ (∀ id, (parent = JStr "series" ∧ id = "HYQEFRGR")
           ∨ (parent = JStr "topics" ∧ id = "EGB8TQZ8") →
     ∃ r w', createCollection S name parent w = (r, w')
             ∧ posts (trace w')
               = posts (trace w)
                 ++ [("collections",
                      JArr [JObj [ ("name", name);
                                   ("parentCollection", JStr id) ]])]).
Proof.
  split.
  - intros Hs Ht. unfold createCollection, try_catch.
    rewrite Map_get_collections.
    assert (Hun : truthy match parent with
                         | JStr k => if decide (k = "series") then JStr "HYQEFRGR"
                                     else if decide (k = "topics") then JStr "EGB8TQZ8"
                                     else JUndefined
                         | _ => JUndefined
                         end = false).
    { destruct parent as [| | | |k| |]; try done.
      repeat case_decide; simplify_eq/=; done. }
    rewrite Hun. simpl. eexists. split_and!; [done..|].
    simpl. by rewrite posts_app, app_nil_r.
  - intros id Hid. unfold createCollection, try_catch.
    rewrite Map_get_collections.
    assert (Hrec : match parent with
                   | JStr k => if decide (k = "series") then JStr "HYQEFRGR"
                               else if decide (k = "topics") then JStr "EGB8TQZ8"
                               else JUndefined
                   | _ => JUndefined
                   end = JStr id).
    { by destruct Hid as [[-> ->]|[-> ->]]. }
    rewrite Hrec.
    assert (Htr : truthy (JStr id) = true) by (by destruct Hid as [[_ ->]|[_ ->]]).
    rewrite Htr. unfold zoteroLibrary_post.
    destruct (target_post S (trace w) "collections" _) as [e|resp] eqn:Hpost; simpl.
    + eexists _, _. split; [done|]. simpl.
      by rewrite !posts_app, app_nil_r.
    + eexists _, _. split; [done|]. simpl. by rewrite posts_app.
Qed.

Lemma createCollection_parent_witness :
  (∃ w', createCollection (sample_services [] None) (JStr "Deep Time") (JStr "playlists")
           empty_world = (Ok JUndefined, w')
         ∧ trace w' = [ConsoleError (Error "[ERROR] Unrecognized parent collection.")]
         ∧ posts (trace w') = [])
  ∧ (∃ r w', createCollection (sample_services [] None) (JStr "Deep Time") (JStr "series")
               empty_world = (r, w')
             ∧ posts (trace w')
               = [("collections",
                   JArr [JObj [ ("name", JStr "Deep Time");
                                ("parentCollection", JStr "HYQEFRGR") ]])]).
Proof.
  split.
  - apply (createCollection_parent (sample_services [] None) (JStr "Deep Time")
             (JStr "playlists") empty_world); discriminate.
  - apply (createCollection_parent (sample_services [] None) (JStr "Deep Time")
             (JStr "series") empty_world). left. split; reflexivity.
Defined.

(** ** listVideos: the page walk *)

Lemma selects_app t1 t2 : selects (t1 ++ t2) = selects t1 ++ selects t2.
Proof. apply omap_app. Qed.

Lemma sends_app t1 t2 : sends (t1 ++ t2) = sends t1 ++ sends t2.
Proof. apply omap_app. Qed.

Lemma after_date_positive E q t :
  positive_date E q t → after_date E q = Ok (Some t).
Proof.
  intros (Hq & s & Hs & Ht & Hpos). unfold after_date.
  rewrite Hq, Hs, Ht. simpl.
  by destruct (Z.ltb_spec 0 t); [|lia].
Qed.

(** What the walk does to the world: it only sends responses and, when
    it completes, writes the cache entry of the request. *)
Lemma eachPage_effects E cachePath req_pg ps err pg data w r w' :
  eachPage E cachePath req_pg ps err pg data w = (r, w') →
  arrays w' = arrays w
  ∧ ∃ sent, trace w' = trace w ++ sent
            ∧ Forall (fun e => ∃ s b, e = HttpSend s b) sent.
Proof.
  revert pg data w. induction ps as [|records ps IH]; intros pg data w; simpl.
  - destruct err as [e|]; simpl; intros [= <- <-]; simpl.
    + split; [done|]. eexists; split; [done|]. repeat constructor. by eexists _, _.
    + split; [done|]. eexists; split; [done|]. repeat constructor. by eexists _, _.
  - destruct (negb (num_truthy req_pg) || bool_decide (Some pg = req_pg)).
    + unfold mbind at 1, M_bind at 1. unfold lift at 1.
      destruct (mapM (row E) records) as [rows|e|]; [|intros [= <- <-]..].
      * destruct (bool_decide (Some pg = req_pg)).
        -- unfold mbind, M_bind. simpl. intros H.
           apply IH in H as (Ha & sent & Ht & Hs). simpl in *.
           split; [done|]. exists (HttpSend 200 (JArr (data ++ rows)) :: sent).
           rewrite Ht, <- app_assoc. split; [done|].
           constructor; [by eexists _, _|done].
        -- unfold mbind, M_bind. simpl. apply IH.
      * split; [done|]. exists []. by rewrite app_nil_r.
      * split; [done|]. exists []. by rewrite app_nil_r.
    + apply IH.
Qed.

Lemma selects_of_sends t :
  Forall (fun e => ∃ s b, e = HttpSend s b) t → selects t = [].
Proof. induction 1 as [|e t (s & b & ->) _ IH]; [done|]. apply IH. Qed.

(** On a cache miss the handler sends one [select] and walks its pages. *)
Lemma listVideos_miss E S req w ma ca :
  after_date E (query_modifiedAfter req) = Ok ma →
  after_date E (query_createdAfter req) = Ok ca →
  cache_miss req w →
  listVideos E S req w
  = eachPage E (".cache" +:+ url req +:+ ".json") (page_index E (params_pg req))
      (pages (source_select S (request_options E req ma ca)))
      (failure (source_select S (request_options E req ma ca)))
      0 [] (after (SourceSelect (request_options E req ma ca)) w).
Proof.
  intros Hm Hc Hmiss. unfold listVideos. rewrite Hm, Hc, !bind_lift_ok.
  unfold mbind at 1, M_bind at 1, readCacheWithPath at 1.
  unfold cache_miss in Hmiss. rewrite Hmiss. done.
Qed.

(** C1, as amended: when both [modifiedAfter] and [createdAfter] parse
    to positive dates, the one [select] sent to Airtable on a cache miss
    carries the creation filter: line 151 overwrites the
    [filterByFormula] set by line 150. *)
Theorem listVideos_both_filters (E : Env) (S : Services) (req : request)
    (w : world) (m c : Z) :
  positive_date E (query_modifiedAfter req) m →
  positive_date E (query_createdAfter req) c →
  cache_miss req w →
  filterByFormula <$> selects (trace (listVideos E S req w).2)
  = (filterByFormula <$> selects (trace w)) ++ [Some (created_filter c)].
Proof.
  intros Hm Hc Hmiss.
  pose proof Hc as (_ & _ & _ & _ & Hpos).
  rewrite (listVideos_miss E S req w (Some m) (Some c))
    by auto using after_date_positive.
  match goal with
  | |- context [eachPage ?E ?p ?rp ?ps ?err ?pg ?d ?w0] =>
      destruct (eachPage E p rp ps err pg d w0) as [r w'] eqn:Hwalk
  end.
  apply eachPage_effects in Hwalk as (_ & sent & Ht & Hs). simpl in *.
  rewrite Ht, !selects_app, (selects_of_sends _ Hs), app_nil_r, fmap_app.
  f_equal. simpl. f_equal.
  unfold request_options, select_options. simpl.
  destruct (Z.eqb_spec c 0); [lia|]. simpl. by repeat case_match.
Qed.

Lemma listVideos_both_filters_witness :
  filterByFormula
    <$> selects (trace (listVideos sample_env (sample_services five_records None)
                          both_filters_request empty_world).2)
  = [Some (created_filter 1609459200000)].
Proof.
  apply (listVideos_both_filters sample_env (sample_services five_records None)
           both_filters_request empty_world 1577836800000 1609459200000).
  - split; [reflexivity|]. exists "2020-01-01". split_and!; [reflexivity..|lia].
  - split; [reflexivity|]. exists "2021-01-01". split_and!; [reflexivity..|lia].
  - reflexivity.
Defined.

(** C1, as stated, fails: the request
    [/videos/list?createdAfter=2021-01-01&modifiedAfter=2020-01-01] sends
    the creation filter, not the modification filter. *)
Lemma listVideos_both_filters_counterexample :
  ¬ (∀ (E : Env) (S : Services) (req : request) (w : world) (m c : Z),
       positive_date E (query_modifiedAfter req) m →
       positive_date E (query_createdAfter req) c →
       cache_miss req w →
       filterByFormula <$> selects (trace (listVideos E S req w).2)
       = (filterByFormula <$> selects (trace w)) ++ [Some (modified_filter m)]).
Proof.
  intros H.
  specialize (H sample_env (sample_services five_records None)
                both_filters_request empty_world 1577836800000%Z 1609459200000%Z).
  assert (Hm : positive_date sample_env (query_modifiedAfter both_filters_request)
                 1577836800000).
  { split; [reflexivity|]. exists "2020-01-01". split_and!; [reflexivity..|lia]. }
  assert (Hc : positive_date sample_env (query_createdAfter both_filters_request)
                 1609459200000).
  { split; [reflexivity|]. exists "2021-01-01". split_and!; [reflexivity..|lia]. }
  specialize (H Hm Hc eq_refl).
  vm_compute in H. discriminate H.
Qed.

(** Past the requested page, every page is skipped. *)
Lemma eachPage_past E cachePath k ps err pg data w :
  (1 ≤ k)%Z → (k < pg)%Z →
  eachPage E cachePath (Some k) ps err pg data w = done cachePath err data w.
Proof.
  intros Hk. revert pg. induction ps as [|records ps IH]; intros pg Hpg; simpl.
  - done.
  - destruct (Z.eqb_spec k 0); [lia|]. simpl.
    rewrite bool_decide_eq_false_2 by (intros [= ->]; lia).
    apply IH. lia.
Qed.

(** Up to the requested page, pages are skipped; that page is projected
    and sent. *)
Lemma eachPage_seek E cachePath k ps err pg data w records rows :
  (1 ≤ k)%Z → (pg ≤ k)%Z →
  ps !! Z.to_nat (k - pg) = Some records →
  mapM (row E) records = Ok rows →
  eachPage E cachePath (Some k) ps err pg data w
  = done cachePath err (data ++ rows)
      (after (HttpSend 200 (JArr (data ++ rows))) w).
Proof.
  intros Hk. revert pg.
  induction ps as [|page ps IH]; intros pg Hpg Hlook Hrows; [done|].
  simpl. destruct (Z.eqb_spec k 0); [lia|]. simpl.
  destruct (decide (pg = k)) as [->|Hne].
  - rewrite bool_decide_eq_true_2 by done.
    replace (Z.to_nat (k - k)) with 0%nat in Hlook by lia.
    simpl in Hlook. injection Hlook as ->.
    rewrite Hrows, bind_lift_ok.
    unfold mbind, M_bind, emit. simpl.
    apply eachPage_past; lia.
  - rewrite bool_decide_eq_false_2 by (intros [= ->]; done).
    apply IH; [lia| |done].
    replace (Z.to_nat (k - pg)) with (Datatypes.S (Z.to_nat (k - (pg + 1)))) in Hlook by lia.
    done.
Qed.

(** C2, as amended: for a page number of 2 or more, on a cache miss and
    a walk that completes, the response carries exactly the rows of that
    page, and the cache entry written at the end of the walk holds those
    same rows: the pages before and after it are skipped, not
    accumulated. *)
Theorem listVideos_page (E : Env) (S : Services) (req : request) (w : world)
    (ma ca : option Z) (k : Z) (records : list record) (rows : list jsval) :
  after_date E (query_modifiedAfter req) = Ok ma →
  after_date E (query_createdAfter req) = Ok ca →
  cache_miss req w →
  page_index E (params_pg req) = Some k →
  (1 ≤ k)%Z →
  failure (source_select S (request_options E req ma ca)) = None →
  pages (source_select S (request_options E req ma ca)) !! Z.to_nat k = Some records →
  mapM (row E) records = Ok rows →
  ∃ w', listVideos E S req w = (Ok (), w')
        ∧ trace w' = trace w ++ [ SourceSelect (request_options E req ma ca);
                                  HttpSend 200 (JArr rows);
                                  HttpSend 200 (JArr rows) ]
        ∧ http_response (drop (length (trace w)) (trace w'))
          = Some (HttpSend 200 (JArr rows))
        ∧ cache w' = <[".cache" +:+ url req +:+ ".json" := JArr rows]> (cache w).
Proof.
  intros Hm Hc Hmiss Hpg Hk Hfail Hpage Hrows.
  rewrite (listVideos_miss E S req w ma ca) by done.
  rewrite Hpg, Hfail.
  rewrite (eachPage_seek E _ k _ None 0 [] _ records rows);
    [|lia..|by rewrite Z.sub_0_r|done].
  simpl. eexists. split; [done|]. simpl.
  rewrite <- !app_assoc. simpl. split_and!; [done| |done].
  by rewrite drop_app_length.
Qed.

Lemma listVideos_page_witness :
  ∃ w',
    listVideos sample_env (sample_services five_records None) (list_request "2")
      empty_world = (Ok (), w')
    ∧ http_response (trace w')
      = Some (HttpSend 200 (JArr (rows_of sample_env (take 2 (drop 2 five_records)))))
    ∧ cache w' = {[ ".cache/videos/list/2?pageSize=2.json"
                    := JArr (rows_of sample_env (take 2 (drop 2 five_records))) ]}.
Proof.
  destruct (listVideos_page sample_env (sample_services five_records None)
              (list_request "2") empty_world None None 1
              (take 2 (drop 2 five_records))
              (rows_of sample_env (take 2 (drop 2 five_records))))
    as (w' & Hrun & _ & Hresp & Hcache);
    [reflexivity|reflexivity|reflexivity|reflexivity|lia
    |reflexivity|reflexivity|reflexivity|].
  exists w'. split; [exact Hrun|]. split; [exact Hresp|exact Hcache].
Defined.

(** C2, as stated, fails: with five rows, [pageSize=2] and [page=2] the
    response is rows 3-4 and the cache entry holds rows 3-4 too, not the
    five rows. *)
Lemma listVideos_page_counterexample :
  let w' := (listVideos sample_env (sample_services five_records None)
               (list_request "2") empty_world).2 in
  length (rows_of sample_env five_records) = 5%nat
  ∧ http_response (trace w')
    = Some (HttpSend 200 (JArr (rows_of sample_env (take 2 (drop 2 five_records)))))
  ∧ cache w' !! ".cache/videos/list/2?pageSize=2.json"
    = Some (JArr (rows_of sample_env (take 2 (drop 2 five_records))))
  ∧ cache w' !! ".cache/videos/list/2?pageSize=2.json"
    ≠ Some (JArr (rows_of sample_env five_records)).
Proof.
  split; [reflexivity|]. split; [reflexivity|]. split; [reflexivity|].
  vm_compute. discriminate.
Qed.

(** ** listVideos: a walk that fails *)

(** A walk that ends in an error writes nothing to the cache; when the
    handler returns, its last response is the 400, preceded by at most
    the requested page. *)
Lemma eachPage_failure E cachePath req_pg ps e pg data w r w' :
  eachPage E cachePath req_pg ps (Some e) pg data w = (r, w') →
  cache w' = cache w
  ∧ (r = Ok () →
     ∃ sent, trace w' = trace w ++ sent ++ [HttpSend 400 (JObj e)]
             ∧ (sent = []
                ∨ ∃ d k, sent = [HttpSend 200 d] ∧ req_pg = Some k
                         ∧ (pg ≤ k < pg + Z.of_nat (length ps))%Z)).
Proof.
  revert pg data w. induction ps as [|records ps IH]; intros pg data w; simpl.
  - intros [= <- <-]. split; [done|]. intros _. exists []. split; [done|]. by left.
  - destruct (negb (num_truthy req_pg) || bool_decide (Some pg = req_pg)).
    + unfold mbind at 1, M_bind at 1. unfold lift at 1.
      destruct (mapM (row E) records) as [rows|e'|]; [|by intros [= <- <-]..].
      case_bool_decide as Hpg.
      * unfold mbind, M_bind, emit. intros H.
        apply IH in H as (Hcache & Htrace). split; [done|].
        intros Hr. destruct (Htrace Hr) as (sent & Ht & Hsent). simpl in Ht.
        exists (HttpSend 200 (JArr (data ++ rows)) :: sent).
        rewrite Ht, <- !app_assoc. split; [done|].
        destruct Hsent as [->|(d & k & _ & Hk & Hrange)].
        -- right. exists (JArr (data ++ rows)), pg. split_and!; [done|done|lia..].
        -- rewrite <- Hpg in Hk. injection Hk as <-. lia.
      * unfold mbind, M_bind. simpl. intros H.
        apply IH in H as (Hcache & Htrace). split; [done|].
        intros Hr. destruct (Htrace Hr) as (sent & Ht & Hsent).
        exists sent. split; [done|].
        destruct Hsent as [->|(d & k & -> & Hk & Hrange)]; [by left|].
        right. exists d, k. split_and!; [done|done|lia..].
    + intros H. apply IH in H as (Hcache & Htrace). split; [done|].
      intros Hr. destruct (Htrace Hr) as (sent & Ht & Hsent).
      exists sent. split; [done|].
      destruct Hsent as [->|(d & k & -> & Hk & Hrange)]; [by left|].
      right. exists d, k. split_and!; [done|done|lia..].
Qed.

(** The walk returns when every page that arrives can be projected. *)
Lemma eachPage_returns E cachePath req_pg ps err pg data w :
  Forall (fun records => ∃ rows, mapM (row E) records = Ok rows) ps →
  ∃ w', eachPage E cachePath req_pg ps err pg data w = (Ok (), w').
Proof.
  intros Hps. revert pg data w.
  induction Hps as [|records ps [rows Hrows] _ IH]; intros pg data w; simpl.
  - destruct err; by eexists.
  - destruct (negb (num_truthy req_pg) || bool_decide (Some pg = req_pg)); [|apply IH].
    rewrite Hrows, bind_lift_ok.
    case_bool_decide; unfold mbind, M_bind; simpl; apply IH.
Qed.

(** C3, as amended: on a cache miss, when the page walk fails the cache
    is left as it was, and the handler answers 400 with the error
    serialized as JSON; that answer is the first one on the connection
    unless the requested page had already arrived and been sent with
    status 200 (which cannot happen when no page index is supplied). *)
Theorem listVideos_failure (E : Env) (S : Services) (req : request) (w : world)
    (ma ca : option Z) (err : list (string * jsval)) :
  after_date E (query_modifiedAfter req) = Ok ma →
  after_date E (query_createdAfter req) = Ok ca →
  cache_miss req w →
  failure (source_select S (request_options E req ma ca)) = Some err →
  let opts := request_options E req ma ca in
  let r := (listVideos E S req w).1 in
  let w' := (listVideos E S req w).2 in
  cache w' = cache w
  ∧ (Forall (fun records => ∃ rows, mapM (row E) records = Ok rows)
       (pages (source_select S opts)) → r = Ok ())
  ∧ (r = Ok () →
     ∃ sent, trace w' = trace w ++ SourceSelect opts :: sent ++ [HttpSend 400 (JObj err)]
             ∧ (sent = []
                ∨ ∃ d k, sent = [HttpSend 200 d]
                         ∧ page_index E (params_pg req) = Some k
                         ∧ (0 ≤ k < Z.of_nat (length (pages (source_select S opts))))%Z))
  ∧ (r = Ok () → page_index E (params_pg req) = None →
     http_response (drop (length (trace w)) (trace w')) = Some (HttpSend 400 (JObj err))).
Proof.
  intros Hm Hc Hmiss Hfail opts r w'. subst r w'.
  rewrite (listVideos_miss E S req w ma ca) by done.
  rewrite Hfail. fold opts.
  destruct (eachPage E _ _ _ _ _ _ _) as [r w'] eqn:Hwalk. simpl.
  pose proof (eachPage_failure _ _ _ _ _ _ _ _ _ _ Hwalk) as (Hcache & Htrace).
  split; [done|]. split; [|split].
  - intros Hps.
    destruct (eachPage_returns E (".cache" +:+ url req +:+ ".json")
                (page_index E (params_pg req)) _ (Some err) 0 []
                (after (SourceSelect opts) w) Hps) as [w'' Hw''].
    congruence.
  - intros Hr. destruct (Htrace Hr) as (sent & Ht & Hsent). simpl in Ht.
    exists sent. rewrite Ht, <- app_assoc. split; [done|].
    destruct Hsent as [->|(d & k & -> & Hk & Hrange)]; [by left|].
    right. exists d, k. split_and!; [done|done|lia..].
  - intros Hr Hnone. destruct (Htrace Hr) as (sent & Ht & Hsent). simpl in Ht.
    destruct Hsent as [->|(d & k & -> & Hk & Hrange)]; [|congruence].
    rewrite Ht, <- app_assoc, drop_app_length. done.
Qed.

Lemma listVideos_failure_witness :
  let S := sample_services five_records (Some 1%nat) in
  let w' := (listVideos sample_env S (list_request "") empty_world).2 in
  cache w' = ∅
  ∧ http_response (trace w')
    = Some (HttpSend 400 (JObj [ ("error", JStr "SERVER_ERROR");
                                 ("statusCode", JNum 500) ])).
Proof.
  intros S w'.
  destruct (listVideos_failure sample_env S (list_request "") empty_world None None
              [ ("error", JStr "SERVER_ERROR"); ("statusCode", JNum 500) ])
    as (Hcache & Hret & _ & Hresp);
    [reflexivity|reflexivity|reflexivity|reflexivity|].
  split; [exact Hcache|].
  apply Hresp; [|reflexivity].
  apply Hret. repeat constructor. eexists. reflexivity.
Defined.

(** C3, as stated, fails: for [/videos/list/1?pageSize=2], when the
    first page arrives and the request for the second fails, the caller
    has already been sent page 1 with status 200. *)
Lemma listVideos_failure_counterexample :
  let S := sample_services five_records (Some 1%nat) in
  let w' := (listVideos sample_env S (list_request "1") empty_world).2 in
  cache_miss (list_request "1") empty_world
  ∧ failure (source_select S (request_options sample_env (list_request "1") None None))
    = Some [ ("error", JStr "SERVER_ERROR"); ("statusCode", JNum 500) ]
  ∧ http_response (trace w')
    = Some (HttpSend 200 (JArr (rows_of sample_env (take 2 five_records))))
  ∧ http_response (trace w')
    ≠ Some (HttpSend 400 (JObj [ ("error", JStr "SERVER_ERROR");
                                 ("statusCode", JNum 500) ])).
Proof.
  split; [reflexivity|]. split; [reflexivity|]. split; [reflexivity|].
  vm_compute. discriminate.
Qed.

(** ** Chunks *)

Section Chunks.
Context {A : Type}.
Implicit Types (l : list A) (n fuel : nat).

Lemma chunks_fuel_enough n fuel1 fuel2 l :
  (0 < n)%nat → (length l ≤ fuel1)%nat → (length l ≤ fuel2)%nat →
  chunks_fuel fuel1 n l = chunks_fuel fuel2 n l.
Proof.
  intros Hn. revert fuel2 l.
  induction fuel1 as [|fuel1 IH]; intros fuel2 l H1 H2.
  - destruct l; [|simpl in *; lia]. by destruct fuel2.
  - destruct l as [|x l]; [by destruct fuel2|].
    destruct fuel2 as [|fuel2]; [simpl in *; lia|].
    simpl. f_equal.
    apply IH; rewrite length_drop; simpl in *; lia.
Qed.

Lemma chunks_cons n l :
  (0 < n)%nat → l ≠ [] → chunks n l = take n l :: chunks n (drop n l).
Proof.
  intros Hn Hl. destruct l as [|x l]; [done|].
  unfold chunks at 1. simpl. f_equal.
  apply chunks_fuel_enough; [done|rewrite length_drop; simpl; lia..].
Qed.

(** Induction along the chunks of a list. *)
Lemma chunks_ind n (P : list A → Prop) :
  (0 < n)%nat →
  P [] →
  (∀ l, l ≠ [] → P (drop n l) → P l) →
  ∀ l, P l.
Proof.
  intros Hn Hnil Hcons l.
  remember (length l) as k eqn:Hk. revert l Hk.
  induction k as [k IH] using lt_wf_ind. intros l ->.
  destruct l as [|x l]; [done|].
  apply Hcons; [done|]. eapply IH; [|done]. rewrite length_drop. simpl. lia.
Qed.

Lemma concat_chunks n l : (0 < n)%nat → concat (chunks n l) = l.
Proof.
  intros Hn. pattern l. apply (chunks_ind n); [done..|]. clear l.
  intros l Hl IH.
  rewrite chunks_cons by done. simpl. by rewrite IH, take_drop.
Qed.

Lemma Forall_chunks n l :
  (0 < n)%nat → Forall (fun c => (1 ≤ length c ≤ n)%nat) (chunks n l).
Proof.
  intros Hn. pattern l. apply (chunks_ind n); [done|by constructor|]. clear l.
  intros l Hl IH.
  rewrite chunks_cons by done. constructor; [|done].
  rewrite length_take. destruct l; [done|]. simpl. lia.
Qed.

Lemma length_chunks n l :
  (0 < n)%nat → length (chunks n l) = ((length l + (n - 1)) `div` n)%nat.
Proof.
  intros Hn. pattern l. apply (chunks_ind n); [done| |]; clear l.
  - simpl. symmetry. apply Nat.div_small. lia.
  - intros l Hl IH. rewrite chunks_cons by done. simpl. rewrite IH, length_drop.
    destruct (decide (length l ≤ n)%nat) as [Hle|Hgt].
    + replace (length l - n)%nat with 0%nat by lia.
      rewrite (Nat.div_small (0 + (n - 1))) by lia.
      assert (0 < length l)%nat by (destruct l; [done|simpl; lia]).
      replace (length l + (n - 1))%nat with ((length l - 1) + 1 * n)%nat by lia.
      rewrite Nat.div_add by lia. rewrite Nat.div_small by lia. done.
    + replace (length l + (n - 1))%nat with ((length l - n + (n - 1)) + 1 * n)%nat by lia.
      rewrite Nat.div_add by lia. lia.
Qed.
End Chunks.

(** ** processUpdates *)

Lemma updates_app t1 t2 : updates (t1 ++ t2) = updates t1 ++ updates t2.
Proof. apply omap_app. Qed.

Lemma updates_SourceUpdate cs : updates (SourceUpdate <$> cs) = cs.
Proof.
  induction cs as [|c cs IH]; [done|].
  change (c :: updates (SourceUpdate <$> cs) = c :: cs). by rewrite IH.
Qed.

(** The loop of [processUpdates] sends the chunks of [updates] in order
    and leaves that array empty. *)
Lemma update_loop fuel (u : loc) us w :
  arrays w !! u = Some us →
  (length (chunks 50 us) ≤ fuel)%nat →
  while fuel
    (us ← read u; mret (negb (bool_decide (length us = 0%nat))))
    (chunk ← splice0 u 50; emit (SourceUpdate chunk)) w
  = (Ok (), {| trace := trace w ++ (SourceUpdate <$> chunks 50 us);
               cache := cache w;
               arrays := <[u:=[]]> (arrays w) |}).
Proof.
  revert us w. induction fuel as [|fuel IH]; intros us w Hu Hfuel.
  - destruct us as [|x us]; [|rewrite chunks_cons in Hfuel by (done || lia); simpl in *; lia].
    simpl. unfold mbind, M_bind, read. rewrite Hu. simpl.
    rewrite app_nil_r, insert_id by done. by destruct w.
  - destruct us as [|x us].
    + simpl. unfold mbind, M_bind, read. rewrite Hu. simpl.
      rewrite app_nil_r, insert_id by done. by destruct w.
    + rewrite chunks_cons in * by (done || lia).
      simpl while. unfold mbind at 1, M_bind at 1. unfold mbind at 1, M_bind at 1.
      unfold read at 1. rewrite Hu. simpl.
      unfold mbind at 1, M_bind at 1. unfold mbind at 1, M_bind at 1.
      unfold splice0 at 1. rewrite Hu. simpl.
      erewrite IH; [|simpl; apply lookup_insert_eq|simpl in *; lia].
      simpl. rewrite insert_insert_eq, <- app_assoc. done.
Qed.

Lemma processUpdates_spec fuel (videos : loc) vs w :
  arrays w !! videos = Some vs →
  (length (chunks 50 vs) ≤ fuel)%nat →
  processUpdates fuel videos w
  = (Ok videos, {| trace := trace w ++ (SourceUpdate <$> chunks 50 vs);
                   cache := cache w;
                   arrays := <[fresh (dom (arrays w)):=[]]> (arrays w) |}).
Proof.
  intros Hv Hfuel. unfold processUpdates.
  unfold mbind at 1, M_bind at 1, read at 1. rewrite Hv.
  unfold mbind at 1, M_bind at 1, alloc at 1. simpl.
  unfold mbind at 1, M_bind at 1.
  erewrite update_loop; [|simpl; apply lookup_insert_eq|done].
  simpl. by rewrite insert_insert_eq.
Qed.

(** The copy is a new array: the array passed in keeps its elements. *)
Lemma lookup_insert_fresh (m : gmap loc (list jsval)) (a : loc) l x :
  m !! a = Some l → <[fresh (dom m):=x]> m !! a = Some l.
Proof.
  intros Ha. rewrite lookup_insert_ne; [done|].
  intros Heq. apply (is_fresh (dom m)). rewrite Heq.
  apply elem_of_dom. by eexists.
Qed.

(** C7: for a non-empty array body, [updateVideos] answers 200 with
    exactly that array: [processUpdates] sends the chunks of a copy,
    leaves the array it was given as it was, and returns it. *)
Theorem updateVideos_returns_input (fuel : nat) (body : loc) (vs : list jsval)
    (w : world) :
  arrays w !! body = Some vs →
  vs ≠ [] →
  (length (chunks 50 vs) ≤ fuel)%nat →
  ∃ w1 w2,
    processUpdates fuel body w = (Ok body, w1)
    ∧ arrays w1 !! body = Some vs
    ∧ concat (updates (drop (length (trace w)) (trace w1))) = vs
    ∧ updateVideos fuel body w = (Ok (), w2)
    ∧ trace w2 = trace w1 ++ [HttpSend 200 (JArr vs)]
    ∧ sends (drop (length (trace w)) (trace w2)) = [HttpSend 200 (JArr vs)]
    ∧ arrays w2 !! body = Some vs.
Proof.
  intros Hbody Hne Hfuel.
  pose proof (processUpdates_spec fuel body vs w Hbody Hfuel) as Hproc.
  pose proof (lookup_insert_fresh (arrays w) body vs [] Hbody) as Hkeep.
  eexists _, _. split; [exact Hproc|]. cbn [arrays trace cache].
  split; [exact Hkeep|].
  split.
  { rewrite drop_app_length, updates_SourceUpdate. apply concat_chunks. lia. }
  unfold updateVideos.
  unfold mbind at 1, M_bind at 1, read at 1. rewrite Hbody.
  rewrite bool_decide_eq_true_2 by (destruct vs; [done|simpl; lia]).
  unfold mbind at 1, M_bind at 1. rewrite Hproc.
  unfold mbind at 1, M_bind at 1, read at 1. cbn [arrays trace cache].
  rewrite Hkeep. unfold emit. cbn [arrays trace cache].
  split; [done|]. cbn [arrays trace cache]. split; [done|]. split; [|exact Hkeep].
  rewrite <- app_assoc, drop_app_length, sends_app.
  assert (Hs : ∀ cs, sends (SourceUpdate <$> cs) = []).
  { clear. induction cs as [|c cs IH]; [done|]. exact IH. }
  by rewrite Hs.
Qed.

Lemma updateVideos_returns_input_witness :
  let body := JNum <$> [1; 2; 3]%Z in
  let w := {| trace := []; cache := ∅; arrays := {[ 0%nat := body ]} |} in
  ∃ w1 w2,
    processUpdates 1 0%nat w = (Ok 0%nat, w1)
    ∧ arrays w1 !! 0%nat = Some body
    ∧ updateVideos 1 0%nat w = (Ok (), w2)
    ∧ sends (trace w2) = [HttpSend 200 (JArr body)].
Proof.
  intros body w.
  destruct (updateVideos_returns_input 1 0%nat body w)
    as (w1 & w2 & H1 & H2 & _ & H3 & _ & H4 & _);
    [reflexivity|discriminate|vm_compute; lia|].
  exists w1, w2. split; [exact H1|]. split; [exact H2|]. split; [exact H3|exact H4].
Defined.

(** ** The write loop of syncItems *)

Lemma postItems_answered S (c : list jsval) w :
  (∀ t c, ∃ response,
      target_post S t "items" (JArr c) = inr response ∧ readable_answer response) →
  ∃ r w', postItems S c w = (Ok (Some r), w')
          ∧ posts (trace w') = posts (trace w) ++ [("items", JArr c)].
Proof.
  intros Hans.
  destruct (Hans (trace w) c)
    as (response & Hpost & data & s & u & f & Hdata & Hs & Hu & Hf).
  unfold postItems, try_catch.
  unfold mbind at 1, M_bind at 1, zoteroLibrary_post at 1. rewrite Hpost.
  cbv beta iota. unfold awaited.
  rewrite Hdata, (bind_lift_ok data), Hs, (bind_lift_ok s), Hu, (bind_lift_ok u),
    Hf, (bind_lift_ok f).
  case_bool_decide.
  - destruct (get_prop data "failed") as [failedItems| |] eqn:Hfailed; [|done..].
    unfold mbind, M_bind, emit, lift. simpl. eexists _, _. split; [done|]. simpl.
    by rewrite !posts_app, app_nil_r.
  - unfold mbind, M_bind. simpl. eexists _, _. split; [done|]. simpl.
    by rewrite !posts_app.
Qed.

Lemma postLoop_chunks S fuel (items posted : list jsval) totals w :
  (∀ t c, ∃ response,
      target_post S t "items" (JArr c) = inr response ∧ readable_answer response) →
  (length (chunks 50 items) ≤ fuel)%nat →
  ∃ r w', postLoop S fuel items posted totals w = (Ok r, w')
          ∧ posts (trace w')
            = posts (trace w) ++ ((fun c => ("items", JArr c)) <$> chunks 50 items).
Proof.
  intros Hans. revert items posted totals w.
  induction fuel as [|fuel IH]; intros items posted totals w Hfuel.
  - destruct items as [|x items];
      [|rewrite chunks_cons in Hfuel by (done || lia); simpl in *; lia].
    eexists _, _. split; [done|]. by rewrite app_nil_r.
  - destruct items as [|x items].
    { eexists _, _. split; [done|]. by rewrite app_nil_r. }
    rewrite chunks_cons in * by (done || lia).
    remember (x :: items) as l eqn:Hl.
    assert (Hlen : bool_decide (length l = 0%nat) = false).
    { subst l. by apply bool_decide_eq_false_2. }
    simpl postLoop. rewrite Hlen.
    destruct (postItems_answered S (take 50 l) w Hans) as (r & w1 & Hp & Hposts).
    unfold mbind at 1, M_bind at 1. rewrite Hp.
    set (posted' := if bool_decide (0 < length (successful r))%nat
                    then posted ++ successful r else posted).
    set (totals' := ((totals.1.1 + length (successful r))%nat,
                     (totals.1.2 + length (unchanged r))%nat,
                     (totals.2 + length (failed r))%nat)).
    destruct (bool_decide (50 < length (drop 50 l))%nat).
    + unfold mbind at 1, M_bind at 1, emit at 1.
      destruct (IH (drop 50 l) posted' totals' (after (Sleep zoteroRateLimit) w1))
        as (r' & w' & Hloop & Hposts'); [simpl in *; lia|].
      unfold after in Hloop. cbv beta iota. rewrite Hloop. eexists _, _. split; [done|].
      rewrite Hposts'. simpl. rewrite posts_app, Hposts. simpl.
      by rewrite app_nil_r, <- app_assoc.
    + unfold mbind at 1, M_bind at 1. simpl.
      destruct (IH (drop 50 l) posted' totals' w1)
        as (r' & w' & Hloop & Hposts'); [simpl in *; lia|].
      rewrite Hloop. eexists _, _. split; [done|].
      rewrite Hposts', Hposts. by rewrite <- app_assoc.
Qed.

(** Whatever Zotero answers, [postItems] posts its chunk once. *)
Lemma postItems_posts S (c : list jsval) w r w' :
  postItems S c w = (r, w') →
  posts (trace w') = posts (trace w) ++ [("items", JArr c)].
Proof.
  unfold postItems, try_catch.
  unfold mbind at 1, M_bind at 1, zoteroLibrary_post at 1.
  destruct (target_post S (trace w) "items" (JArr c)) as [e|response]; simpl awaited.
  { intros [= <- <-]. simpl. by rewrite !posts_app, app_nil_r. }
  cbv beta iota.
  destruct (get_prop response "data") as [data|e|];
    [rewrite (bind_lift_ok data)| |];
    [|intros [= <- <-]; simpl; by rewrite ?posts_app, ?app_nil_r..].
  destruct (get_prop data "successful" ≫= Object_values) as [s|e|];
    [rewrite (bind_lift_ok s)| |];
    [|intros [= <- <-]; simpl; by rewrite ?posts_app, ?app_nil_r..].
  destruct (get_prop data "unchanged" ≫= Object_values) as [u|e|];
    [rewrite (bind_lift_ok u)| |];
    [|intros [= <- <-]; simpl; by rewrite ?posts_app, ?app_nil_r..].
  destruct (get_prop data "failed" ≫= Object_values) as [f|e|];
    [rewrite (bind_lift_ok f)| |];
    [|intros [= <- <-]; simpl; by rewrite ?posts_app, ?app_nil_r..].
  destruct (bool_decide (0 < length f)%nat).
  - destruct (get_prop data "failed") as [failedItems|e|];
      unfold mbind, M_bind, emit, lift; simpl;
      intros [= <- <-]; simpl; by rewrite ?posts_app, ?app_nil_r.
  - unfold mbind, M_bind. simpl. intros [= <- <-]. simpl. by rewrite posts_app.
Qed.

(** Whatever Zotero answers, the chunks posted by the loop are the first
    chunks of the batch, in order. *)
Lemma postLoop_prefix S fuel (items posted : list jsval) totals w r w' :
  postLoop S fuel items posted totals w = (r, w') →
  ∃ n, posts (trace w')
       = posts (trace w) ++ ((fun c => ("items", JArr c)) <$> take n (chunks 50 items)).
Proof.
  revert items posted totals w.
  induction fuel as [|fuel IH]; intros items posted totals w.
  - destruct items as [|x items]; simpl; intros [= <- <-];
      exists 0%nat; by rewrite app_nil_r.
  - destruct items as [|x items].
    { simpl. intros [= <- <-]. exists 0%nat. by rewrite app_nil_r. }
    rewrite chunks_cons by (done || lia).
    remember (x :: items) as l eqn:Hl.
    assert (Hlen : bool_decide (length l = 0%nat) = false).
    { subst l. by apply bool_decide_eq_false_2. }
    simpl postLoop. rewrite Hlen.
    unfold mbind at 1, M_bind at 1.
    destruct (postItems S (take 50 l) w) as [[[resp|]|e|] w1] eqn:Hp;
      apply postItems_posts in Hp.
    + destruct (bool_decide (50 < length (drop 50 l))%nat).
      * unfold mbind at 1, M_bind at 1, emit at 1. cbv beta iota. intros Hloop.
        apply IH in Hloop as [n Hn]. exists (Datatypes.S n).
        rewrite Hn. simpl. rewrite posts_app, Hp. simpl.
        by rewrite app_nil_r, <- app_assoc.
      * unfold mbind at 1, M_bind at 1. simpl. intros Hloop.
        apply IH in Hloop as [n Hn]. exists (Datatypes.S n).
        rewrite Hn, Hp. by rewrite <- app_assoc.
    + intros [= <- <-]. by exists 1%nat.
    + intros [= <- <-]. by exists 1%nat.
    + intros [= <- <-]. by exists 1%nat.
Qed.

(** C4: a batch of [N ≥ 1] items is cut into [ceil(N/50)] chunks of at
    most 50, which put end to end give the batch back; [processUpdates]
    sends exactly these chunks to Airtable, in order; the write loop of
    [syncItems] posts chunks of this list to Zotero, in order, each
    after the answer to the one before, and all of them when Zotero
    answers every write. *)
Theorem batches_are_chunked (S : Services) (fuel : nat) (items : list jsval)
    (videos : loc) (posted : list jsval) (totals : nat * nat * nat) (w : world) :
  (1 ≤ length items)%nat →
  arrays w !! videos = Some items →
  (length (chunks 50 items) ≤ fuel)%nat →
  (∀ t c, ∃ response,
      target_post S t "items" (JArr c) = inr response ∧ readable_answer response) →
  length (chunks 50 items) = ((length items + 49) `div` 50)%nat
  ∧ Forall (fun c => (1 ≤ length c ≤ 50)%nat) (chunks 50 items)
  ∧ concat (chunks 50 items) = items
  ∧ (∃ w', processUpdates fuel videos w = (Ok videos, w')
           ∧ updates (trace w') = updates (trace w) ++ chunks 50 items)
  ∧ (∀ S' r w', postLoop S' fuel items posted totals w = (r, w') →
       ∃ n, posts (trace w')
            = posts (trace w)
              ++ ((fun c => ("items", JArr c)) <$> take n (chunks 50 items)))
  ∧ (∃ r w', postLoop S fuel items posted totals w = (Ok r, w')
             ∧ posts (trace w')
               = posts (trace w) ++ ((fun c => ("items", JArr c)) <$> chunks 50 items)).
Proof.
  intros Hn Hv Hfuel Hans. split_and!.
  - rewrite length_chunks by lia. done.
  - apply Forall_chunks. lia.
  - apply concat_chunks. lia.
  - eexists. split; [by apply processUpdates_spec|]. simpl.
    by rewrite updates_app, updates_SourceUpdate.
  - intros S' r w'. apply postLoop_prefix.
  - by apply postLoop_chunks.
Qed.

Lemma batches_are_chunked_witness :
  length (chunks 50 sample_batch) = 3%nat
  ∧ Forall (fun c => (1 ≤ length c ≤ 50)%nat) (chunks 50 sample_batch)
  ∧ concat (chunks 50 sample_batch) = sample_batch
  ∧ (∃ w', processUpdates 3 0%nat batch_world = (Ok 0%nat, w')
           ∧ updates (trace w') = chunks 50 sample_batch)
  ∧ (∀ S' r w', postLoop S' 3 sample_batch [] (0, 0, 0)%nat batch_world = (r, w') →
       ∃ n, posts (trace w')
            = (fun c => ("items", JArr c)) <$> take n (chunks 50 sample_batch))
  ∧ (∃ r w', postLoop (sample_services [] None) 3 sample_batch [] (0, 0, 0)%nat
               batch_world = (Ok r, w')
             ∧ posts (trace w')
               = (fun c => ("items", JArr c)) <$> chunks 50 sample_batch).
Proof.
  apply (batches_are_chunked (sample_services [] None) 3 sample_batch 0%nat []
           (0, 0, 0)%nat batch_world).
  - vm_compute. lia.
  - reflexivity.
  - vm_compute. lia.
  - intros t c. eexists. split; [reflexivity|].
    eexists _, _, _, _. repeat split; reflexivity.
Defined.

(** ** Code that cannot run out of fuel *)

Lemma get_prop_total v k : get_prop v k ≠ OutOfFuel.
Proof. by destruct v. Qed.

Lemma get_index_total v i : get_index v i ≠ OutOfFuel.
Proof. by destruct v. Qed.

Lemma Object_values_total v : Object_values v ≠ OutOfFuel.
Proof. by destruct v. Qed.

Lemma outcome_bind_total {A B} (o : outcome A) (f : A → outcome B) :
  o ≠ OutOfFuel → (∀ a, f a ≠ OutOfFuel) → o ≫= f ≠ OutOfFuel.
Proof. intros Ho Hf. destruct o; [apply Hf|done..]. Qed.

Lemma total_ret {A} (a : A) : total (mret a).
Proof. by intros w. Qed.

Lemma total_lift {A} (o : outcome A) : o ≠ OutOfFuel → total (lift o).
Proof. by intros Ho w. Qed.

Lemma total_throw {A} e : total (@throw A e).
Proof. by intros w. Qed.

Lemma total_emit e : total (emit e).
Proof. by intros w. Qed.

Lemma total_bind {A B} (m : M A) (f : A → M B) :
  total m → (∀ a, total (f a)) → total (m ≫= f).
Proof.
  intros Hm Hf w. unfold mbind, M_bind. specialize (Hm w).
  destruct (m w) as [[a|e|] w1]; [apply Hf|done..].
Qed.

Lemma total_try_catch {A} (m : M A) (h : exn → M A) :
  total m → (∀ e, total (h e)) → total (try_catch m h).
Proof.
  intros Hm Hh w. unfold try_catch. specialize (Hm w).
  destruct (m w) as [[a|e|] w1]; [done|apply Hh|done].
Qed.

Lemma total_fmap {A B} (f : A → B) (m : M A) : total m → total (f <$> m).
Proof.
  intros Hm w. unfold fmap, M_fmap. specialize (Hm w).
  by destruct (m w) as [[a|e|] w1].
Qed.

(** A [try] whose handler returns does not throw. *)
Lemma try_catch_returns {A} (m : M A) (h : exn → M A) w :
  total m → (∀ e w1, ∃ a w2, h e w1 = (Ok a, w2)) →
  ∃ a w', try_catch m h w = (Ok a, w').
Proof.
  intros Hm Hh. unfold try_catch. specialize (Hm w).
  destruct (m w) as [[a|e|] w1]; [by eexists _, _|apply Hh|done].
Qed.

Create HintDb total discriminated.
#[local] Hint Resolve get_prop_total get_index_total Object_values_total
  total_ret total_lift total_throw total_emit : total.

Ltac total_step :=
  match goal with
  | |- total (mbind _ _) => apply total_bind; [|intros ?]
  | |- total (try_catch _ _) => apply total_try_catch; [|intros ?]
  | |- total (lift _) => apply total_lift
  | |- total (fmap _ _) => apply total_fmap
  | |- total (if ?b then _ else _) => destruct b
  | |- total (match ?x with _ => _ end) => destruct x
  | |- mbind _ _ ≠ OutOfFuel => apply outcome_bind_total; [|intros ?]
  | |- (if ?b then _ else _) ≠ OutOfFuel => destruct b
  | |- _ => solve [auto with total | done]
  end.

Lemma total_zoteroLibrary_post S path body : total (zoteroLibrary_post S path body).
Proof.
  intros w. unfold zoteroLibrary_post. simpl.
  by destruct (target_post S (trace w) path body).
Qed.

Lemma total_createCollection S name parent : total (createCollection S name parent).
Proof.
  unfold createCollection, console_error.
  repeat total_step. apply total_zoteroLibrary_post.
Qed.

Lemma updateTable_returns fuel (item : jsval) table w :
  (1 ≤ fuel)%nat →
  (updateTable fuel [item] table w).1 ≠ OutOfFuel.
Proof.
  intros Hfuel. unfold updateTable.
  unfold mbind at 1, M_bind at 1, lift at 1.
  destruct (_ ≫= _) as [vals|e|] eqn:Hlog; [|done|].
  2:{ exfalso. revert Hlog. apply outcome_bind_total; [done|].
      intros i0. apply outcome_bind_total; [auto with total|]. auto with total. }
  unfold mbind at 1, M_bind at 1, alloc at 1.
  unfold try_catch.
  set (w1 := {| trace := trace w; cache := cache w;
                arrays := <[fresh (dom (arrays w)):=[item]]> (arrays w) |}).
  unfold mbind at 1, M_bind at 1.
  rewrite (processUpdates_spec fuel (fresh (dom (arrays w))) [item] w1);
    [|apply lookup_insert_eq|vm_compute; lia].
  unfold mbind at 1, M_bind at 1, read at 1. cbn [arrays trace cache].
  subst w1. cbn [arrays].
  rewrite lookup_insert_ne.
  2:{ intros Heq. eapply (is_fresh (dom (<[fresh (dom (arrays w)):=[item]]> (arrays w)))).
      rewrite Heq. apply elem_of_dom. rewrite lookup_insert_eq. by eexists. }
  rewrite lookup_insert_eq. simpl. done.
Qed.

(** ** formatItems *)

(** The series branch returns, and touches nothing of the payload but
    its [collections]. *)
Lemma resolve_series_returns E S fuel v payload w :
  (1 ≤ fuel)%nat →
  ∃ payload' w',
    resolve_series E S fuel v payload w = (Ok payload', w')
    ∧ ∀ k, k ≠ "collections" → assoc k payload' = assoc k payload.
Proof.
  intros Hfuel. unfold resolve_series.
  destruct (truthy (obj_get "series" v)); [|by eexists _, _].
  destruct (truthy (obj_get "zoteroSeries" v)).
  { eexists _, _. split; [done|]. intros k Hk. by apply assoc_push_collection. }
  match goal with
  | |- context [mbind ?f (try_catch ?m ?h)] =>
      destruct (try_catch_returns m h w) as (created & w1 & Hcreated)
  end.
  { unfold console_error. repeat total_step. apply total_createCollection. }
  { intros e w1. by eexists _, _. }
  unfold mbind at 1, M_bind at 1. rewrite Hcreated.
  destruct created as [key|]; [|by eexists _, _].
  match goal with
  | |- context [mbind ?f (try_catch ?m ?h)] =>
      destruct (try_catch_returns m h w1) as (u & w2 & Hsynced)
  end.
  { apply total_bind.
    - intros w0. by apply updateTable_returns.
    - intros [l|]; auto with total. }
  { intros e w0. by eexists _, _. }
  unfold mbind at 1, M_bind at 1. rewrite Hsynced.
  eexists _, _. split; [done|]. intros k Hk. by apply assoc_push_collection.
Qed.

Lemma outcome_bind_ok {A B} (a : A) (f : A → outcome B) : Ok a ≫= f = f a.
Proof. done. Qed.

Lemma creators_packaged E fs (last : nat → jsval) :
  creators E (JArr (imap (fun i f => JObj [ ("firstName", f); ("lastName", last i) ]) fs))
  = Ok (match fs with
        | [] => JObj [ ("creatorType", JStr "contributor"); ("name", JStr "Unknown") ]
        | _ :: _ => JArr (imap (fun i f => contributor f (last i)) fs)
        end).
Proof.
  unfold creators. cbn [get_prop]. rewrite decide_True by done.
  rewrite outcome_bind_ok. cbn [ToNumber num_gt num_lt]. rewrite length_imap.
  destruct fs as [|f fs]; [done|].
  replace (0 <? Z.of_nat (length (f :: fs)))%Z with true
    by (symmetry; apply Z.ltb_lt; simpl; lia).
  rewrite (mapM_outcome_ok _ (fun p => contributor (obj_get "firstName" (spread p))
                                                   (obj_get "lastName" (spread p)))).
  - simpl. do 3 f_equal. rewrite fmap_imap. done.
  - intros p Hp. apply elem_of_lookup_imap in Hp as (i & x & -> & _). done.
Qed.

(** [formatItems] on a video whose presenters package. *)
Lemma formatItems_packaged E S fuel v template fs ls w :
  obj_get "presentersFirstName" v = JArr fs →
  obj_get "presentersLastName" v = JArr ls →
  let presenters :=
    JArr (imap (fun i f => JObj [ ("firstName", f);
                                  ("lastName", default JUndefined (ls !! i)) ]) fs) in
  let cs :=
    match fs with
    | [] => JObj [ ("creatorType", JStr "contributor"); ("name", JStr "Unknown") ]
    | _ :: _ => JArr (imap (fun i f => contributor f (default JUndefined (ls !! i))) fs)
    end in
  let v' := obj_set "presenters" presenters v in
  formatItems E S fuel (JObj v) template w
  = (payload ← resolve_series E S fuel v' (payload_of E v' template cs);
     mret (JObj payload)) w.
Proof.
  intros Hfs Hls presenters cs v'. unfold formatItems.
  simpl get_prop. rewrite !bind_lift_ok, Hfs, Hls, packageAuthors_arrays.
  rewrite (bind_lift_ok (JArr _)). simpl set_prop. rewrite (bind_lift_ok (JObj _)).
  simpl get_prop. rewrite obj_get_obj_set_eq.
  change (Ok ?x ≫= creators E) with (creators E x).
  rewrite (creators_packaged E fs (fun i => default JUndefined (ls !! i))).
  rewrite (bind_lift_ok _). done.
Qed.

(** When the series branch returns, the payload it returns differs from
    the one it was given in its [collections] at most. *)
Lemma resolve_series_fields E S fuel v payload w payload' w' :
  resolve_series E S fuel v payload w = (Ok payload', w') →
  ∀ k, k ≠ "collections" → assoc k payload' = assoc k payload.
Proof.
  unfold resolve_series.
  destruct (truthy (obj_get "series" v)); [|by intros [= <- <-]].
  destruct (truthy (obj_get "zoteroSeries" v)).
  { intros [= <- <-] k Hk. by apply assoc_push_collection. }
  unfold mbind at 1, M_bind at 1.
  destruct (try_catch _ _ w) as [[[key|]|e|] w1]; [|by intros [= <- <-]|done..].
  unfold mbind at 1, M_bind at 1.
  destruct (try_catch _ _ w1) as [[u|e|] w2]; [|done..].
  intros [= <- <-] k Hk. by apply assoc_push_collection.
Qed.

(** What [formatItems] returns is the payload of lines 237-272 after the
    series branch. *)
Lemma formatItems_inv E S fuel v template w p w' :
  formatItems E S fuel (JObj v) template w = (Ok p, w') →
  ∃ presenters cs payload,
    Util.packageAuthors (obj_get "presentersFirstName" v)
                        (obj_get "presentersLastName" v) = Ok presenters
    ∧ creators E presenters = Ok cs
    ∧ p = JObj payload
    ∧ resolve_series E S fuel (obj_set "presenters" presenters v)
        (payload_of E (obj_set "presenters" presenters v) template cs) w
      = (Ok payload, w').
Proof.
  unfold formatItems. simpl get_prop. rewrite !bind_lift_ok.
  destruct (Util.packageAuthors _ _) as [presenters|e|] eqn:Hps; [|done..].
  rewrite (bind_lift_ok presenters). simpl set_prop. rewrite (bind_lift_ok (JObj _)).
  simpl get_prop. rewrite obj_get_obj_set_eq.
  change (Ok ?x ≫= creators E) with (creators E x).
  destruct (creators E presenters) as [cs|e|] eqn:Hcs; [|done..].
  rewrite (bind_lift_ok cs).
  unfold mbind, M_bind.
  destruct (resolve_series _ _ _ _ _ _) as [[payload|e|] w1] eqn:Hrs; [|done..].
  intros [= <- <-]. by eexists _, _, _.
Qed.

Lemma payload_of_key E v template cs :
  assoc "key" (spread template) = None →
  assoc "key" (payload_of E v template cs)
  = if truthy (js_and (obj_get "zoteroKey" v) (obj_get "zoteroVersion" v))
    then Some (obj_get "zoteroKey" v) else None.
Proof.
  intros Ht. unfold payload_of. cbv zeta.
  destruct (truthy (js_and _ _)).
  - rewrite !assoc_obj_set.
    destruct (decide ("key" = "version")); [discriminate|].
    by destruct (decide ("key" = "key")).
  - rewrite assoc_obj_literal.
    match goal with
    | |- context [assoc ?k (reverse ?l)] =>
        replace (assoc k (reverse l)) with (@None jsval) by reflexivity
    end. done.
Qed.

Lemma payload_of_version E v template cs :
  assoc "version" (spread template) = None →
  assoc "version" (payload_of E v template cs)
  = if truthy (js_and (obj_get "zoteroKey" v) (obj_get "zoteroVersion" v))
    then Some (obj_get "zoteroVersion" v) else None.
Proof.
  intros Ht. unfold payload_of. cbv zeta.
  destruct (truthy (js_and _ _)).
  - rewrite !assoc_obj_set. by destruct (decide ("version" = "version")).
  - rewrite assoc_obj_literal.
    match goal with
    | |- context [assoc ?k (reverse ?l)] =>
        replace (assoc k (reverse l)) with (@None jsval) by reflexivity
    end. done.
Qed.

Lemma payload_of_creators E v template cs :
  assoc "creators" (payload_of E v template cs) = Some cs.
Proof.
  unfold payload_of. cbv zeta.
  destruct (truthy (js_and _ _)).
  - rewrite !assoc_obj_set.
    destruct (decide ("creators" = "version")); [discriminate|].
    destruct (decide ("creators" = "key")); [discriminate|].
    rewrite assoc_obj_literal.
    match goal with
    | |- context [assoc ?k (reverse ?l)] =>
        replace (assoc k (reverse l)) with (Some cs) by reflexivity
    end. done.
  - rewrite assoc_obj_literal.
    match goal with
    | |- context [assoc ?k (reverse ?l)] =>
        replace (assoc k (reverse l)) with (Some cs) by reflexivity
    end. done.
Qed.

Lemma payload_of_archiveLocation E v template cs :
  assoc "archiveLocation" (payload_of E v template cs)
  = Some (str_concat (JStr "https://airtable.com/tbl3WP689vHdmg7P2/viwD9Tpr6JAAr97CW/")
                     (obj_get "recordId" v)).
Proof.
  unfold payload_of. cbv zeta.
  destruct (truthy (js_and _ _)).
  - rewrite !assoc_obj_set.
    destruct (decide ("archiveLocation" = "version")); [discriminate|].
    destruct (decide ("archiveLocation" = "key")); [discriminate|].
    rewrite assoc_obj_literal.
    match goal with
    | |- context [assoc ?k (reverse ?l)] =>
        replace (assoc k (reverse l))
          with (Some (str_concat
                        (JStr "https://airtable.com/tbl3WP689vHdmg7P2/viwD9Tpr6JAAr97CW/")
                        (obj_get "recordId" v))) by reflexivity
    end. done.
  - rewrite assoc_obj_literal.
    match goal with
    | |- context [assoc ?k (reverse ?l)] =>
        replace (assoc k (reverse l))
          with (Some (str_concat
                        (JStr "https://airtable.com/tbl3WP689vHdmg7P2/viwD9Tpr6JAAr97CW/")
                        (obj_get "recordId" v))) by reflexivity
    end. done.
Qed.

(** With presenter arrays and fuel for one update, [formatItems]
    returns a payload. *)
Lemma formatItems_returns E S fuel v template fs ls w :
  obj_get "presentersFirstName" v = JArr fs →
  obj_get "presentersLastName" v = JArr ls →
  (1 ≤ fuel)%nat →
  ∃ payload w', formatItems E S fuel (JObj v) template w = (Ok (JObj payload), w').
Proof.
  intros Hfs Hls Hfuel.
  rewrite (formatItems_packaged E S fuel v template fs ls w Hfs Hls).
  match goal with
  | |- context [resolve_series E S fuel ?v' ?p] =>
      destruct (resolve_series_returns E S fuel v' p w Hfuel)
        as (payload & w' & Hrs & _)
  end.
  unfold mbind, M_bind. rewrite Hrs. by eexists _, _.
Qed.

(** C5: the payload of [formatItems] carries the token - [key] and
    [version], set from [zoteroKey] and [zoteroVersion] - exactly when
    the record has both set (truthy); otherwise it has neither field.
    The template is one of Zotero's templates for a new item, which has
    no [key] and no [version]. *)
Theorem formatItems_token (E : Env) (S : Services) (fuel : nat)
    (v : list (string * jsval)) (template : jsval) (w : world)
    (p : jsval) (w' : world) :
  assoc "key" (spread template) = None →
  assoc "version" (spread template) = None →
  formatItems E S fuel (JObj v) template w = (Ok p, w') →
  let zoteroKey := obj_get "zoteroKey" v in
  let zoteroVersion := obj_get "zoteroVersion" v in
  ∃ payload,
    p = JObj payload
    ∧ (truthy zoteroKey = true ∧ truthy zoteroVersion = true →
       assoc "key" payload = Some zoteroKey
       ∧ assoc "version" payload = Some zoteroVersion)
    ∧ (¬ (truthy zoteroKey = true ∧ truthy zoteroVersion = true) →
       assoc "key" payload = None ∧ assoc "version" payload = None)
    ∧ (is_Some (assoc "key" payload) ∧ is_Some (assoc "version" payload)
       ↔ truthy zoteroKey = true ∧ truthy zoteroVersion = true).
Proof.
  intros Hk Hv Hrun zoteroKey zoteroVersion.
  apply formatItems_inv in Hrun as (presenters & cs & payload & _ & _ & -> & Hrs).
  exists payload. split; [done|].
  pose proof (resolve_series_fields _ _ _ _ _ _ _ _ Hrs) as Hfields.
  rewrite !Hfields by discriminate.
  rewrite payload_of_key, payload_of_version by done.
  rewrite !obj_get_obj_set_ne by discriminate.
  fold zoteroKey zoteroVersion. unfold js_and.
  destruct (truthy zoteroKey) eqn:Hzk; rewrite ?Hzk;
    destruct (truthy zoteroVersion) eqn:Hzv.
  - split_and!; [done|intros H; by destruct H|].
    split; [done|]. intros _. split; by eexists.
  - split_and!; [by intros [_ ?]|done|].
    split; [intros [[x Hx] _]; discriminate|by intros [_ ?]].
  - split_and!; [by intros [? _]|done|].
    split; [intros [[x Hx] _]; discriminate|by intros [? _]].
  - split_and!; [by intros [? _]|done|].
    split; [intros [[x Hx] _]; discriminate|by intros [? _]].
Qed.

Lemma formatItems_token_witness :
  let update := JObj (obj_set "zoteroVersion" (JNum 7)
                        (obj_set "zoteroKey" (JStr "QRST2345") (spread sample_video))) in
  (∃ payload w',
      formatItems sample_env (sample_services [] None) 1 update sample_template
        empty_world = (Ok (JObj payload), w')
      ∧ assoc "key" payload = Some (JStr "QRST2345")
      ∧ assoc "version" payload = Some (JNum 7))
  ∧ (∃ payload w',
        formatItems sample_env (sample_services [] None) 1 sample_video sample_template
          empty_world = (Ok (JObj payload), w')
        ∧ assoc "key" payload = None
        ∧ assoc "version" payload = None).
Proof.
  intros update. split.
  - destruct (formatItems sample_env (sample_services [] None) 1 update sample_template
                empty_world) as [p w'] eqn:Hrun.
    assert (Hok : ∃ q, p = Ok q) by (vm_compute in Hrun; injection Hrun as <- _; by eexists).
    destruct Hok as [q ->].
    destruct (formatItems_token sample_env (sample_services [] None) 1 _ sample_template
                empty_world q w' eq_refl eq_refl Hrun)
      as (payload & -> & Hyes & _).
    exists payload, w'. split; [reflexivity|]. apply Hyes. split; reflexivity.
  - destruct (formatItems sample_env (sample_services [] None) 1 sample_video
                sample_template empty_world) as [p w'] eqn:Hrun.
    assert (Hok : ∃ q, p = Ok q) by (vm_compute in Hrun; injection Hrun as <- _; by eexists).
    destruct Hok as [q ->].
    destruct (formatItems_token sample_env (sample_services [] None) 1 _ sample_template
                empty_world q w' eq_refl eq_refl Hrun)
      as (payload & -> & _ & Hno & _).
    exists payload, w'. split; [reflexivity|]. apply Hno. intros [H _]. discriminate H.
Defined.

(** C6: [formatItems] pairs the presenter first names and last names by
    index; a pair with both parts gives a contributor with [firstName]
    and [lastName], a pair missing a part gives a contributor with the
    single field [name]; without any presenter the [creators] value is
    the one contributor named ['Unknown']. *)
Theorem formatItems_creators (E : Env) (S : Services) (fuel : nat)
    (v : list (string * jsval)) (template : jsval) (w : world)
    (fs ls : list jsval) :
  obj_get "presentersFirstName" v = JArr fs →
  obj_get "presentersLastName" v = JArr ls →
  (1 ≤ fuel)%nat →
  ∃ payload w',
    formatItems E S fuel (JObj v) template w = (Ok (JObj payload), w')
    ∧ (fs = [] →
       assoc "creators" payload
       = Some (JObj [ ("creatorType", JStr "contributor"); ("name", JStr "Unknown") ]))
    ∧ (fs ≠ [] →
       ∃ cs, assoc "creators" payload = Some (JArr cs)
             ∧ length cs = length fs
             ∧ ∀ i f, fs !! i = Some f →
                 let l := default JUndefined (ls !! i) in
                 (truthy f = true → truthy l = true →
                  cs !! i = Some (JObj [ ("creatorType", JStr "contributor");
                                         ("firstName", f);
                                         ("lastName", l) ]))
                 ∧ (truthy f = false ∨ truthy l = false →
                    cs !! i
                    = Some (JObj [ ("creatorType", JStr "contributor");
                                   ("name", js_or (js_or f (JStr (to_string l)))
                                                  (JStr "")) ])))
    ∧ (fs = [JStr "Jane"] → ls = [JStr "Doe"] →
       assoc "creators" payload
       = Some (JArr [ JObj [ ("creatorType", JStr "contributor");
                             ("firstName", JStr "Jane");
                             ("lastName", JStr "Doe") ] ])).
Proof.
  intros Hfs Hls Hfuel.
  destruct (formatItems_returns E S fuel v template fs ls w Hfs Hls Hfuel)
    as (payload & w' & Hrun).
  exists payload, w'. split; [done|].
  pose proof Hrun as Hrun'.
  rewrite (formatItems_packaged E S fuel v template fs ls w Hfs Hls) in Hrun'.
  unfold mbind, M_bind in Hrun'.
  destruct (resolve_series _ _ _ _ _ _) as [[payload'|e|] w1] eqn:Hrs; [|done..].
  injection Hrun' as -> ->.
  rewrite (resolve_series_fields _ _ _ _ _ _ _ _ Hrs) by discriminate.
  rewrite payload_of_creators.
  split_and!.
  - by intros ->.
  - intros Hne. destruct fs as [|f0 fs0]; [done|].
    eexists. split; [done|]. split; [by rewrite length_imap|].
    intros i f Hi l. rewrite list_lookup_imap, Hi. simpl. fold l.
    unfold contributor. split.
    + by intros -> ->.
    + intros [->| ->]; [done|]. by rewrite orb_true_r.
  - by intros -> ->.
Qed.

Lemma formatItems_creators_witness :
  ∃ payload w',
    formatItems sample_env (sample_services [] None) 1 sample_video sample_template
      empty_world = (Ok (JObj payload), w')
    ∧ assoc "creators" payload
      = Some (JArr [ JObj [ ("creatorType", JStr "contributor");
                            ("firstName", JStr "Jane");
                            ("lastName", JStr "Doe") ] ]).
Proof.
  destruct (formatItems_creators sample_env (sample_services [] None) 1
              (spread sample_video) sample_template empty_world
              [JStr "Jane"] [JStr "Doe"])
    as (payload & w' & Hrun & _ & _ & Hjane); [reflexivity|reflexivity|lia|].
  exists payload, w'. split; [exact Hrun|]. apply Hjane; reflexivity.
Defined.

(** ** The record identifier, through the archive location *)

Lemma words_then_end_length n s :
  words_then_end n s = true → String.length s = n.
Proof.
  revert s. induction n as [|n IH]; intros [|c s]; simpl; try done.
  intros [_ H]%andb_prop. f_equal. by apply IH.
Qed.

Lemma length_append (s1 s2 : string) :
  String.length (s1 +:+ s2) = (String.length s1 + String.length s2)%nat.
Proof. induction s1 as [|c s1 IH]; simpl; [done|]. by rewrite IH. Qed.

Lemma match_here_inv s :
  match_here s = true → ∃ r, s = "rec" +:+ r ∧ words_then_end 14 r = true.
Proof.
  unfold match_here. intros H.
  destruct s as [|c1 s]; [discriminate|].
  destruct c1 as [[] [] [] [] [] [] [] []]; try discriminate.
  destruct s as [|c2 s]; [discriminate|].
  destruct c2 as [[] [] [] [] [] [] [] []]; try discriminate.
  destruct s as [|c3 s]; [discriminate|].
  destruct c3 as [[] [] [] [] [] [] [] []]; try discriminate.
  by exists s.
Qed.

Lemma match_here_length s : match_here s = true → String.length s = 17%nat.
Proof.
  intros (r & -> & H%words_then_end_length)%match_here_inv.
  rewrite length_append, H. done.
Qed.

(** The leftmost match of a pattern anchored at the end is the suffix
    that matches. *)
Lemma regex_match_suffix prefix s :
  match_here s = true → regex_match (prefix +:+ s) = Some s.
Proof.
  intros Hs. induction prefix as [|c prefix IH].
  - change ("" +:+ s) with s. destruct s; simpl in *; [done|]. by rewrite Hs.
  - change (String c prefix +:+ s) with (String c (prefix +:+ s)).
    change (regex_match (String c (prefix +:+ s)))
      with (if match_here (String c (prefix +:+ s))
            then Some (String c (prefix +:+ s))
            else regex_match (prefix +:+ s)).
    destruct (match_here (String c (prefix +:+ s))) eqn:Hm; [|exact IH].
    apply match_here_length in Hm. apply match_here_length in Hs.
    simpl in Hm. rewrite length_append in Hm. lia.
Qed.

Lemma words_then_end_word tail :
  Forall (fun c => word_char c = true) (String.list_ascii_of_string tail) →
  words_then_end (String.length tail) tail = true.
Proof.
  induction tail as [|c tail IH]; simpl; [done|].
  intros [Hc Htail]%Forall_cons. by rewrite Hc, IH.
Qed.

Lemma match_here_record_id id : record_id id → match_here id = true.
Proof.
  intros (tail & -> & Hlen & Hword).
  change (match_here ("rec" +:+ tail)) with (words_then_end 14 tail).
  rewrite <- Hlen. by apply words_then_end_word.
Qed.

(** C10: for a record identifier [rec] + fourteen word characters, the
    [archiveLocation] that [formatItems] builds is the fixed prefix
    followed by the identifier, and the pattern of [syncItems] takes
    exactly that identifier back out of it, so the patch instruction of
    a posted item carries the identifier of the record it came from. *)
Theorem recordId_round_trip (E : Env) (S : Services) (fuel : nat)
    (v : list (string * jsval)) (template : jsval) (w : world)
    (p : jsval) (w' : world) (id : string) :
  obj_get "recordId" v = JStr id →
  record_id id →
  formatItems E S fuel (JObj v) template w = (Ok p, w') →
  ∃ payload,
    p = JObj payload
    ∧ assoc "archiveLocation" payload
      = Some (JStr ("https://airtable.com/tbl3WP689vHdmg7P2/viwD9Tpr6JAAr97CW/" +:+ id))
    ∧ regex_match ("https://airtable.com/tbl3WP689vHdmg7P2/viwD9Tpr6JAAr97CW/" +:+ id)
      = Some id
    ∧ ∀ item, obj_get "data" item = p →
        itemToSync (JObj item)
        = Ok (JObj [ ("id", JStr id);
                     ("fields", JObj [ ("Zotero Key", obj_get "key" item);
                                       ("Zotero Version", obj_get "version" item) ]) ]).
Proof.
  intros Hid Hrec Hrun.
  apply formatItems_inv in Hrun as (presenters & cs & payload & _ & _ & -> & Hrs).
  exists payload. split; [done|].
  pose proof (resolve_series_fields _ _ _ _ _ _ _ _ Hrs "archiveLocation") as Hal.
  rewrite payload_of_archiveLocation in Hal.
  rewrite obj_get_obj_set_ne, Hid in Hal by discriminate.
  specialize (Hal ltac:(discriminate)).
  change (str_concat ?a (JStr id)) with (JStr (to_string a +:+ id)) in Hal.
  simpl to_string in Hal.
  pose proof (regex_match_suffix
                "https://airtable.com/tbl3WP689vHdmg7P2/viwD9Tpr6JAAr97CW/" id
                (match_here_record_id id Hrec)) as Hmatch.
  split_and!; [done..|].
  intros item Hdata.
  assert (Hg : get_prop (JObj payload) "archiveLocation"
               = Ok (JStr ("https://airtable.com/tbl3WP689vHdmg7P2/viwD9Tpr6JAAr97CW/"
                           +:+ id))).
  { unfold get_prop, obj_get. by rewrite Hal. }
  assert (Hd : get_prop (JObj item) "data" = Ok (JObj payload)).
  { unfold get_prop. by rewrite Hdata. }
  unfold itemToSync.
  rewrite Hd, outcome_bind_ok, Hg, outcome_bind_ok, Hmatch. done.
Qed.

Lemma recordId_round_trip_witness :
  ∃ payload w',
    formatItems sample_env (sample_services [] None) 1 sample_video sample_template
      empty_world = (Ok (JObj payload), w')
    ∧ itemToSync (JObj [ ("key", JStr "QRST2345"); ("version", JNum 7);
                         ("data", JObj payload) ])
      = Ok (JObj [ ("id", JStr "recA1b2C3d4E5f6G7");
                   ("fields", JObj [ ("Zotero Key", JStr "QRST2345");
                                     ("Zotero Version", JNum 7) ]) ]).
Proof.
  destruct (formatItems sample_env (sample_services [] None) 1 sample_video
              sample_template empty_world) as [p w'] eqn:Hrun.
  assert (Hok : ∃ q, p = Ok q) by (vm_compute in Hrun; injection Hrun as <- _; by eexists).
  destruct Hok as [q ->].
  destruct (recordId_round_trip sample_env (sample_services [] None) 1
              (spread sample_video) sample_template empty_world q w'
              "recA1b2C3d4E5f6G7" eq_refl)
    as (payload & -> & _ & _ & Hsync); [|exact Hrun|].
  - exists "A1b2C3d4E5f6G7". split; [reflexivity|]. split; [reflexivity|].
    repeat constructor.
  - exists payload, w'. split; [reflexivity|].
    apply (Hsync [ ("key", JStr "QRST2345"); ("version", JNum 7);
                   ("data", JObj payload) ]). reflexivity.
Defined.

(** * Further properties of esovdb.js *)

Lemma mapM_outcome_cons_inv {A B} (f : A → outcome B) x l ys :
  mapM f (x :: l) = Ok ys →
  ∃ y ys', f x = Ok y ∧ mapM f l = Ok ys' ∧ ys = y :: ys'.
Proof.
  simpl. destruct (f x) as [y| |]; [|done..]. simpl.
  destruct (mapM f l) as [ys'| |]; [|done..]. simpl.
  intros [= <-]. by eexists _, _.
Qed.

(** A walk whose counter never meets the requested index accumulates
    every page. *)
Lemma eachPage_unpaged E cachePath req_pg ps err pg data w rowss :
  num_truthy req_pg = false →
  (∀ j, (pg ≤ j)%Z → Some j ≠ req_pg) →
  mapM (mapM (row E)) ps = Ok rowss →
  eachPage E cachePath req_pg ps err pg data w
  = done cachePath err (data ++ concat rowss) w.
Proof.
  intros Hfalsy. revert pg data rowss.
  induction ps as [|records ps IH]; intros pg data rowss Hne Hrows.
  - injection Hrows as <-. simpl. by rewrite app_nil_r.
  - apply mapM_outcome_cons_inv in Hrows as (rows & rowss' & Hr & Hrs & ->).
    simpl eachPage. rewrite Hfalsy. cbn [negb orb].
    rewrite Hr, (bind_lift_ok rows).
    rewrite bool_decide_eq_false_2 by (apply Hne; lia).
    unfold mbind, M_bind. simpl.
    rewrite (IH (pg + 1)%Z (data ++ rows) rowss'); [|intros j Hj; apply Hne; lia|done].
    by rewrite <- app_assoc.
Qed.

(** On a cache hit the handler answers with the cached value and does
    nothing else. *)
Lemma listVideos_hit E S req w ma ca cached :
  after_date E (query_modifiedAfter req) = Ok ma →
  after_date E (query_createdAfter req) = Ok ca →
  cache w !! (".cache" +:+ url req +:+ ".json") = Some cached →
  nullish cached = false →
  listVideos E S req w = (Ok (), after (HttpSend 200 cached) w).
Proof.
  intros Hm Hc Hcached Hnn.
  unfold listVideos. rewrite Hm, Hc, !bind_lift_ok.
  unfold mbind at 1, M_bind at 1, readCacheWithPath at 1.
  rewrite Hcached. simpl. by rewrite Hnn.
Qed.

(** A request without page index, on a cache miss and a walk that
    completes. *)
Lemma listVideos_unpaged_run E S req w ma ca rowss :
  after_date E (query_modifiedAfter req) = Ok ma →
  after_date E (query_createdAfter req) = Ok ca →
  cache_miss req w →
  page_index E (params_pg req) = None →
  failure (source_select S (request_options E req ma ca)) = None →
  mapM (mapM (row E)) (pages (source_select S (request_options E req ma ca)))
  = Ok rowss →
  listVideos E S req w
  = (Ok (),
     {| trace := trace w ++ [ SourceSelect (request_options E req ma ca);
                              HttpSend 200 (JArr (concat rowss)) ];
        cache := <[".cache" +:+ url req +:+ ".json" := JArr (concat rowss)]> (cache w);
        arrays := arrays w |}).
Proof.
  intros Hm Hc Hmiss Hpg Hfail Hrows.
  rewrite (listVideos_miss E S req w ma ca) by done.
  rewrite Hpg, Hfail.
  rewrite (eachPage_unpaged E _ None _ None 0 [] _ rowss); [|done|done|done].
  unfold done, mbind, M_bind, writeCacheWithPath, emit, after. simpl.
  by rewrite <- app_assoc.
Qed.

(** A request for page 1 (index 0), on a cache miss and a walk that
    completes: index 0 is falsy, so every page is accumulated. *)
Lemma listVideos_first_page_run E S req w ma ca records rest rows rowss :
  after_date E (query_modifiedAfter req) = Ok ma →
  after_date E (query_createdAfter req) = Ok ca →
  cache_miss req w →
  page_index E (params_pg req) = Some 0%Z →
  failure (source_select S (request_options E req ma ca)) = None →
  pages (source_select S (request_options E req ma ca)) = records :: rest →
  mapM (row E) records = Ok rows →
  mapM (mapM (row E)) rest = Ok rowss →
  listVideos E S req w
  = (Ok (),
     {| trace := trace w ++ [ SourceSelect (request_options E req ma ca);
                              HttpSend 200 (JArr rows);
                              HttpSend 200 (JArr (rows ++ concat rowss)) ];
        cache := <[".cache" +:+ url req +:+ ".json" := JArr (rows ++ concat rowss)]>
                   (cache w);
        arrays := arrays w |}).
Proof.
  intros Hm Hc Hmiss Hpg Hfail Hpages Hrows Hrest.
  rewrite (listVideos_miss E S req w ma ca) by done.
  rewrite Hpg, Hfail, Hpages.
  simpl eachPage. rewrite Hrows, (bind_lift_ok rows).
  rewrite ?bool_decide_eq_true_2 by done.
  unfold mbind, M_bind, emit. simpl.
  rewrite (eachPage_unpaged E _ (Some 0%Z) _ None 1 rows _ rowss);
    [|done|intros j Hj [= ->]; lia|done].
  unfold done, mbind, M_bind, writeCacheWithPath, emit, after. simpl.
  by rewrite <- !app_assoc.
Qed.

(** X1: on a cache hit [listVideos] answers 200 with the cached value
    as it is, sends no [select] to Airtable and leaves the cache alone. *)
Theorem listVideos_cache_hit (E : Env) (S : Services) (req : request) (w : world)
    (ma ca : option Z) (cached : jsval) :
  after_date E (query_modifiedAfter req) = Ok ma →
  after_date E (query_createdAfter req) = Ok ca →
  cache w !! (".cache" +:+ url req +:+ ".json") = Some cached →
  nullish cached = false →
  listVideos E S req w = (Ok (), after (HttpSend 200 cached) w)
  ∧ selects (trace (listVideos E S req w).2) = selects (trace w)
  ∧ cache (listVideos E S req w).2 = cache w.
Proof.
  intros Hm Hc Hcached Hnn.
  rewrite (listVideos_hit E S req w ma ca cached) by done.
  split_and!; [done| |done].
  simpl. by rewrite selects_app, app_nil_r.
Qed.

Lemma listVideos_cache_hit_witness :
  let w := {| trace := [];
              cache := {[ ".cache/videos/list/?pageSize=2.json" := JArr [JNum 1] ]};
              arrays := ∅ |} in
  listVideos sample_env (sample_services five_records None) (list_request "") w
  = (Ok (), after (HttpSend 200 (JArr [JNum 1])) w).
Proof.
  intros w.
  apply (listVideos_cache_hit sample_env (sample_services five_records None)
           (list_request "") w None None (JArr [JNum 1]));
    reflexivity.
Defined.

(** X2: without a page index, on a cache miss and a walk that
    completes, [listVideos] sends one [select], answers once, with
    status 200 and the rows of all pages in order, and writes exactly
    these rows to the cache under the path of the request. *)
Theorem listVideos_unpaged (E : Env) (S : Services) (req : request) (w : world)
    (ma ca : option Z) (rowss : list (list jsval)) :
  after_date E (query_modifiedAfter req) = Ok ma →
  after_date E (query_createdAfter req) = Ok ca →
  cache_miss req w →
  page_index E (params_pg req) = None →
  failure (source_select S (request_options E req ma ca)) = None →
  mapM (mapM (row E)) (pages (source_select S (request_options E req ma ca)))
  = Ok rowss →
  ∃ w', listVideos E S req w = (Ok (), w')
        ∧ trace w' = trace w ++ [ SourceSelect (request_options E req ma ca);
                                  HttpSend 200 (JArr (concat rowss)) ]
        ∧ cache w' = <[".cache" +:+ url req +:+ ".json" := JArr (concat rowss)]>
                       (cache w).
Proof.
  intros Hm Hc Hmiss Hpg Hfail Hrows.
  rewrite (listVideos_unpaged_run E S req w ma ca rowss) by done.
  by eexists.
Qed.

Lemma listVideos_unpaged_witness :
  ∃ w', listVideos sample_env (sample_services five_records None) (list_request "")
          empty_world = (Ok (), w')
        ∧ sends (trace w') = [HttpSend 200 (JArr (rows_of sample_env five_records))]
        ∧ cache w' = {[ ".cache/videos/list/?pageSize=2.json"
                        := JArr (rows_of sample_env five_records) ]}.
Proof.
  destruct (listVideos_unpaged sample_env (sample_services five_records None)
              (list_request "") empty_world None None
              (rows_of sample_env <$> chunks 2 five_records))
    as (w' & Hrun & Ht & Hc); [reflexivity..|].
  exists w'. split; [exact Hrun|]. split; [|exact Hc].
  rewrite Ht. reflexivity.
Defined.

(** X3: cache idempotence.  After such a request, the same request
    again is answered from the cache with the same body, and no second
    [select] is sent. *)
Theorem listVideos_repeat (E : Env) (S : Services) (req : request) (w : world)
    (ma ca : option Z) (rowss : list (list jsval)) :
  after_date E (query_modifiedAfter req) = Ok ma →
  after_date E (query_createdAfter req) = Ok ca →
  cache_miss req w →
  page_index E (params_pg req) = None →
  failure (source_select S (request_options E req ma ca)) = None →
  mapM (mapM (row E)) (pages (source_select S (request_options E req ma ca)))
  = Ok rowss →
  let w1 := (listVideos E S req w).2 in
  let w2 := (listVideos E S req w1).2 in
  sends (drop (length (trace w)) (trace w1)) = [HttpSend 200 (JArr (concat rowss))]
  ∧ listVideos E S req w1 = (Ok (), after (HttpSend 200 (JArr (concat rowss))) w1)
  ∧ selects (trace w2) = selects (trace w1)
  ∧ cache w2 = cache w1.
Proof.
  intros Hm Hc Hmiss Hpg Hfail Hrows w1 w2. subst w2 w1.
  rewrite (listVideos_unpaged_run E S req w ma ca rowss) by done.
  cbn [snd trace].
  rewrite (listVideos_hit E S req _ ma ca (JArr (concat rowss)));
    [|done|done|apply lookup_insert_eq|done].
  split_and!; [by rewrite drop_app_length|done| |done].
  cbn [snd after trace]. by rewrite selects_app, app_nil_r.
Qed.

Lemma listVideos_repeat_witness :
  let S := sample_services five_records None in
  let w1 := (listVideos sample_env S (list_request "") empty_world).2 in
  listVideos sample_env S (list_request "") w1
  = (Ok (), after (HttpSend 200 (JArr (rows_of sample_env five_records))) w1)
  ∧ length (selects (trace (listVideos sample_env S (list_request "") w1).2)) = 1%nat.
Proof.
  intros S w1.
  destruct (listVideos_repeat sample_env S (list_request "") empty_world None None
              (rows_of sample_env <$> chunks 2 five_records))
    as (_ & Hrun & Hsel & _); [reflexivity..|].
  split; [exact Hrun|]. fold w1 in Hsel. rewrite Hsel. reflexivity.
Defined.

(** X4: page 1.  Index 0 is falsy in the test [!req.params.pg], so a
    request for page 1 accumulates every page: the caller is sent the
    rows of page 1, but the cache entry written at the end holds the
    rows of all pages, and the same request again is answered with all
    of them. *)
Theorem listVideos_first_page (E : Env) (S : Services) (req : request) (w : world)
    (ma ca : option Z) (records : list record) (rest : list (list record))
    (rows : list jsval) (rowss : list (list jsval)) :
  after_date E (query_modifiedAfter req) = Ok ma →
  after_date E (query_createdAfter req) = Ok ca →
  cache_miss req w →
  page_index E (params_pg req) = Some 0%Z →
  failure (source_select S (request_options E req ma ca)) = None →
  pages (source_select S (request_options E req ma ca)) = records :: rest →
  mapM (row E) records = Ok rows →
  mapM (mapM (row E)) rest = Ok rowss →
  let w1 := (listVideos E S req w).2 in
  http_response (drop (length (trace w)) (trace w1)) = Some (HttpSend 200 (JArr rows))
  ∧ cache w1 !! (".cache" +:+ url req +:+ ".json") = Some (JArr (rows ++ concat rowss))
  ∧ listVideos E S req w1
    = (Ok (), after (HttpSend 200 (JArr (rows ++ concat rowss))) w1).
Proof.
  intros Hm Hc Hmiss Hpg Hfail Hpages Hrows Hrest w1. subst w1.
  rewrite (listVideos_first_page_run E S req w ma ca records rest rows rowss) by done.
  cbn [snd trace cache].
  split_and!.
  - by rewrite drop_app_length.
  - apply lookup_insert_eq.
  - apply (listVideos_hit E S req _ ma ca); [done|done|apply lookup_insert_eq|done].
Qed.

Lemma listVideos_first_page_witness :
  let S := sample_services five_records None in
  let w1 := (listVideos sample_env S (list_request "1") empty_world).2 in
  http_response (trace w1)
  = Some (HttpSend 200 (JArr (rows_of sample_env (take 2 five_records))))
  ∧ cache w1 !! ".cache/videos/list/1?pageSize=2.json"
    = Some (JArr (rows_of sample_env five_records))
  ∧ listVideos sample_env S (list_request "1") w1
    = (Ok (), after (HttpSend 200 (JArr (rows_of sample_env five_records))) w1).
Proof.
  intros S w1.
  destruct (listVideos_first_page sample_env S (list_request "1") empty_world None None
              (take 2 five_records) (drop 1 (chunks 2 five_records))
              (rows_of sample_env (take 2 five_records))
              (rows_of sample_env <$> drop 1 (chunks 2 five_records)))
    as (H1 & H2 & H3); [reflexivity..|].
  split; [exact H1|]. split; [exact H2|exact H3].
Defined.

(** ** The request parameters *)

(** X5: a date parameter that [decodeURIComponent] rejects makes
    [listVideos] throw [URIError] before it reads the cache: nothing is
    sent, to the caller or to Airtable, even when the answer is cached. *)
Theorem listVideos_malformed_date (E : Env) (S : Services) (req : request)
    (w : world) :
  (truthy (query_modifiedAfter req) = true
   ∧ decodeURIComponent E (to_string (query_modifiedAfter req)) = None)
  ∨ ((∃ ma, after_date E (query_modifiedAfter req) = Ok ma)
     ∧ truthy (query_createdAfter req) = true
     ∧ decodeURIComponent E (to_string (query_createdAfter req)) = None) →
  listVideos E S req w = (Throw URIError, w).
Proof.
  assert (Hthrow : ∀ q, truthy q = true → decodeURIComponent E (to_string q) = None →
                        after_date E q = Throw URIError).
  { intros q Ht Hd. unfold after_date. by rewrite Ht, Hd. }
  intros [[Ht Hd]|([ma Hm] & Ht & Hd)]; unfold listVideos.
  - by rewrite (Hthrow _ Ht Hd).
  - by rewrite Hm, (bind_lift_ok ma), (Hthrow _ Ht Hd).
Qed.

Lemma listVideos_malformed_date_witness :
  let E := {| StringToNumber := StringToNumber sample_env;
              decodeURIComponent := fun s => if decide (s = "100%") then None else Some s;
              Date_parse := Date_parse sample_env;
              iso8601_local := iso8601_local sample_env |} in
  let req := {| params_pg := JUndefined; query_pageSize := JUndefined;
                query_maxRecords := JUndefined; query_createdAfter := JUndefined;
                query_modifiedAfter := JStr "100%";
                url := "/videos/list?modifiedAfter=100%25" |} in
  listVideos E (sample_services five_records None) req empty_world
  = (Throw URIError, empty_world).
Proof.
  intros E req.
  apply (listVideos_malformed_date E (sample_services five_records None) req empty_world).
  left. split; reflexivity.
Defined.

Lemma after_date_Some E q t : after_date E q = Ok (Some t) → (0 < t)%Z.
Proof.
  unfold after_date. destruct (truthy q); [|done].
  destruct (decodeURIComponent E (to_string q)) as [s|]; [|done].
  destruct (Date_parse E s) as [t'|]; simpl; [|done].
  destruct (Z.ltb_spec 0 t'); [|done]. by intros [= <-].
Qed.

(** X6: which filter is sent.  The creation filter when [createdAfter]
    parses to a positive date; otherwise the modification filter when
    [modifiedAfter] does; otherwise none.  A parameter that is empty, or
    parses to [NaN], zero or a negative number, counts as absent. *)
Theorem listVideos_filter (E : Env) (req : request) (ma ca : option Z) :
  after_date E (query_modifiedAfter req) = Ok ma →
  after_date E (query_createdAfter req) = Ok ca →
  filterByFormula (request_options E req ma ca)
  = match ca with
    | Some c => Some (created_filter c)
    | None => modified_filter <$> ma
    end
  ∧ (∀ q, truthy q = false → after_date E q = Ok None)
  ∧ (∀ q s, decodeURIComponent E (to_string q) = Some s →
            Date_parse E s = None ∨ (∃ t, Date_parse E s = Some t ∧ (t ≤ 0)%Z) →
            after_date E q = Ok None).
Proof.
  intros Hm Hc. split_and!.
  - unfold request_options, select_options.
    destruct ca as [c|], ma as [m|];
      repeat match goal with
             | H : after_date _ _ = Ok (Some ?t) |- _ =>
                 apply after_date_Some in H
             end;
      simpl;
      repeat match goal with
             | H : (0 < ?t)%Z |- context [(?t =? 0)%Z] =>
                 destruct (Z.eqb_spec t 0); [lia|]
             end;
      simpl; by repeat case_match.
  - intros q Hq. unfold after_date. by rewrite Hq.
  - intros q s Hs Hd. unfold after_date. rewrite Hs.
    destruct (truthy q); [|done].
    destruct Hd as [->|(t & -> & Ht)]; simpl; [done|].
    by destruct (Z.ltb_spec 0 t); [lia|].
Qed.

Lemma listVideos_filter_witness :
  let req := {| params_pg := JUndefined; query_pageSize := JUndefined;
                query_maxRecords := JUndefined; query_createdAfter := JStr "never";
                query_modifiedAfter := JStr "2020-01-01";
                url := "/videos/list?createdAfter=never&modifiedAfter=2020-01-01" |} in
  filterByFormula (request_options sample_env req (Some 1577836800000%Z) None)
  = Some (modified_filter 1577836800000).
Proof.
  intros req.
  apply (listVideos_filter sample_env req (Some 1577836800000%Z) None); reflexivity.
Defined.

Lemma pageSize_request_options E req ma ca :
  pageSize (request_options E req ma ca)
  = ToNumber E (pageSize_clamped E (pageSize_default E (query_pageSize req))
                  (maxRecords_default E (query_maxRecords req))).
Proof. unfold request_options, select_options. by repeat case_match. Qed.

Lemma maxRecords_request_options E req ma ca :
  maxRecords (request_options E req ma ca)
  = (if truthy (maxRecords_default E (query_maxRecords req))
     then Some (ToNumber E (maxRecords_default E (query_maxRecords req)))
     else None).
Proof. unfold request_options, select_options. by repeat case_match. Qed.

(** X7: the page size sent to Airtable when no [maxRecords] is given.
    It is 100 when [pageSize] is absent, empty, not a number or zero;
    any other number is passed on as it is - the test against 100 on
    line 50 sits inside the call of [Number], so a page size above 100
    is not brought down to 100. *)
Theorem listVideos_pageSize (E : Env) (req : request) (ma ca : option Z) :
  query_maxRecords req = JUndefined →
  (query_pageSize req = JUndefined → pageSize (request_options E req ma ca) = Some 100%Z)
  ∧ (∀ s, query_pageSize req = JStr s →
          s = "" ∨ StringToNumber E s = None ∨ StringToNumber E s = Some 0%Z →
          pageSize (request_options E req ma ca) = Some 100%Z)
  ∧ (∀ s n, query_pageSize req = JStr s → s ≠ "" →
            StringToNumber E s = Some n → n ≠ 0%Z →
            pageSize (request_options E req ma ca) = Some n).
Proof.
  intros Hmr. rewrite pageSize_request_options, Hmr.
  unfold maxRecords_default, pageSize_clamped, pageSize_default. simpl.
  split_and!.
  - by intros ->.
  - intros s -> Hs. simpl.
    destruct (decide (s = "")) as [->|Hne]; [done|].
    rewrite bool_decide_eq_false_2 by done. simpl. unfold js_or. simpl.
    rewrite bool_decide_eq_false_2 by done. simpl.
    destruct Hs as [?|[-> | ->]]; done.
  - intros s n -> Hne Hs Hn. simpl.
    rewrite bool_decide_eq_false_2 by done. simpl. unfold js_or. simpl.
    rewrite bool_decide_eq_false_2 by done. simpl. rewrite Hs. simpl.
    destruct (Z.eqb_spec n 0); [done|]. simpl. by rewrite Hs.
Qed.

Lemma listVideos_pageSize_witness :
  let req := {| params_pg := JUndefined; query_pageSize := JStr "500";
                query_maxRecords := JUndefined; query_createdAfter := JUndefined;
                query_modifiedAfter := JUndefined;
                url := "/videos/list?pageSize=500" |} in
  pageSize (request_options sample_env req None None) = Some 500%Z.
Proof.
  intros req.
  destruct (listVideos_pageSize sample_env req None None eq_refl) as (_ & _ & H).
  apply (H "500"); [reflexivity|discriminate|reflexivity|discriminate].
Defined.

(** The page size before [maxRecords] is looked at is a number other
    than zero. *)
Lemma pageSize_default_number E ps :
  ∃ n, ToNumber E (pageSize_default E ps) = Some n ∧ n ≠ 0%Z.
Proof.
  unfold pageSize_default.
  destruct (truthy ps) eqn:Hps; simpl; [|by exists 100%Z].
  unfold js_or. rewrite Hps.
  destruct (ToNumber E ps) as [n|] eqn:Hn; simpl; [|by exists 100%Z].
  destruct (Z.eqb_spec n 0); simpl; [by exists 100%Z|].
  exists n. by rewrite Hn.
Qed.

(** X8: [maxRecords].  When it is a number other than zero it is sent
    to Airtable, and the page size sent is the smaller of it and the
    page size of the request; when it is not a number, or zero, it is
    not sent and the page size is untouched.  The page size of the
    request itself is always a number other than zero. *)
Theorem listVideos_maxRecords (E : Env) (req : request) (ma ca : option Z)
    (sm : string) :
  query_maxRecords req = JStr sm →
  sm ≠ "" →
  ∃ n, ToNumber E (pageSize_default E (query_pageSize req)) = Some n
       ∧ n ≠ 0%Z
       ∧ (∀ m, StringToNumber E sm = Some m → m ≠ 0%Z →
               maxRecords (request_options E req ma ca) = Some (Some m)
               ∧ pageSize (request_options E req ma ca) = Some (Z.min m n))
       ∧ (StringToNumber E sm = None ∨ StringToNumber E sm = Some 0%Z →
          maxRecords (request_options E req ma ca) = None
          ∧ pageSize (request_options E req ma ca) = Some n).
Proof.
  intros Hmr Hne.
  destruct (pageSize_default_number E (query_pageSize req)) as (n & Hn & Hn0).
  exists n. split; [done|]. split; [done|].
  assert (Htr : truthy (JStr sm) = true).
  { simpl. by rewrite bool_decide_eq_false_2. }
  assert (Hdef : maxRecords_default E (JStr sm)
                 = if num_truthy (StringToNumber E sm) then JStr sm else JNull).
  { unfold maxRecords_default, js_or. rewrite Htr. cbn [ToNumber].
    by destruct (num_truthy _). }
  split.
  - intros m Hm Hm0.
    rewrite pageSize_request_options, maxRecords_request_options, Hmr, Hdef, Hm.
    simpl num_truthy. destruct (Z.eqb_spec m 0); [done|]. cbn [negb].
    rewrite Htr. cbn [ToNumber]. rewrite Hm. split; [done|].
    unfold pageSize_clamped. rewrite Htr. cbn [ToNumber andb]. rewrite Hm, Hn.
    simpl num_lt.
    destruct (Z.ltb_spec m n); cbn [ToNumber]; rewrite ?Hm, ?Hn; f_equal; lia.
  - intros Hm.
    rewrite pageSize_request_options, maxRecords_request_options, Hmr, Hdef.
    unfold pageSize_clamped.
    destruct Hm as [Hm|Hm]; rewrite Hm; simpl; by rewrite Hn.
Qed.

Lemma listVideos_maxRecords_witness :
  let req := {| params_pg := JUndefined; query_pageSize := JStr "50";
                query_maxRecords := JStr "20"; query_createdAfter := JUndefined;
                query_modifiedAfter := JUndefined;
                url := "/videos/list?pageSize=50&maxRecords=20" |} in
  maxRecords (request_options sample_env req None None) = Some (Some 20%Z)
  ∧ pageSize (request_options sample_env req None None) = Some 20%Z.
Proof.
  intros req.
  destruct (listVideos_maxRecords sample_env req None None "20" eq_refl)
    as (n & Hn & _ & H & _); [discriminate|].
  injection Hn as <-.
  apply (H 20%Z); [reflexivity|discriminate].
Defined.

(** X9: [updateVideos] with an empty array as body does nothing at
    all: no update is sent and the request is left without a response. *)
Theorem updateVideos_empty (fuel : nat) (body : loc) (w : world) :
  arrays w !! body = Some [] →
  updateVideos fuel body w = (Ok (), w).
Proof.
  intros Hbody. unfold updateVideos.
  unfold mbind, M_bind, read. by rewrite Hbody.
Qed.

Lemma updateVideos_empty_witness :
  let w := {| trace := []; cache := ∅; arrays := {[ 0%nat := [] ]} |} in
  updateVideos 0 0%nat w = (Ok (), w).
Proof.
  intros w. apply (updateVideos_empty 0 0%nat w). reflexivity.
Defined.

(** ** The rows *)

Lemma assoc_obj_get_None k (o : list (string * jsval)) :
  assoc k o = None → obj_get k o = JUndefined.
Proof. unfold obj_get. by intros ->. Qed.

(** X10: what [listVideos] puts in a row for fields the record does not
    have.  A missing running time comes out as the text ['NaN:NaN:NaN']
    (the text is truthy, so the [|| ''] after [formatDuration] does not
    apply); a missing date of addition comes out as [''], and so does a
    missing title; the presenters are the packaged pairs. *)
Theorem row_missing_fields (E : Env) (r : record) (fs ls : list jsval) :
  obj_get "Presenter First Name" r = JArr fs →
  obj_get "Presenter Last Name" r = JArr ls →
  iso8601_local E "undefined" = None →
  ∃ o, row E r = Ok (JObj o)
       ∧ obj_get "presenters" o
         = JArr (imap (fun i f => JObj [ ("firstName", f);
                                         ("lastName", default JUndefined (ls !! i)) ])
                      fs)
       ∧ (assoc "Running Time" r = None →
          obj_get "runningTime" o = JStr "NaN:NaN:NaN")
       ∧ (assoc "ISO Added" r = None → obj_get "accessDate" o = JStr "")
       ∧ (assoc "Title" r = None → obj_get "title" o = JStr "").
Proof.
  intros Hfs Hls Hiso. unfold row. rewrite Hfs, Hls, packageAuthors_arrays.
  eexists. split; [reflexivity|]. split_and!.
  - reflexivity.
  - intros H%assoc_obj_get_None. unfold obj_get at 1. simpl. by rewrite H.
  - intros H%assoc_obj_get_None. unfold obj_get at 1. simpl. rewrite H.
    unfold Util.formatDate. simpl. by rewrite Hiso.
  - intros H%assoc_obj_get_None. unfold obj_get at 1. simpl. by rewrite H.
Qed.

Lemma row_missing_fields_witness :
  ∃ o, row sample_env [ ("Presenter First Name", JArr [JStr "Jane"]);
                        ("Presenter Last Name", JArr [JStr "Doe"]) ] = Ok (JObj o)
       ∧ obj_get "runningTime" o = JStr "NaN:NaN:NaN"
       ∧ obj_get "accessDate" o = JStr ""
       ∧ obj_get "title" o = JStr "".
Proof.
  destruct (row_missing_fields sample_env
              [ ("Presenter First Name", JArr [JStr "Jane"]);
                ("Presenter Last Name", JArr [JStr "Doe"]) ]
              [JStr "Jane"] [JStr "Doe"])
    as (o & Hrow & _ & H1 & H2 & H3); [reflexivity..|].
  exists o. split; [exact Hrow|].
  split; [apply H1; reflexivity|]. split; [apply H2; reflexivity|apply H3; reflexivity].
Defined.

(** * Further properties of zotero.js *)

(** ** The requests to Zotero *)

(** X11: [getTemplate] never throws.  It sends one request; when the
    answer has a truthy [data] it returns it; on any failure it logs
    the error and returns [undefined]. *)
Theorem getTemplate_returns (S : Services) (w : world) :
  (∀ response data,
      target_get_template S (trace w) = inr response →
      get_prop response "data" = Ok data →
      truthy data = true →
      getTemplate S w = (Ok data, after (TargetGetTemplate "videoRecording") w))
  ∧ ∃ r w',
      getTemplate S w = (Ok r, w')
      ∧ ((truthy r = true ∧ w' = after (TargetGetTemplate "videoRecording") w)
         ∨ (r = JUndefined
            ∧ ∃ e, w' = after (ConsoleError e)
                          (after (TargetGetTemplate "videoRecording") w))).
Proof.
  assert (Hok : ∀ response data,
             target_get_template S (trace w) = inr response →
             get_prop response "data" = Ok data →
             truthy data = true →
             getTemplate S w = (Ok data, after (TargetGetTemplate "videoRecording") w)).
  { intros response data Hget Hdata Htruthy.
    unfold getTemplate, try_catch.
    unfold mbind at 1, M_bind at 1, zotero_get_template at 1. rewrite Hget.
    simpl awaited. cbv beta iota. rewrite Hdata, (bind_lift_ok data), Htruthy. done. }
  split; [exact Hok|].
  destruct (target_get_template S (trace w)) as [e|response] eqn:Hget.
  { eexists _, _. split.
    - unfold getTemplate, try_catch.
      unfold mbind at 1, M_bind at 1, zotero_get_template at 1. rewrite Hget.
      reflexivity.
    - right. split; [done|]. by exists e. }
  destruct (get_prop response "data") as [data|e|] eqn:Hdata.
  - destruct (truthy data) eqn:Htruthy.
    + eexists _, _. split; [by eapply Hok|]. left. done.
    + eexists _, _. split.
      * unfold getTemplate, try_catch.
        unfold mbind at 1, M_bind at 1, zotero_get_template at 1. rewrite Hget.
        simpl awaited. cbv beta iota. rewrite Hdata, (bind_lift_ok data), Htruthy.
        reflexivity.
      * right. split; [done|]. by eexists.
  - eexists _, _. split.
    + unfold getTemplate, try_catch.
      unfold mbind at 1, M_bind at 1, zotero_get_template at 1. rewrite Hget.
      simpl awaited. cbv beta iota. rewrite Hdata. reflexivity.
    + right. split; [done|]. by exists e.
  - by destruct (get_prop_total response "data").
Qed.

Lemma getTemplate_returns_witness :
  getTemplate (sample_services [] None) empty_world
  = (Ok (JObj [ ("itemType", JStr "videoRecording"); ("title", JStr "") ]),
     after (TargetGetTemplate "videoRecording") empty_world).
Proof.
  destruct (getTemplate_returns (sample_services [] None) empty_world) as [H _].
  apply (H (JObj [ ("data", JObj [ ("itemType", JStr "videoRecording");
                                   ("title", JStr "") ]) ]));
    reflexivity.
Defined.

(** X12: [postItems] never throws and posts its items once.  When
    Zotero rejects the request it logs the error and returns
    [undefined]; when Zotero answers, it returns the values of
    [successful], [unchanged] and [failed], and writes [failed.json],
    with the [failed] object as it came, exactly when there is a failed
    item. *)
Theorem postItems_outcomes (S : Services) (c : list jsval) (w : world) :
  (∃ r w', postItems S c w = (Ok r, w')
           ∧ posts (trace w') = posts (trace w) ++ [("items", JArr c)])
  ∧ (∀ e, target_post S (trace w) "items" (JArr c) = inl e →
          postItems S c w
          = (Ok None, after (ConsoleError e) (after (TargetPost "items" (JArr c)) w)))
  ∧ (∀ response data s u failedObj f,
        target_post S (trace w) "items" (JArr c) = inr response →
        get_prop response "data" = Ok data →
        get_prop data "successful" ≫= Object_values = Ok s →
        get_prop data "unchanged" ≫= Object_values = Ok u →
        get_prop data "failed" = Ok failedObj →
        Object_values failedObj = Ok f →
        postItems S c w
        = (Ok (Some {| successful := s; unchanged := u; failed := f |}),
           match f with
           | [] => after (TargetPost "items" (JArr c)) w
           | _ :: _ => after (FileWrite "failed.json" failedObj)
                         (after (TargetPost "items" (JArr c)) w)
           end)).
Proof.
  split_and!.
  - destruct (try_catch_returns
                (response ← zoteroLibrary_post S "items" (JArr c);
                 data ← lift (get_prop response "data");
                 s ← lift (get_prop data "successful" ≫= Object_values);
                 u ← lift (get_prop data "unchanged" ≫= Object_values);
                 f ← lift (get_prop data "failed" ≫= Object_values);
                 _ ← (if bool_decide (0 < length f)%nat
                      then failedItems ← lift (get_prop data "failed");
                           emit (FileWrite "failed.json" failedItems)
                      else mret ());
                 mret (Some {| successful := s; unchanged := u; failed := f |}))
                (fun err => _ ← console_error err; mret None) w)
      as (r & w' & Hrun).
    + repeat total_step. apply total_zoteroLibrary_post.
    + intros e w1. by eexists _, _.
    + exists r, w'. split; [exact Hrun|]. by eapply postItems_posts.
  - intros e Hpost. unfold postItems, try_catch.
    unfold mbind at 1, M_bind at 1, zoteroLibrary_post at 1. by rewrite Hpost.
  - intros response data s u failedObj f Hpost Hdata Hs Hu Hfo Hf.
    unfold postItems, try_catch.
    unfold mbind at 1, M_bind at 1, zoteroLibrary_post at 1. rewrite Hpost.
    simpl awaited. cbv beta iota.
    rewrite Hdata, (bind_lift_ok data), Hs, (bind_lift_ok s), Hu, (bind_lift_ok u).
    rewrite Hfo, outcome_bind_ok, Hf, (bind_lift_ok f).
    destruct f as [|x f].
    + rewrite bool_decide_eq_false_2 by (simpl; lia). done.
    + rewrite bool_decide_eq_true_2 by (simpl; lia).
      unfold mbind, M_bind, lift, emit. done.
Qed.

Lemma postItems_outcomes_witness :
  let rejected := JObj [ ("data",
                    JObj [ ("successful", JObj []); ("unchanged", JObj []);
                           ("failed", JObj [ ("0", JObj [ ("code", JNum 412) ]) ]) ]) ] in
  let S := {| source_select := source_select (sample_services [] None);
              target_post := fun _ _ _ => inr rejected;
              target_get_template := fun _ => inl (Error "no template") |} in
  postItems S [JNum 1] empty_world
  = (Ok (Some {| successful := []; unchanged := [];
                 failed := [ JObj [ ("code", JNum 412) ] ] |}),
     after (FileWrite "failed.json" (JObj [ ("0", JObj [ ("code", JNum 412) ]) ]))
       (after (TargetPost "items" (JArr [JNum 1])) empty_world)).
Proof.
  intros rejected S.
  destruct (postItems_outcomes S [JNum 1] empty_world) as (_ & _ & H).
  apply (H rejected
           (JObj [ ("successful", JObj []); ("unchanged", JObj []);
                   ("failed", JObj [ ("0", JObj [ ("code", JNum 412) ]) ]) ])
           [] [] (JObj [ ("0", JObj [ ("code", JNum 412) ]) ])
           [ JObj [ ("code", JNum 412) ] ]);
    reflexivity.
Defined.

(** [createCollection] under a recognized parent. *)
Lemma createCollection_run S name parent w id :
  (parent = JStr "series" ∧ id = "HYQEFRGR")
  ∨ (parent = JStr "topics" ∧ id = "EGB8TQZ8") →
  createCollection S name parent w
  = match target_post S (trace w) "collections"
            (JArr [ JObj [ ("name", name); ("parentCollection", JStr id) ] ]) with
    | inr response =>
        (Ok response,
         after (TargetPost "collections"
                  (JArr [ JObj [ ("name", name); ("parentCollection", JStr id) ] ])) w)
    | inl e =>
        (Ok JUndefined,
         after (ConsoleError e)
           (after (TargetPost "collections"
                     (JArr [ JObj [ ("name", name); ("parentCollection", JStr id) ] ])) w))
    end.
Proof.
  intros Hid.
  assert (Hget : Map_get collections parent = JStr id).
  { rewrite Map_get_collections. by destruct Hid as [[-> ->]|[-> ->]]. }
  assert (Htr : truthy (JStr id) = true) by (by destruct Hid as [[_ ->]|[_ ->]]).
  unfold createCollection, try_catch. rewrite Hget, Htr.
  unfold zoteroLibrary_post.
  by destruct (target_post S (trace w) "collections" _).
Qed.

(** X13: [createCollection] never throws.  For a recognized parent it
    returns the response of Zotero as it is; when Zotero rejects the
    request it logs the error and returns [undefined]. *)
Theorem createCollection_returns (S : Services) (name parent : jsval) (w : world)
    (id : string) :
  (parent = JStr "series" ∧ id = "HYQEFRGR")
  ∨ (parent = JStr "topics" ∧ id = "EGB8TQZ8") →
  let body := JArr [ JObj [ ("name", name); ("parentCollection", JStr id) ] ] in
  (∀ response, target_post S (trace w) "collections" body = inr response →
     createCollection S name parent w
     = (Ok response, after (TargetPost "collections" body) w))
  ∧ (∀ e, target_post S (trace w) "collections" body = inl e →
       createCollection S name parent w
       = (Ok JUndefined,
          after (ConsoleError e) (after (TargetPost "collections" body) w)))
  ∧ ∃ r w', createCollection S name parent w = (Ok r, w').
Proof.
  intros Hid body. rewrite (createCollection_run S name parent w id Hid). fold body.
  split_and!.
  - by intros response ->.
  - by intros e ->.
  - destruct (target_post S (trace w) "collections" body); by eexists _, _.
Qed.

Lemma createCollection_returns_witness :
  let S := {| source_select := source_select (sample_services [] None);
              target_post := fun _ _ _ => inl (Error "Request failed with status code 403");
              target_get_template := fun _ => inl (Error "no template") |} in
  let body := JArr [ JObj [ ("name", JStr "Deep Time");
                            ("parentCollection", JStr "HYQEFRGR") ] ] in
  createCollection S (JStr "Deep Time") (JStr "series") empty_world
  = (Ok JUndefined,
     after (ConsoleError (Error "Request failed with status code 403"))
       (after (TargetPost "collections" body) empty_world)).
Proof.
  intros S body.
  destruct (createCollection_returns S (JStr "Deep Time") (JStr "series") empty_world
              "HYQEFRGR") as (_ & H & _).
  - left. split; reflexivity.
  - apply (H (Error "Request failed with status code 403")). reflexivity.
Defined.

(** ** updateTable *)

(** [updateTable] once the first item has readable fields. *)
Lemma updateTable_run fuel (items : list jsval) table w vals :
  (i0 ← get_index (JArr items) 0; fs ← get_prop i0 "fields"; Object_values fs) = Ok vals →
  items ≠ [] →
  (length (chunks 50 items) ≤ fuel)%nat →
  updateTable fuel items table w
  = (Ok (Some (fresh (dom (arrays w)))),
     {| trace := trace w ++ (SourceUpdate <$> chunks 50 items);
        cache := cache w;
        arrays := <[fresh (dom (<[fresh (dom (arrays w)):=items]> (arrays w))):=[]]>
                    (<[fresh (dom (arrays w)):=items]> (arrays w)) |}).
Proof.
  intros Hlog Hne Hfuel. unfold updateTable.
  unfold mbind at 1, M_bind at 1, lift at 1. rewrite Hlog.
  unfold mbind at 1, M_bind at 1, alloc at 1.
  unfold try_catch.
  set (a := fresh (dom (arrays w))).
  set (w1 := {| trace := trace w; cache := cache w;
                arrays := <[a:=items]> (arrays w) |}).
  unfold mbind at 1, M_bind at 1.
  rewrite (processUpdates_spec fuel a items w1); [|apply lookup_insert_eq|done].
  unfold mbind at 1, M_bind at 1, read at 1. cbn [arrays trace cache].
  subst w1. cbn [arrays trace cache].
  rewrite lookup_insert_ne.
  2:{ intros Heq. eapply (is_fresh (dom (<[a:=items]> (arrays w)))).
      rewrite Heq. apply elem_of_dom. rewrite lookup_insert_eq. by eexists. }
  rewrite lookup_insert_eq.
  rewrite bool_decide_eq_true_2 by (destruct items; [done|simpl; lia]).
  done.
Qed.

(** X14: [updateTable] reads [items[0].fields] for its log line before
    its [try]: on an empty array, or when the first item is [null] or
    has no fields, it throws [TypeError] and sends nothing. *)
Theorem updateTable_unreadable (fuel : nat) (items : list jsval) (table : string)
    (w : world) :
  items = []
  ∨ (∃ rest, items = JNull :: rest)
  ∨ (∃ o rest, items = JObj o :: rest ∧ assoc "fields" o = None) →
  updateTable fuel items table w = (Throw TypeError, w).
Proof.
  intros Hitems. unfold updateTable.
  assert (Hlog : (i0 ← get_index (JArr items) 0; fs ← get_prop i0 "fields";
                  Object_values fs) = Throw TypeError).
  { destruct Hitems as [->|[[rest ->]|(o & rest & -> & Hf)]]; try done.
    simpl. unfold obj_get. by rewrite Hf. }
  unfold mbind at 1, M_bind at 1, lift at 1. by rewrite Hlog.
Qed.

Lemma updateTable_unreadable_witness :
  updateTable 1 [] "Videos" empty_world = (Throw TypeError, empty_world).
Proof.
  apply (updateTable_unreadable 1 [] "Videos" empty_world). by left.
Defined.

(** X15: [updateTable] on a batch whose first item has fields sends
    the chunks of the batch to Airtable, in order, and returns an array
    that holds the batch; the name of the table has no effect. *)
Theorem updateTable_sends (fuel : nat) (items : list jsval) (table : string)
    (w : world) (o fields : list (string * jsval)) (rest : list jsval) :
  items = JObj o :: rest →
  obj_get "fields" o = JObj fields →
  (length (chunks 50 items) ≤ fuel)%nat →
  ∃ a w', updateTable fuel items table w = (Ok (Some a), w')
          ∧ arrays w' !! a = Some items
          ∧ trace w' = trace w ++ (SourceUpdate <$> chunks 50 items)
          ∧ ∀ table', updateTable fuel items table' w = (Ok (Some a), w').
Proof.
  intros Hitems Hfields Hfuel.
  assert (Hlog : (i0 ← get_index (JArr items) 0; fs ← get_prop i0 "fields";
                  Object_values fs) = Ok (fields.*2)).
  { rewrite Hitems. simpl. by rewrite Hfields. }
  assert (Hne : items ≠ []) by (by rewrite Hitems).
  eexists _, _. split; [by eapply updateTable_run|]. cbn [arrays trace cache].
  split_and!; [|done|].
  - rewrite lookup_insert_ne; [apply lookup_insert_eq|].
    intros Heq. eapply (is_fresh (dom (<[fresh (dom (arrays w)):=items]> (arrays w)))).
    rewrite Heq. apply elem_of_dom. rewrite lookup_insert_eq. by eexists.
  - intros table'. by eapply updateTable_run.
Qed.

Lemma updateTable_sends_witness :
  ∃ a w', updateTable 3 sample_batch "Series" empty_world = (Ok (Some a), w')
          ∧ arrays w' !! a = Some sample_batch
          ∧ updates (trace w') = chunks 50 sample_batch.
Proof.
  destruct (updateTable_sends 3 sample_batch "Series" empty_world
              [ ("id", JStr "rec0"); ("fields", JObj [ ("Zotero Version", JNum 1) ]) ]
              [ ("Zotero Version", JNum 1) ] (drop 1 sample_batch))
    as (a & w' & Hrun & Harr & Ht & _); [reflexivity|reflexivity|vm_compute; lia|].
  exists a, w'. split; [exact Hrun|]. split; [exact Harr|].
  rewrite Ht. apply updates_SourceUpdate.
Defined.

(** ** formatItems: collections and the template *)

Lemma payload_of_collections E v template cs :
  assoc "collections" (payload_of E v template cs) = Some (JArr (topic_collections v)).
Proof.
  unfold payload_of, topic_collections. cbv zeta.
  destruct (truthy (js_and _ _)).
  - rewrite !assoc_obj_set.
    destruct (decide ("collections" = "version")); [discriminate|].
    destruct (decide ("collections" = "key")); [discriminate|].
    rewrite assoc_obj_literal.
    match goal with
    | |- context [assoc ?k (reverse ?l)] =>
        replace (assoc k (reverse l))
          with (Some (if truthy (Map_get topics (obj_get "topic" v))
                      then JArr [Map_get topics (obj_get "topic" v)] else JArr []))
          by reflexivity
    end. by destruct (truthy _).
  - rewrite assoc_obj_literal.
    match goal with
    | |- context [assoc ?k (reverse ?l)] =>
        replace (assoc k (reverse l))
          with (Some (if truthy (Map_get topics (obj_get "topic" v))
                      then JArr [Map_get topics (obj_get "topic" v)] else JArr []))
          by reflexivity
    end. by destruct (truthy _).
Qed.

Lemma assoc_push_collection_eq x payload cs :
  assoc "collections" payload = Some (JArr cs) →
  assoc "collections" (push_collection x payload) = Some (JArr (cs ++ [x])).
Proof.
  intros H. unfold push_collection, obj_get. rewrite H. simpl.
  rewrite assoc_obj_set. by destruct (decide ("collections" = "collections")).
Qed.

Lemma topic_collections_presenters ps v :
  topic_collections (obj_set "presenters" ps v) = topic_collections v.
Proof. unfold topic_collections. by rewrite obj_get_obj_set_ne. Qed.

(** X16: a video without series, or with a series whose collection key
    it already carries ([zoteroSeries]), is formatted without any
    request: the world is left as it was.  The [collections] of the
    payload are the collection of the topic, when the topic is one of
    the table, followed by the series key when there is one. *)
Theorem formatItems_without_request (E : Env) (S : Services) (fuel : nat)
    (v : list (string * jsval)) (template : jsval) (w : world) (fs ls : list jsval) :
  obj_get "presentersFirstName" v = JArr fs →
  obj_get "presentersLastName" v = JArr ls →
  truthy (obj_get "series" v) = false ∨ truthy (obj_get "zoteroSeries" v) = true →
  ∃ payload,
    formatItems E S fuel (JObj v) template w = (Ok (JObj payload), w)
    ∧ assoc "collections" payload
      = Some (JArr (topic_collections v
                    ++ (if truthy (obj_get "series" v)
                        then [obj_get "zoteroSeries" v] else []))).
Proof.
  intros Hfs Hls Hcase.
  rewrite (formatItems_packaged E S fuel v template fs ls w Hfs Hls).
  unfold resolve_series. rewrite !obj_get_obj_set_ne by discriminate.
  destruct (truthy (obj_get "series" v)) eqn:Hseries.
  - destruct Hcase as [?|Hz]; [done|]. rewrite Hz.
    eexists. split; [reflexivity|].
    erewrite assoc_push_collection_eq; [|apply payload_of_collections].
    by rewrite topic_collections_presenters.
  - eexists. split; [reflexivity|].
    by rewrite payload_of_collections, topic_collections_presenters, app_nil_r.
Qed.

Lemma formatItems_without_request_witness :
  let video := obj_set "zoteroSeries" (JStr "SER1ESKY")
                 (obj_set "series" (JStr "Geology 101")
                    (obj_set "topic" (JStr "The Anthropocene") (spread sample_video))) in
  ∃ payload,
    formatItems sample_env (sample_services [] None) 0 (JObj video) sample_template
      empty_world = (Ok (JObj payload), empty_world)
    ∧ assoc "collections" payload = Some (JArr [JStr "P2WNJD9N"; JStr "SER1ESKY"]).
Proof.
  intros video.
  destruct (formatItems_without_request sample_env (sample_services [] None) 0 video
              sample_template empty_world [JStr "Jane"] [JStr "Doe"])
    as (payload & Hrun & Hc); [reflexivity|reflexivity|by right|].
  exists payload. split; [exact Hrun|]. exact Hc.
Defined.

(** X17: a video with a series and no key for it.  [formatItems] posts
    one collection named after the series under the fixed parent of
    series; when Zotero answers with a key, the key is added to the
    [collections] of the payload and written back to Airtable in one
    update, as ['Zotero Key'] of the record [seriesId]. *)
Theorem formatItems_creates_series (E : Env) (S : Services) (fuel : nat)
    (v : list (string * jsval)) (template : jsval) (w : world) (fs ls : list jsval)
    (response data success key : jsval) (vals : list jsval) :
  obj_get "presentersFirstName" v = JArr fs →
  obj_get "presentersLastName" v = JArr ls →
  truthy (obj_get "series" v) = true →
  truthy (obj_get "zoteroSeries" v) = false →
  (1 ≤ fuel)%nat →
  let body := JArr [ JObj [ ("name", obj_get "series" v);
                            ("parentCollection", JStr "HYQEFRGR") ] ] in
  let patch := JObj [ ("id", obj_get "seriesId" v);
                      ("fields", JObj [ ("Zotero Key", key) ]) ] in
  target_post S (trace w) "collections" body = inr response →
  get_prop response "data" = Ok data →
  get_prop data "success" = Ok success →
  truthy success = true →
  Object_values success = Ok vals →
  vals ≠ [] →
  get_index success 0 = Ok key →
  ∃ payload w',
    formatItems E S fuel (JObj v) template w = (Ok (JObj payload), w')
    ∧ trace w' = trace w ++ [ TargetPost "collections" body; SourceUpdate [patch] ]
    ∧ assoc "collections" payload = Some (JArr (topic_collections v ++ [key])).
Proof.
  intros Hfs Hls Hseries Hzs Hfuel body patch Hpost Hdata Hsuccess Htruthy Hvals Hne Hkey.
  rewrite (formatItems_packaged E S fuel v template fs ls w Hfs Hls).
  unfold resolve_series. rewrite !obj_get_obj_set_ne by discriminate.
  rewrite Hseries, Hzs.
  unfold mbind at 1, M_bind at 1. unfold mbind at 1, M_bind at 1.
  unfold try_catch at 1.
  unfold mbind at 1, M_bind at 1.
  rewrite (createCollection_run S _ (JStr "series") w "HYQEFRGR") by (by left).
  fold body. rewrite Hpost. cbv beta iota.
  rewrite Hdata, (bind_lift_ok data), Hsuccess, (bind_lift_ok success).
  rewrite Htruthy, Hvals, (bind_lift_ok vals).
  rewrite bool_decide_eq_true_2 by (destruct vals; [done|simpl; lia]).
  cbn [andb]. unfold fmap at 1, M_fmap at 1, lift at 1. rewrite Hkey.
  cbn [fmap outcome_fmap]. cbv beta iota.
  unfold mbind at 1, M_bind at 1. unfold try_catch at 1.
  unfold mbind at 1, M_bind at 1.
  fold patch.
  erewrite (updateTable_run fuel [patch] "Series"); [|reflexivity|done|simpl; lia].
  cbv beta iota. unfold mret at 1, M_ret at 1. cbv beta iota.
  eexists _, _. split; [reflexivity|]. cbn [trace after].
  split; [by rewrite <- app_assoc|].
  erewrite assoc_push_collection_eq; [|apply payload_of_collections].
  by rewrite topic_collections_presenters.
Qed.

Lemma formatItems_creates_series_witness :
  let video := obj_set "seriesId" (JStr "recS1e2r3i4e5s6I7")
                 (obj_set "series" (JStr "Geology 101") (spread sample_video)) in
  ∃ payload w',
    formatItems sample_env (sample_services [] None) 1 (JObj video) sample_template
      empty_world = (Ok (JObj payload), w')
    ∧ trace w'
      = [ TargetPost "collections"
            (JArr [ JObj [ ("name", JStr "Geology 101");
                           ("parentCollection", JStr "HYQEFRGR") ] ]);
          SourceUpdate [ JObj [ ("id", JStr "recS1e2r3i4e5s6I7");
                                ("fields", JObj [ ("Zotero Key", JStr "K0") ]) ] ] ]
    ∧ assoc "collections" payload = Some (JArr [JStr "K0"]).
Proof.
  intros video.
  destruct (formatItems_creates_series sample_env (sample_services [] None) 1 video
              sample_template empty_world [JStr "Jane"] [JStr "Doe"]
              (default JNull
                 (match sample_target_post [] "collections"
                          (JArr [ JObj [ ("name", JStr "Geology 101");
                                         ("parentCollection", JStr "HYQEFRGR") ] ]) with
                  | inr r => Some r | inl _ => None end))
              (JObj [ ("successful",
                       JObj [ ("0", JObj [ ("key", JStr "K0"); ("version", JNum 1);
                                           ("data", JObj [ ("name", JStr "Geology 101");
                                                           ("parentCollection", JStr "HYQEFRGR") ]) ]) ]);
                      ("success", JObj [ ("0", JStr "K0") ]);
                      ("unchanged", JObj []); ("failed", JObj []) ])
              (JObj [ ("0", JStr "K0") ]) (JStr "K0") [JStr "K0"])
    as (payload & w' & Hrun & Ht & Hc);
    [reflexivity|reflexivity|reflexivity|reflexivity|lia|reflexivity|reflexivity
    |reflexivity|reflexivity|reflexivity|discriminate|reflexivity|].
  exists payload, w'. split; [exact Hrun|]. split; [exact Ht|exact Hc].
Defined.

(** X18: when Zotero rejects the creation of the series collection,
    [formatItems] still returns its payload, without a series
    collection; the rejection is logged, and so is the [TypeError] of
    reading [data] from the [undefined] that [createCollection]
    returned; nothing is written to Airtable. *)
Theorem formatItems_series_rejected (E : Env) (S : Services) (fuel : nat)
    (v : list (string * jsval)) (template : jsval) (w : world) (fs ls : list jsval)
    (e : exn) :
  obj_get "presentersFirstName" v = JArr fs →
  obj_get "presentersLastName" v = JArr ls →
  truthy (obj_get "series" v) = true →
  truthy (obj_get "zoteroSeries" v) = false →
  let body := JArr [ JObj [ ("name", obj_get "series" v);
                            ("parentCollection", JStr "HYQEFRGR") ] ] in
  target_post S (trace w) "collections" body = inl e →
  ∃ payload w',
    formatItems E S fuel (JObj v) template w = (Ok (JObj payload), w')
    ∧ trace w' = trace w ++ [ TargetPost "collections" body;
                              ConsoleError e; ConsoleError TypeError ]
    ∧ assoc "collections" payload = Some (JArr (topic_collections v)).
Proof.
  intros Hfs Hls Hseries Hzs body Hpost.
  rewrite (formatItems_packaged E S fuel v template fs ls w Hfs Hls).
  unfold resolve_series. rewrite !obj_get_obj_set_ne by discriminate.
  rewrite Hseries, Hzs.
  unfold mbind at 1, M_bind at 1. unfold mbind at 1, M_bind at 1.
  unfold try_catch at 1.
  unfold mbind at 1, M_bind at 1.
  rewrite (createCollection_run S _ (JStr "series") w "HYQEFRGR") by (by left).
  fold body. rewrite Hpost. cbv beta iota.
  simpl get_prop. unfold lift at 1, mbind at 1, M_bind at 1. cbv beta iota.
  unfold console_error, mbind, M_bind, emit. cbn [trace cache arrays after].
  eexists _, _. split; [reflexivity|]. cbn [trace].
  split; [unfold after; cbn [trace]; by rewrite <- !app_assoc|].
  by rewrite payload_of_collections, topic_collections_presenters.
Qed.

Lemma formatItems_series_rejected_witness :
  let S := {| source_select := source_select (sample_services [] None);
              target_post := fun _ _ _ => inl (Error "Request failed with status code 403");
              target_get_template := fun _ => inl (Error "no template") |} in
  let video := obj_set "series" (JStr "Geology 101") (spread sample_video) in
  ∃ payload w',
    formatItems sample_env S 0 (JObj video) sample_template empty_world
    = (Ok (JObj payload), w')
    ∧ trace w'
      = [ TargetPost "collections"
            (JArr [ JObj [ ("name", JStr "Geology 101");
                           ("parentCollection", JStr "HYQEFRGR") ] ]);
          ConsoleError (Error "Request failed with status code 403");
          ConsoleError TypeError ]
    ∧ assoc "collections" payload = Some (JArr []).
Proof.
  intros S video.
  destruct (formatItems_series_rejected sample_env S 0 video sample_template
              empty_world [JStr "Jane"] [JStr "Doe"]
              (Error "Request failed with status code 403"))
    as (payload & w' & Hrun & Ht & Hc); [reflexivity..|].
  exists payload, w'. split; [exact Hrun|]. split; [exact Ht|exact Hc].
Defined.

(** X19: once the presenters are packaged, [formatItems] returns a
    payload whatever Zotero and Airtable answer: every failure of the
    series branch is caught and logged.  The answers can only show in
    [collections]: all the other fields are the same under any two
    services, and from any two worlds. *)
Theorem formatItems_swallows_failures (E : Env) (S1 S2 : Services) (fuel : nat)
    (v : list (string * jsval)) (template : jsval) (w1 w2 : world)
    (fs ls : list jsval) :
  obj_get "presentersFirstName" v = JArr fs →
  obj_get "presentersLastName" v = JArr ls →
  (1 ≤ fuel)%nat →
  ∃ payload1 payload2 w1' w2',
    formatItems E S1 fuel (JObj v) template w1 = (Ok (JObj payload1), w1')
    ∧ formatItems E S2 fuel (JObj v) template w2 = (Ok (JObj payload2), w2')
    ∧ ∀ k, k ≠ "collections" → assoc k payload1 = assoc k payload2.
Proof.
  intros Hfs Hls Hfuel.
  rewrite (formatItems_packaged E S1 fuel v template fs ls w1 Hfs Hls).
  rewrite (formatItems_packaged E S2 fuel v template fs ls w2 Hfs Hls).
  match goal with
  | |- context [resolve_series E S1 fuel ?v' ?p] =>
      destruct (resolve_series_returns E S1 fuel v' p w1 Hfuel) as (p1 & w1' & Hr1 & Hf1);
      destruct (resolve_series_returns E S2 fuel v' p w2 Hfuel) as (p2 & w2' & Hr2 & Hf2)
  end.
  unfold mbind, M_bind. rewrite Hr1, Hr2.
  exists p1, p2, w1', w2'. split; [done|]. split; [done|].
  intros k Hk. by rewrite Hf1, Hf2.
Qed.

Lemma formatItems_swallows_failures_witness :
  let S := {| source_select := source_select (sample_services [] None);
              target_post := fun _ _ _ => inl (Error "Request failed with status code 403");
              target_get_template := fun _ => inl (Error "no template") |} in
  let video := obj_set "series" (JStr "Geology 101") (spread sample_video) in
  ∃ payload1 payload2 w1' w2',
    formatItems sample_env S 1 (JObj video) sample_template empty_world
    = (Ok (JObj payload1), w1')
    ∧ formatItems sample_env (sample_services [] None) 1 (JObj video) sample_template
        batch_world = (Ok (JObj payload2), w2')
    ∧ assoc "title" payload1 = assoc "title" payload2.
Proof.
  intros S video.
  destruct (formatItems_swallows_failures sample_env S (sample_services [] None) 1
              video sample_template empty_world batch_world [JStr "Jane"] [JStr "Doe"])
    as (p1 & p2 & w1' & w2' & H1 & H2 & H3); [reflexivity|reflexivity|lia|].
  exists p1, p2, w1', w2'. split; [exact H1|]. split; [exact H2|].
  apply H3. discriminate.
Defined.

Lemma assoc_not_in k (l : list (string * jsval)) : k ∉ l.*1 → assoc k l = None.
Proof.
  induction l as [|[k' x] l IH]; simpl; [done|].
  intros Hk. apply not_elem_of_cons in Hk as [Hne Hk].
  rewrite decide_False by done. by apply IH.
Qed.

Lemma payload_of_other E v template cs k :
  k ∉ payload_fields → k ≠ "key" → k ≠ "version" →
  assoc k (payload_of E v template cs) = assoc k (spread template).
Proof.
  intros Hk Hkey Hversion.
  assert (Hlit : ∀ fields : list (string * jsval),
             fields.*1 = payload_fields →
             assoc k (obj_literal (spread template) fields) = assoc k (spread template)).
  { intros fields Hfields. rewrite assoc_obj_literal, assoc_not_in; [done|].
    rewrite fmap_reverse, Hfields. by rewrite elem_of_reverse. }
  unfold payload_of. cbv zeta.
  destruct (truthy (js_and _ _)).
  - rewrite !assoc_obj_set.
    destruct (decide (k = "version")); [done|].
    destruct (decide (k = "key")); [done|].
    by apply Hlit.
  - by apply Hlit.
Qed.

Lemma payload_of_itemType E v template cs :
  assoc "itemType" (payload_of E v template cs) = Some (JStr "videoRecording").
Proof.
  unfold payload_of. cbv zeta.
  destruct (truthy (js_and _ _)).
  - rewrite !assoc_obj_set.
    destruct (decide ("itemType" = "version")); [discriminate|].
    destruct (decide ("itemType" = "key")); [discriminate|].
    rewrite assoc_obj_literal.
    match goal with
    | |- context [assoc ?k (reverse ?l)] =>
        replace (assoc k (reverse l)) with (Some (JStr "videoRecording")) by reflexivity
    end. done.
  - rewrite assoc_obj_literal.
    match goal with
    | |- context [assoc ?k (reverse ?l)] =>
        replace (assoc k (reverse l)) with (Some (JStr "videoRecording")) by reflexivity
    end. done.
Qed.

(** X20: the payload and the template.  Every field of the template
    that [formatItems] does not set itself is carried into the payload
    unchanged, and [itemType] is ['videoRecording'] whatever the
    template says; with the [undefined] that [getTemplate] returns on
    failure, the payload has no field besides its own. *)
Theorem formatItems_template (E : Env) (S : Services) (fuel : nat)
    (v : list (string * jsval)) (template : jsval) (w : world)
    (p : jsval) (w' : world) :
  formatItems E S fuel (JObj v) template w = (Ok p, w') →
  ∃ payload,
    p = JObj payload
    ∧ assoc "itemType" payload = Some (JStr "videoRecording")
    ∧ (∀ k, k ∉ payload_fields → k ≠ "key" → k ≠ "version" →
            assoc k payload = assoc k (spread template))
    ∧ (template = JUndefined →
       ∀ k, k ∉ payload_fields → k ≠ "key" → k ≠ "version" → assoc k payload = None).
Proof.
  intros Hrun.
  apply formatItems_inv in Hrun as (presenters & cs & payload & _ & _ & -> & Hrs).
  exists payload. split; [done|].
  pose proof (resolve_series_fields _ _ _ _ _ _ _ _ Hrs) as Hfields.
  assert (Hother : ∀ k, k ∉ payload_fields → k ≠ "key" → k ≠ "version" →
                        assoc k payload = assoc k (spread template)).
  { intros k Hk Hkey Hversion.
    rewrite Hfields by (intros ->; apply Hk; by apply (bool_decide_unpack _)).
    by apply payload_of_other. }
  split_and!.
  - rewrite Hfields by discriminate. apply payload_of_itemType.
  - exact Hother.
  - intros -> k Hk Hkey Hversion. by rewrite Hother.
Qed.

Lemma formatItems_template_witness :
  let template := JObj [ ("itemType", JStr "book"); ("dateAdded", JStr "2021-01-01") ] in
  ∃ payload w',
    formatItems sample_env (sample_services [] None) 1 sample_video template
      empty_world = (Ok (JObj payload), w')
    ∧ assoc "itemType" payload = Some (JStr "videoRecording")
    ∧ assoc "dateAdded" payload = Some (JStr "2021-01-01").
Proof.
  intros template.
  destruct (formatItems sample_env (sample_services [] None) 1 sample_video template
              empty_world) as [p w'] eqn:Hrun.
  assert (Hok : ∃ q, p = Ok q) by (vm_compute in Hrun; injection Hrun as <- _; by eexists).
  destruct Hok as [q ->].
  destruct (formatItems_template sample_env (sample_services [] None) 1 _ template
              empty_world q w' Hrun) as (payload & -> & Hit & Hother & _).
  exists payload, w'. split; [reflexivity|]. split; [exact Hit|].
  rewrite Hother; [reflexivity|by apply (bool_decide_unpack _)|discriminate|discriminate].
Defined.

(** ** The pattern of syncItems *)

Lemma words_then_end_inv n s :
  words_then_end n s = true →
  Forall (fun c => word_char c = true) (String.list_ascii_of_string s).
Proof.
  revert s. induction n as [|n IH]; intros [|c s]; simpl; try done.
  intros [Hc H]%andb_prop. constructor; [done|]. by apply IH.
Qed.

Lemma record_id_match_here id : match_here id = true → record_id id.
Proof.
  intros (r & -> & H)%match_here_inv. exists r. split; [done|].
  split; [by apply words_then_end_length|by eapply words_then_end_inv].
Qed.

Lemma regex_match_inv s m :
  regex_match s = Some m → ∃ prefix, s = prefix +:+ m ∧ match_here m = true.
Proof.
  induction s as [|c s IH].
  - simpl. discriminate.
  - change (regex_match (String c s))
      with (if match_here (String c s) then Some (String c s) else regex_match s).
    destruct (match_here (String c s)) eqn:Hm.
    + intros [= <-]. by exists "".
    + intros (prefix & -> & H)%IH. by exists (String c prefix).
Qed.

(** The pattern finds [m] exactly when [m] is a record identifier that
    ends [s]. *)
Lemma regex_match_iff (s m : string) :
  regex_match s = Some m ↔ ∃ prefix, s = prefix +:+ m ∧ record_id m.
Proof.
  split.
  - intros (prefix & -> & H)%regex_match_inv. exists prefix.
    split; [done|by apply record_id_match_here].
  - intros (prefix & -> & H). by apply regex_match_suffix, match_here_record_id.
Qed.

(** X21: the patch instruction of a posted item.  When a record
    identifier ends [item.data.archiveLocation], whatever comes before
    it, the instruction carries that identifier with the [key] and the
    [version] of the item; when [archiveLocation] is not a string that
    ends in a record identifier, building the instruction throws a
    [TypeError]. *)
Theorem itemToSync_spec (item data a : jsval) :
  get_prop item "data" = Ok data →
  get_prop data "archiveLocation" = Ok a →
  (∀ prefix id, a = JStr (prefix +:+ id) → record_id id →
     ∃ key version,
       get_prop item "key" = Ok key ∧ get_prop item "version" = Ok version
       ∧ itemToSync item
         = Ok (JObj [ ("id", JStr id);
                      ("fields", JObj [ ("Zotero Key", key);
                                        ("Zotero Version", version) ]) ]))
  ∧ ((∀ prefix id, a = JStr (prefix +:+ id) → ¬ record_id id) →
     itemToSync item = Throw TypeError).
Proof.
  intros Hdata Ha. split.
  - intros prefix id -> Hid.
    assert (∃ key, get_prop item "key" = Ok key) as [key Hkey]
      by (destruct item; try done; by eexists).
    assert (∃ version, get_prop item "version" = Ok version) as [version Hversion]
      by (destruct item; try done; by eexists).
    exists key, version. split; [done|]. split; [done|].
    unfold itemToSync. rewrite Hdata. simpl. rewrite Ha. simpl.
    rewrite (regex_match_suffix prefix id) by by apply match_here_record_id.
    simpl. rewrite Hkey. simpl. by rewrite Hversion.
  - intros Hno. unfold itemToSync. rewrite Hdata. simpl. rewrite Ha. simpl.
    destruct a as [| | | |s| |]; try done.
    destruct (regex_match s) as [m|] eqn:Hm; [|done].
    apply regex_match_iff in Hm as (prefix & -> & Hid).
    by destruct (Hno prefix m).
Qed.

Lemma itemToSync_spec_witness :
  let item := JObj [ ("key", JStr "ABCD2345"); ("version", JNum 7);
                     ("data", JObj [ ("archiveLocation",
                                      JStr "https://example.org/recA1b2C3d4E5f6G_") ]) ] in
  itemToSync item
  = Ok (JObj [ ("id", JStr "recA1b2C3d4E5f6G_");
               ("fields", JObj [ ("Zotero Key", JStr "ABCD2345");
                                 ("Zotero Version", JNum 7) ]) ]).
Proof.
  intros item.
  destruct (itemToSync_spec item
              (JObj [ ("archiveLocation", JStr "https://example.org/recA1b2C3d4E5f6G_") ])
              (JStr "https://example.org/recA1b2C3d4E5f6G_"))
    as [Hyes _]; [reflexivity|reflexivity|].
  destruct (Hyes "https://example.org/" "recA1b2C3d4E5f6G_") as (key & version & Hk & Hv & Hrun).
  - reflexivity.
  - exists "A1b2C3d4E5f6G_". split; [reflexivity|]. split; [reflexivity|].
    repeat constructor.
  - injection Hk as <-. injection Hv as <-. exact Hrun.
Defined.

(** ** The write loop: pauses, counts and failures *)

Lemma sleeps_app t1 t2 : sleeps (t1 ++ t2) = sleeps t1 ++ sleeps t2.
Proof. apply omap_app. Qed.

(** [postItems] never pauses. *)
Lemma postItems_sleeps S (c : list jsval) w r w' :
  postItems S c w = (r, w') → sleeps (trace w') = sleeps (trace w).
Proof.
  unfold postItems, try_catch.
  unfold mbind at 1, M_bind at 1, zoteroLibrary_post at 1.
  destruct (target_post S (trace w) "items" (JArr c)) as [e|response]; simpl awaited.
  { intros [= <- <-]. simpl. by rewrite !sleeps_app, !app_nil_r. }
  cbv beta iota.
  destruct (get_prop response "data") as [data|e|];
    [rewrite (bind_lift_ok data)| |];
    [|intros [= <- <-]; simpl; by rewrite ?sleeps_app, ?app_nil_r..].
  destruct (get_prop data "successful" ≫= Object_values) as [s|e|];
    [rewrite (bind_lift_ok s)| |];
    [|intros [= <- <-]; simpl; by rewrite ?sleeps_app, ?app_nil_r..].
  destruct (get_prop data "unchanged" ≫= Object_values) as [u|e|];
    [rewrite (bind_lift_ok u)| |];
    [|intros [= <- <-]; simpl; by rewrite ?sleeps_app, ?app_nil_r..].
  destruct (get_prop data "failed" ≫= Object_values) as [f|e|];
    [rewrite (bind_lift_ok f)| |];
    [|intros [= <- <-]; simpl; by rewrite ?sleeps_app, ?app_nil_r..].
  destruct (bool_decide (0 < length f)%nat).
  - destruct (get_prop data "failed") as [failedItems|e|];
      unfold mbind, M_bind, emit, lift; simpl;
      intros [= <- <-]; simpl; by rewrite ?sleeps_app, ?app_nil_r.
  - unfold mbind, M_bind. simpl. intros [= <- <-]. simpl.
    by rewrite sleeps_app, app_nil_r.
Qed.

Lemma chunks_short {A} (l : list A) :
  (length l ≤ 50)%nat → (length (chunks 50 l) ≤ 1)%nat.
Proof.
  intros Hl. rewrite length_chunks by lia.
  destruct (decide (length l = 0%nat)) as [->|Hne]; [rewrite Nat.div_small by lia; lia|].
  replace (length l + (50 - 1))%nat with ((length l - 1) + 1 * 50)%nat by lia.
  rewrite Nat.div_add by lia. rewrite Nat.div_small by lia. lia.
Qed.

Lemma chunks_long {A} (l : list A) :
  (50 < length l)%nat → (2 ≤ length (chunks 50 l))%nat.
Proof.
  intros Hl. rewrite length_chunks by lia.
  replace (length l + (50 - 1))%nat with ((length l - 51) + 2 * 50)%nat by lia.
  rewrite Nat.div_add by lia. lia.
Qed.

Lemma postLoop_sleeps S fuel (items posted : list jsval) totals w r w' :
  postLoop S fuel items posted totals w = (Ok r, w') →
  sleeps (trace w')
  = sleeps (trace w) ++ replicate (length (chunks 50 items) - 2) zoteroRateLimit.
Proof.
  revert items posted totals w.
  induction fuel as [|fuel IH]; intros items posted totals w.
  - destruct items as [|x items]; simpl; [|done].
    intros [= <- <-]. by rewrite app_nil_r.
  - destruct items as [|x items].
    { simpl. intros [= <- <-]. by rewrite app_nil_r. }
    rewrite chunks_cons by (done || lia).
    remember (x :: items) as l eqn:Hl.
    assert (Hlen : bool_decide (length l = 0%nat) = false).
    { subst l. by apply bool_decide_eq_false_2. }
    simpl postLoop. rewrite Hlen.
    unfold mbind at 1, M_bind at 1.
    destruct (postItems S (take 50 l) w) as [[[resp|]|e|] w1] eqn:Hp;
      apply postItems_sleeps in Hp; [|done..].
    destruct (bool_decide (50 < length (drop 50 l))%nat) eqn:Hlong;
      [apply bool_decide_eq_true_1 in Hlong|apply bool_decide_eq_false_1 in Hlong].
    + unfold mbind at 1, M_bind at 1, emit at 1. cbv beta iota. intros Hloop.
      apply IH in Hloop. rewrite Hloop. simpl. rewrite sleeps_app, Hp. simpl.
      apply chunks_long in Hlong.
      replace (length (chunks 50 (drop 50 l)) - 1)%nat
        with (Datatypes.S (length (chunks 50 (drop 50 l)) - 2)) by lia.
      simpl. by rewrite <- app_assoc.
    + unfold mbind at 1, M_bind at 1. simpl. intros Hloop.
      apply IH in Hloop. rewrite Hloop, Hp.
      assert (length (chunks 50 (drop 50 l)) ≤ 1)%nat by (apply chunks_short; lia).
      replace (length (chunks 50 (drop 50 l)) - 2)%nat with 0%nat by lia.
      by replace (length (chunks 50 (drop 50 l)) - 1)%nat with 0%nat by lia.
Qed.

(** X22: the pauses of the write loop.  When Zotero answers every
    write, a batch cut into [n] chunks is posted with [n - 2] pauses of
    [zoteroRateLimit]: the loop pauses only while more than 50 items
    are left after a write, so nothing separates the last two writes,
    and a batch of up to 100 items is posted without any pause. *)
Theorem postLoop_pauses (S : Services) (fuel : nat) (items posted : list jsval)
    (totals : nat * nat * nat) (w : world) :
  (∀ t c, ∃ response,
      target_post S t "items" (JArr c) = inr response ∧ readable_answer response) →
  (length (chunks 50 items) ≤ fuel)%nat →
  ∃ r w',
    postLoop S fuel items posted totals w = (Ok r, w')
    ∧ sleeps (trace w')
      = sleeps (trace w) ++ replicate (length (chunks 50 items) - 2) zoteroRateLimit
    ∧ ((length items ≤ 100)%nat → sleeps (trace w') = sleeps (trace w)).
Proof.
  intros Hans Hfuel.
  destruct (postLoop_chunks S fuel items posted totals w Hans Hfuel)
    as (r & w' & Hrun & _).
  exists r, w'. split; [done|].
  pose proof (postLoop_sleeps _ _ _ _ _ _ _ _ Hrun) as Hs.
  split; [done|]. intros Hle. rewrite Hs.
  replace (length (chunks 50 items) - 2)%nat with 0%nat; [by rewrite app_nil_r|].
  assert (length (chunks 50 items) < 3)%nat; [|lia].
  rewrite length_chunks by lia.
  apply Nat.Div0.div_lt_upper_bound. lia.
Qed.

Lemma postLoop_pauses_witness :
  ∃ r w',
    postLoop (sample_services [] None) 3 sample_batch [] (0, 0, 0)%nat batch_world
    = (Ok r, w')
    ∧ sleeps (trace w') = [zoteroRateLimit].
Proof.
  destruct (postLoop_pauses (sample_services [] None) 3 sample_batch []
              (0, 0, 0)%nat batch_world) as (r & w' & Hrun & Hs & _).
  - intros t c. eexists. split; [reflexivity|].
    eexists _, _, _, _. repeat split; reflexivity.
  - vm_compute. lia.
  - exists r, w'. split; [exact Hrun|exact Hs].
Defined.

(** X23: the counts of the write loop.  When the loop ends, the items
    collected in [posted] are the ones it started with followed by the
    new ones, and there are as many new ones as were added to
    [totalSuccessful]; the three totals never decrease. *)
Theorem postLoop_counts (S : Services) (fuel : nat) (items posted posted' : list jsval)
    (totals totals' : nat * nat * nat) (w w' : world) :
  postLoop S fuel items posted totals w = (Ok (posted', totals'), w') →
  posted `prefix_of` posted'
  ∧ (length posted' + totals.1.1 = length posted + totals'.1.1)%nat
  ∧ (totals.1.1 ≤ totals'.1.1)%nat
  ∧ (totals.1.2 ≤ totals'.1.2)%nat
  ∧ (totals.2 ≤ totals'.2)%nat.
Proof.
  revert items posted totals w.
  induction fuel as [|fuel IH]; intros items posted totals w.
  - destruct items as [|x items]; simpl; [|done].
    intros [= <- <- <-]. split; [done|lia].
  - destruct items as [|x items].
    { simpl. intros [= <- <- <-]. split; [done|lia]. }
    remember (x :: items) as l eqn:Hl.
    assert (Hlen : bool_decide (length l = 0%nat) = false).
    { subst l. by apply bool_decide_eq_false_2. }
    simpl postLoop. rewrite Hlen.
    unfold mbind at 1, M_bind at 1.
    destruct (postItems S (take 50 l) w) as [[[resp|]|e|] w1]; [|done..].
    assert (Hstep : ∀ w2,
      postLoop S fuel (drop 50 l)
        (if bool_decide (0 < length (successful resp))%nat
         then posted ++ successful resp else posted)
        ((totals.1.1 + length (successful resp))%nat,
         (totals.1.2 + length (unchanged resp))%nat,
         (totals.2 + length (failed resp))%nat) w2 = (Ok (posted', totals'), w') →
      posted `prefix_of` posted'
      ∧ (length posted' + totals.1.1 = length posted + totals'.1.1)%nat
      ∧ (totals.1.1 ≤ totals'.1.1)%nat
      ∧ (totals.1.2 ≤ totals'.1.2)%nat
      ∧ (totals.2 ≤ totals'.2)%nat).
    { intros w2 Hloop. apply IH in Hloop as (Hpre & Hcount & H1 & H2 & H3).
      simpl in Hcount, H1, H2, H3.
      case_bool_decide as Hs.
      - rewrite length_app in Hcount. split; [|lia].
        etrans; [|exact Hpre]. by apply prefix_app_r.
      - split; [done|lia]. }
    destruct (bool_decide (50 < length (drop 50 l))%nat).
    + unfold mbind at 1, M_bind at 1, emit at 1. cbv beta iota. apply Hstep.
    + unfold mbind at 1, M_bind at 1. simpl. apply Hstep.
Qed.

Lemma postLoop_counts_witness :
  ∃ posted' totals' w',
    postLoop (sample_services [] None) 3 sample_batch [] (0, 0, 0)%nat batch_world
    = (Ok (posted', totals'), w')
    ∧ length posted' = totals'.1.1.
Proof.
  destruct (postLoop (sample_services [] None) 3 sample_batch [] (0, 0, 0)%nat
              batch_world) as [r w'] eqn:Hrun.
  assert (Hok : ∃ posted' totals', r = Ok (posted', totals')).
  { vm_compute in Hrun. injection Hrun as <- _. by eexists _, _. }
  destruct Hok as (posted' & totals' & ->).
  exists posted', totals', w'. split; [reflexivity|].
  destruct (postLoop_counts _ _ _ _ _ _ _ _ _ Hrun) as (_ & Hc & _).
  simpl in Hc. lia.
Defined.

(** X24: a rejected write ends the loop.  When Zotero rejects the write
    of the first chunk, [postItems] logs the error and returns
    [undefined], and taking [successful] out of it throws a
    [TypeError]: the loop stops there, having posted only that chunk,
    whatever the number of items left. *)
Theorem postLoop_rejected (S : Services) (fuel : nat) (items posted : list jsval)
    (totals : nat * nat * nat) (w : world) (e : exn) :
  items ≠ [] → (1 ≤ fuel)%nat →
  target_post S (trace w) "items" (JArr (take 50 items)) = inl e →
  ∃ w',
    postLoop S fuel items posted totals w = (Throw TypeError, w')
    ∧ trace w' = trace w ++ [ TargetPost "items" (JArr (take 50 items)); ConsoleError e ].
Proof.
  intros Hne Hfuel Hpost.
  destruct fuel as [|fuel]; [lia|].
  assert (Hlen : bool_decide (length items = 0%nat) = false).
  { apply bool_decide_eq_false_2. by destruct items. }
  simpl postLoop. rewrite Hlen.
  unfold mbind at 1, M_bind at 1.
  unfold postItems, try_catch.
  unfold mbind at 1, M_bind at 1, zoteroLibrary_post at 1. rewrite Hpost.
  simpl. eexists. split; [reflexivity|]. simpl. by rewrite <- app_assoc.
Qed.

Lemma postLoop_rejected_witness :
  let S := {| source_select := source_select (sample_services [] None);
              target_post := fun _ _ _ => inl (Error "Request failed with status code 403");
              target_get_template := fun _ => inl (Error "no template") |} in
  ∃ w',
    postLoop S 3 sample_batch [] (0, 0, 0)%nat batch_world = (Throw TypeError, w')
    ∧ trace w' = [ TargetPost "items" (JArr (take 50 sample_batch));
                   ConsoleError (Error "Request failed with status code 403") ].
Proof.
  intros S.
  destruct (postLoop_rejected S 3 sample_batch [] (0, 0, 0)%nat batch_world
              (Error "Request failed with status code 403"))
    as (w' & Hrun & Ht); [discriminate|lia|reflexivity|].
  exists w'. split; [exact Hrun|exact Ht].
Defined.

(** ** Durations *)

Lemma formatDuration_parts E (d : Z) :
  Util.formatDuration E (JNum d)
  = JStr ((if (d <? 60)%Z then "0:" else "")
          +:+ String.concat ":"
                (Util.part_text
                   <$> filter (fun p => Util.part_nonzero p = true)
                         [ Util.PNum (Some (d `div` 3600)%Z);
                           (if (3600 <? d)%Z
                            then Util.PPad (Some ((d `rem` 3600) `div` 60)%Z)
                            else Util.PNum (Some ((d `rem` 3600) `div` 60)%Z));
                           Util.PPad (Some (d `rem` 60)%Z) ])).
Proof. reflexivity. Qed.

Lemma filter_parts (a b c : Util.part) :
  filter (fun p => Util.part_nonzero p = true) [a; b; c]
  = (if Util.part_nonzero a then [a] else [])
    ++ (if Util.part_nonzero b then [b] else [])
    ++ (if Util.part_nonzero c then [c] else []).
Proof.
  rewrite !filter_cons, filter_nil.
  destruct (Util.part_nonzero a), (Util.part_nonzero b), (Util.part_nonzero c);
    repeat case_decide; done.
Qed.

Lemma append_empty_r (s : string) : s +:+ "" = s.
Proof.
  induction s as [|c s IH]; [done|].
  change (String c s +:+ "") with (String c (s +:+ "")). by rewrite IH.
Qed.

Lemma nonzero_true (n : Z) : n ≠ 0%Z → negb (n =? 0)%Z = true.
Proof. intros H. by apply negb_true_iff, Z.eqb_neq. Qed.



(** X26: parts that are zero are dropped, so a duration does not
    always read back: [h] hours and [s] seconds format as [h] minutes
    and [s] seconds do (3605 and 65 both give [1:05]), and whole hours
    as whole minutes (3600 and 60 both give [1]). *)
Theorem formatDuration_drops_zeros (E : Env) (h s : Z) :
  (1 ≤ h ≤ 59)%Z → (0 ≤ s ≤ 59)%Z →
  Util.formatDuration E (JNum (3600 * h + s))
  = Util.formatDuration E (JNum (60 * h + s))
  ∧ Util.formatDuration E (JNum (60 * h + s))
    = JStr (pretty h +:+ (if decide (s = 0%Z) then "" else ":" +:+ Util.pad (pretty s) 2)).
Proof.
  intros Hh Hs.
  assert (H1 : ((3600 * h + s) `div` 3600 = h)%Z)
    by (symmetry; apply (Z.div_unique _ _ _ s); lia).
  assert (H2 : ((3600 * h + s) `rem` 3600 = s)%Z).
  { rewrite Z.rem_mod_nonneg by lia. symmetry. apply (Z.mod_unique _ _ h); lia. }
  assert (H3 : (s `div` 60 = 0)%Z) by (apply Z.div_small; lia).
  assert (H4 : ((3600 * h + s) `rem` 60 = s)%Z).
  { rewrite Z.rem_mod_nonneg by lia. symmetry. apply (Z.mod_unique _ _ (60 * h)); lia. }
  assert (H5 : ((60 * h + s) `div` 3600 = 0)%Z) by (apply Z.div_small; lia).
  assert (H6 : ((60 * h + s) `rem` 3600 = 60 * h + s)%Z) by (apply Z.rem_small; lia).
  assert (H7 : ((60 * h + s) `div` 60 = h)%Z)
    by (symmetry; apply (Z.div_unique _ _ _ s); lia).
  assert (H8 : ((60 * h + s) `rem` 60 = s)%Z).
  { rewrite Z.rem_mod_nonneg by lia. symmetry. apply (Z.mod_unique _ _ h); lia. }
  rewrite !formatDuration_parts, !filter_parts.
  rewrite H1, H2, H3, H4, H5, H6, H7, H8.
  replace (3600 * h + s <? 60)%Z with false by (symmetry; apply Z.ltb_ge; lia).
  replace (60 * h + s <? 60)%Z with false by (symmetry; apply Z.ltb_ge; lia).
  replace (3600 <? 60 * h + s)%Z with false by (symmetry; apply Z.ltb_ge; lia).
  destruct (3600 <? 3600 * h + s)%Z; simpl Util.part_nonzero;
    rewrite (nonzero_true h) by lia; simpl negb;
    (destruct (decide (s = 0%Z)) as [->|Hne];
     [change (negb (0 =? 0)%Z) with false; split; [reflexivity|];
      rewrite append_empty_r; reflexivity
     |rewrite (nonzero_true s) by done; done]).
Qed.

Lemma formatDuration_drops_zeros_witness :
  Util.formatDuration sample_env (JNum 3605) = Util.formatDuration sample_env (JNum 65)
  ∧ Util.formatDuration sample_env (JNum 65) = JStr "1:05".
Proof. apply (formatDuration_drops_zeros sample_env 1 5); lia. Defined.

(** ** Padding *)

Lemma concat_replicate_S (p : string) n :
  String.concat "" (replicate (S n) p) = p +:+ String.concat "" (replicate n p).
Proof.
  destruct n as [|n]; simpl; [by rewrite append_empty_r|done].
Qed.

Lemma length_concat_replicate (p : string) n :
  String.length (String.concat "" (replicate n p)) = (n * String.length p)%nat.
Proof.
  induction n as [|n IH]; [done|].
  rewrite concat_replicate_S, length_append, IH. lia.
Qed.

Lemma length_substring0 k s :
  String.length (String.substring 0 k s) = (k `min` String.length s)%nat.
Proof.
  revert s. induction k as [|k IH]; intros [|c s]; simpl; try done.
  by rewrite IH.
Qed.

Lemma substring0_zeros k n :
  (k ≤ n)%nat →
  String.substring 0 k (String.concat "" (replicate n "0"))
  = String.concat "" (replicate k "0").
Proof.
  revert n. induction k as [|k IH]; intros n Hk.
  - by destruct (String.concat "" (replicate n "0")).
  - destruct n as [|n]; [lia|].
    rewrite !concat_replicate_S.
    change ("0" +:+ ?x) with (String "0" x).
    change (String.substring 0 (S k) (String "0" ?x))
      with (String "0" (String.substring 0 k x)).
    rewrite IH by lia. done.
Qed.

(** X27: [pad] with all its arguments.  With a pad string that is not
    empty and a length that is not negative, it returns a text whose
    length is the larger of [length] and the length of [string], the
    padding going before or after [string] as [prepend] says, and
    [string] itself when it is already that long.  With an empty pad
    string and a length other than zero, or a length at or below minus
    the length of the pad string, it throws a [RangeError] through
    [repeat]: the padding is built before the lengths are compared, so
    this happens for a [string] that needs no padding too. *)
Theorem pad_with_spec (s : string) (len : Z) (padString : string) (prepend : bool) :
  (padString ≠ "" → (0 ≤ len)%Z →
   ∃ padding,
     Util.pad_with s len padString prepend
     = Some (if decide (Z.of_nat (String.length s) < len)%Z
             then if prepend then padding +:+ s else s +:+ padding
             else s)
     ∧ Z.of_nat (String.length padding) = (0 `max` (len - Z.of_nat (String.length s)))%Z
     ∧ ∀ r, Util.pad_with s len padString prepend = Some r →
            Z.of_nat (String.length r) = (len `max` Z.of_nat (String.length s))%Z)
  ∧ ((padString = "" ∧ len ≠ 0%Z)
     ∨ (padString ≠ "" ∧ (len ≤ - Z.of_nat (String.length padString))%Z) →
     Util.pad_with s len padString prepend = None).
Proof.
  split.
  - intros Hp Hlen. unfold Util.pad_with.
    assert (Hn : (0 < Z.of_nat (String.length padString))%Z).
    { destruct padString; [done|]. simpl. lia. }
    set (n := Z.of_nat (String.length padString)) in *.
    rewrite decide_False by lia. cbv zeta.
    pose proof (Z.div_mod (- len) n ltac:(lia)) as Hdiv.
    pose proof (Z.mod_pos_bound (- len) n Hn) as Hmod.
    set (q := ((- len) `div` n)%Z) in *.
    rewrite decide_False by nia. simpl.
    set (padding := String.substring 0 _ _).
    assert (Hpad : Z.of_nat (String.length padding)
                   = (0 `max` (len - Z.of_nat (String.length s)))%Z).
    { unfold padding. rewrite length_substring0, length_concat_replicate.
      fold n. nia. }
    exists padding. split; [done|]. split; [done|].
    intros r [= <-]. case_decide; [|lia].
    destruct prepend; rewrite length_append; lia.
  - intros [[-> Hlen]|[Hp Hlen]]; unfold Util.pad_with.
    + simpl String.length. rewrite decide_True by done. by rewrite decide_False.
    + assert (Hn : (0 < Z.of_nat (String.length padString))%Z).
      { destruct padString; [done|]. simpl. lia. }
      set (n := Z.of_nat (String.length padString)) in *.
      rewrite decide_False by lia. cbv zeta.
      pose proof (Z.div_mod (- len) n ltac:(lia)) as Hdiv.
      pose proof (Z.mod_pos_bound (- len) n Hn) as Hmod.
      set (q := ((- len) `div` n)%Z) in *.
      rewrite decide_True by nia. done.
Qed.

Lemma pad_with_spec_witness :
  Util.pad_with "text" 10 "~*~" true = Some "~*~~*~text"
  ∧ Z.of_nat (String.length "~*~~*~text") = (10 `max` 4)%Z
  ∧ Util.pad_with "2021" 2 "" true = None
  ∧ Util.pad_with "2021" (-1) "0" true = None.
Proof.
  destruct (pad_with_spec "text" 10 "~*~" true) as [Hpad _].
  destruct Hpad as (padding & _ & _ & Hlen); [discriminate|lia|].
  split; [reflexivity|]. split; [apply Hlen; reflexivity|].
  split.
  - apply (pad_with_spec "2021" 2 "" true). left. split; [reflexivity|discriminate].
  - apply (pad_with_spec "2021" (-1) "0" true). right.
    split; [discriminate|simpl; lia].
Defined.

(** X28: called with two arguments, [pad] prepends zeros: the general
    function with ['0'] and [prepend] set agrees with [pad] as
    [formatDuration] uses it, for every text and every length. *)
Theorem pad_with_default (s : string) (len : nat) :
  Util.pad_with s (Z.of_nat len) "0" true = Some (Util.pad s len).
Proof.
  unfold Util.pad_with, Util.pad. simpl String.length.
  change (Z.of_nat 1) with 1%Z.
  destruct (decide (1 = 0)%Z) as [?|_]; [lia|]. cbv zeta.
  replace (- ((- Z.of_nat len) `div` 1))%Z with (Z.of_nat len)
    by (rewrite Z.div_1_r; lia).
  destruct (decide (Z.of_nat len < 0)%Z) as [?|_]; [lia|].
  unfold mbind, option_bind. f_equal.
  rewrite ?Nat2Z.id.
  replace (Z.to_nat (Z.of_nat len - Z.of_nat (String.length s)))
    with (len - String.length s)%nat by lia.
  rewrite substring0_zeros by lia.
  destruct (decide (String.length s < len)%nat);
    [rewrite decide_True by lia|rewrite decide_False by lia]; done.
Qed.


(** ** Full names *)

Lemma length_gt_0 (f : string) :
  (0 <? Z.of_nat (String.length f))%Z = negb (bool_decide (f = "")).
Proof. by destruct f. Qed.

(** X29: [formatAuthors] on first names that are texts and an array of
    last names returns one full name for each first name, for either
    order: the two names with a separator between them, and the last
    name alone after an empty first name; a last name that is missing
    is printed as it converts to text (['undefined']).  Unlike
    [packageAuthors], it throws a [TypeError] when a first name is
    [null] or [undefined], where [packageAuthors] returns its array. *)
Theorem formatAuthors_spec (E : Env) (fs ls : list jsval) (reverse : bool) :
  (∀ names : list string, fs = JStr <$> names →
     Util.formatAuthors E (JArr fs) (JArr ls) reverse
     = Ok (JArr (imap (fun i f =>
                         let l := to_string (default JUndefined (ls !! i)) in
                         JStr (if reverse
                               then l +:+ (if decide (f = "") then "" else ", " +:+ f)
                               else (if decide (f = "") then "" else f +:+ " ") +:+ l))
                      names)))
  ∧ ((∃ f, f ∈ fs ∧ nullish f = true) →
     Util.formatAuthors E (JArr fs) (JArr ls) reverse = Throw TypeError
     ∧ ∃ ps, Util.packageAuthors (JArr fs) (JArr ls) = Ok (JArr ps)).
Proof.
  split.
  - intros names ->. unfold Util.formatAuthors.
    rewrite (mapM_outcome_ok _
               (fun '(i, x) =>
                  let l := to_string (default JUndefined (ls !! i)) in
                  let f := to_string x in
                  JStr (if reverse
                        then l +:+ (if decide (f = "") then "" else ", " +:+ f)
                        else (if decide (f = "") then "" else f +:+ " ") +:+ l))).
    + simpl. do 2 f_equal. rewrite fmap_imap, imap_fmap. by apply imap_ext.
    + intros [i x] Hx. apply elem_of_lookup_imap in Hx as (j & y & [= -> ->] & Hy).
      apply list_lookup_fmap_Some in Hy as (f & -> & _).
      destruct reverse; simpl; unfold num_gt, num_lt; rewrite length_gt_0;
        unfold str_concat; destruct (decide (f = "")) as [->|Hf]; simpl;
        rewrite ?bool_decide_eq_false_2 by done; done.
  - intros (f & Hf & Hnull). split; [|rewrite packageAuthors_arrays; by eexists].
    apply list_elem_of_lookup in Hf as [i Hi].
    unfold Util.formatAuthors.
    rewrite (mapM_outcome_throw _ TypeError _ (i, f)); [done| | |].
    + apply elem_of_lookup_imap. by exists i, f.
    + destruct f; try done; by destruct reverse.
    + intros [j y] _. destruct y, reverse; simpl; eauto.
Qed.

Lemma formatAuthors_spec_witness :
  Util.formatAuthors sample_env (JArr [JStr "John C."; JStr ""; JStr "Marjorie"])
    (JArr [JStr "Smith"; JStr "Johnson"]) true
  = Ok (JArr [JStr "Smith, John C."; JStr "Johnson"; JStr "undefined, Marjorie"])
  ∧ Util.formatAuthors sample_env (JArr [JStr "John C."; JNull])
      (JArr [JStr "Smith"; JStr "Johnson"]) false
    = Throw TypeError.
Proof.
  split.
  - destruct (formatAuthors_spec sample_env
                [JStr "John C."; JStr ""; JStr "Marjorie"]
                [JStr "Smith"; JStr "Johnson"] true) as [Hnames _].
    exact (Hnames ["John C."; ""; "Marjorie"] eq_refl).
  - destruct (formatAuthors_spec sample_env [JStr "John C."; JNull]
                [JStr "Smith"; JStr "Johnson"] false) as [_ Hnull].
    apply Hnull. exists JNull. split; [|reflexivity].
    apply list_elem_of_lookup. by exists 1%nat.
Defined.

(** ** Address patterns *)

Lemma split_on_nonempty sep s : Util.split_on sep s ≠ [].
Proof.
  destruct s as [|c s]; simpl; [done|].
  destruct (decide (c = sep)); [done|]. by destruct (Util.split_on sep s).
Qed.

Lemma concat_cons_cons sep (x y : string) l :
  String.concat sep (x :: y :: l) = x +:+ sep +:+ String.concat sep (y :: l).
Proof. reflexivity. Qed.

(** Joining the pieces of a split gives the text back. *)
Lemma concat_split_on sep s :
  String.concat (String sep "") (Util.split_on sep s) = s.
Proof.
  induction s as [|c s IH]; [done|].
  pose proof (split_on_nonempty sep s) as Hne.
  simpl Util.split_on. destruct (decide (c = sep)) as [->|Hc].
  - destruct (Util.split_on sep s) as [|h t]; [done|].
    rewrite concat_cons_cons, IH. done.
  - destruct (Util.split_on sep s) as [|h t]; [done|].
    destruct t as [|h' t].
    + simpl in *. by rewrite IH.
    + rewrite concat_cons_cons in *.
      change (String c h +:+ ?x) with (String c (h +:+ x)). by rewrite IH.
Qed.

Lemma cross_arrays a b : Forall is_array (Util.cross a b).
Proof.
  unfold Util.cross. apply Forall_forall. intros x Hx.
  apply list_elem_of_bind in Hx as (d & Hx & _).
  apply list_elem_of_fmap in Hx as (e & -> & _). by eexists.
Qed.

Lemma foldl_cross_arrays a bs :
  bs ≠ [] → Forall is_array (foldl Util.cross a bs).
Proof.
  revert a. induction bs as [|b bs IH]; intros a Hne; [done|].
  simpl. destruct bs as [|b' bs]; [apply cross_arrays|]. by apply IH.
Qed.

Lemma length_concat_sum {A} (l : list (list A)) :
  length (concat l) = sum_list (length <$> l).
Proof. induction l as [|x l IH]; [done|]. simpl. by rewrite length_app, IH. Qed.

Lemma elem_of_concat {A} (x : A) (l : list A) (ls : list (list A)) :
  x ∈ l → l ∈ ls → x ∈ concat ls.
Proof.
  intros Hx Hl. apply list_elem_of_In, in_concat. exists l.
  split; by apply list_elem_of_In.
Qed.

Lemma length_cross a b :
  length (Util.cross a b) = (length a * length b)%nat.
Proof.
  unfold Util.cross. induction a as [|d a IH]; [done|].
  change (length (((fun e => JArr (Util.flat [d; e])) <$> b)
                  ++ (a ≫= (fun d => (fun e => JArr (Util.flat [d; e])) <$> b)))
          = (S (length a) * length b)%nat).
  rewrite length_app, length_fmap, IH. lia.
Qed.

Lemma length_foldl_cross a bs :
  length (foldl Util.cross a bs) = (length a * foldr Nat.mul 1 (length <$> bs))%nat.
Proof.
  revert a. induction bs as [|b bs IH]; intros a; simpl; [lia|].
  rewrite IH, length_cross. by rewrite Nat.mul_assoc.
Qed.

Lemma length_part_values part :
  length (Util.part_values part) = if decide (part = "*") then 256%nat else 1%nat.
Proof. unfold Util.part_values. by destruct (decide (part = "*")). Qed.

Lemma product_part_values parts :
  foldr Nat.mul 1 (length <$> (Util.part_values <$> parts))
  = (256 ^ length (filter (fun part => part = "*") parts))%nat.
Proof.
  induction parts as [|part parts IH]; [done|].
  rewrite !fmap_cons, filter_cons. cbn [foldr]. rewrite IH, length_part_values.
  destruct (decide (part = "*")); [|lia].
  cbn [length]. rewrite Nat.pow_succ_r'. lia.
Qed.

Lemma patternsToArray_combinations patterns :
  Util.patternsToArray patterns
  = mapM joined (concat (combinations <$> Util.split_on " " patterns)).
Proof.
  unfold Util.patternsToArray. cbv zeta.
  rewrite (mapM_outcome_ok _
             (fun ip => match ip with a :: r => foldl Util.cross a r | [] => [] end)).
  - simpl. by rewrite <- list_fmap_compose.
  - intros ip (pattern & -> & _)%list_elem_of_fmap.
    pose proof (split_on_nonempty "." pattern).
    by destruct (Util.split_on "." pattern).
Qed.

Lemma combinations_dotted pattern :
  (2 ≤ length (Util.split_on "." pattern))%nat →
  Forall is_array (combinations pattern)
  ∧ length (combinations pattern)
    = (256 ^ length (filter (fun part => part = "*") (Util.split_on "." pattern)))%nat.
Proof.
  intros Hlen. unfold combinations.
  rewrite <- product_part_values.
  destruct (Util.split_on "." pattern) as [|p1 [|p2 parts]]; [simpl in Hlen; lia..|].
  rewrite !fmap_cons. split; [by apply foldl_cross_arrays|].
  rewrite length_foldl_cross. by rewrite !fmap_cons.
Qed.

Lemma foldl_cross_plain acc rest :
  "*" ∉ rest →
  foldl Util.cross [JArr (JStr <$> acc)] (Util.part_values <$> rest)
  = [JArr (JStr <$> (acc ++ rest))].
Proof.
  revert acc. induction rest as [|p rest IH]; intros acc Hno.
  - by rewrite app_nil_r.
  - apply not_elem_of_cons in Hno as [Hp Hno].
    rewrite fmap_cons. cbn [foldl]. unfold Util.part_values at 1.
    rewrite decide_False by done.
    replace (Util.cross [JArr (JStr <$> acc)] [JStr p])
      with [JArr (JStr <$> (acc ++ [p]))].
    + rewrite IH by done. by rewrite <- app_assoc.
    + unfold Util.cross, Util.flat. simpl. by rewrite ?app_nil_r, fmap_app.
Qed.

Lemma join_texts sep parts : Util.join sep (JStr <$> parts) = String.concat sep parts.
Proof.
  unfold Util.join. rewrite <- list_fmap_compose. f_equal.
  induction parts as [|p parts IH]; [done|]. simpl. by f_equal.
Qed.

Lemma combinations_plain pattern :
  (2 ≤ length (Util.split_on "." pattern))%nat →
  "*" ∉ Util.split_on "." pattern →
  combinations pattern = [JArr (JStr <$> Util.split_on "." pattern)].
Proof.
  intros Hlen Hno. unfold combinations.
  destruct (Util.split_on "." pattern) as [|p1 [|p2 parts]]; [simpl in Hlen; lia..|].
  apply not_elem_of_cons in Hno as [Hp1 Hno].
  apply not_elem_of_cons in Hno as [Hp2 Hno].
  rewrite !fmap_cons. cbn [foldl]. unfold Util.part_values at 1 2.
  rewrite !decide_False by done.
  change (Util.cross [JStr p1] [JStr p2]) with [JArr (JStr <$> [p1; p2])].
  by rewrite foldl_cross_plain.
Qed.

Lemma combinations_dotless pattern :
  length (Util.split_on "." pattern) = 1%nat →
  ∃ x, x ∈ combinations pattern ∧ joined x = Throw TypeError.
Proof.
  intros Hlen. unfold combinations.
  destruct (Util.split_on "." pattern) as [|p1 [|p2 parts]]; [done| |done].
  simpl. unfold Util.part_values. destruct (decide (p1 = "*")).
  - exists (JNum 0). split; [|done]. simpl. by left.
  - exists (JStr p1). split; [|done]. by left.
Qed.

(** X30: [patternsToArray].  When every pattern has a dot, it returns
    256 addresses for each wildcard part of a pattern, so [256 ^ k]
    for a pattern with [k] wildcards, all patterns taken together; and
    when no part is a wildcard, the patterns themselves, as [split]
    cut them.  A pattern without a dot makes it throw a [TypeError]:
    its single part is not wrapped in an array, and has no [join]. *)
Theorem patternsToArray_spec (patterns : string) :
  let ps := Util.split_on " " patterns in
  (Forall (fun p => (2 ≤ length (Util.split_on "." p))%nat) ps →
   ∃ l, Util.patternsToArray patterns = Ok l
        ∧ length l
          = sum_list ((fun p => 256 ^ length (filter (fun part => part = "*")
                                                (Util.split_on "." p)))%nat <$> ps)
        ∧ (Forall (fun p => "*" ∉ Util.split_on "." p) ps → l = ps))
  ∧ (Exists (fun p => length (Util.split_on "." p) = 1%nat) ps →
     Util.patternsToArray patterns = Throw TypeError).
Proof.
  intros ps. rewrite patternsToArray_combinations. fold ps. split.
  - intros Hdots.
    assert (Harr : Forall is_array (concat (combinations <$> ps))).
    { apply Forall_concat, Forall_fmap. eapply Forall_impl; [exact Hdots|].
      intros p Hp. by apply combinations_dotted. }
    exists ((fun x => match x with JArr xs => Util.join "." xs | _ => "" end)
              <$> concat (combinations <$> ps)).
    split; [|split].
    + apply mapM_outcome_ok. intros x Hx.
      rewrite Forall_forall in Harr. by destruct (Harr x Hx) as [xs ->].
    + rewrite length_fmap, length_concat_sum, <- list_fmap_compose. f_equal.
      apply Forall_fmap_ext. eapply Forall_impl; [exact Hdots|].
      intros p Hp. simpl. by apply combinations_dotted.
    + intros Hplain. clear Harr. generalize dependent ps.
      intros ps. induction ps as [|p ps IH]; intros Hdots Hplain; [done|].
      apply Forall_cons in Hdots as [Hp Hdots].
      apply Forall_cons in Hplain as [Hno Hplain].
      rewrite fmap_cons. cbn [concat]. rewrite combinations_plain by done.
      cbn [app fmap list_fmap]. rewrite join_texts.
      change "." with (String "."%char "") at 1. rewrite concat_split_on.
      f_equal. by apply IH.
  - intros (p & Hp & Hlen)%Exists_exists.
    destruct (combinations_dotless p Hlen) as (x & Hx & Hthrow).
    apply (mapM_outcome_throw _ _ _ x); [|done|].
    + apply (elem_of_concat _ (combinations p)); [done|].
      apply list_elem_of_fmap. by exists p.
    + intros y _. destruct y; simpl; eauto.
Qed.

Lemma patternsToArray_spec_witness :
  Util.patternsToArray "67.118.0.1 255.255.1.1" = Ok ["67.118.0.1"; "255.255.1.1"]
  ∧ (∃ l, Util.patternsToArray "67.118.0.1 255.255.1.*" = Ok l ∧ length l = 257%nat)
  ∧ Util.patternsToArray "localhost" = Throw TypeError.
Proof.
  split; [|split].
  - destruct (patternsToArray_spec "67.118.0.1 255.255.1.1") as [Hdots _].
    destruct Hdots as (l & Hrun & _ & Hplain).
    + repeat constructor.
    + rewrite Hrun. f_equal. apply Hplain.
      repeat constructor; by apply (bool_decide_unpack _).
  - destruct (patternsToArray_spec "67.118.0.1 255.255.1.*") as [Hdots _].
    destruct Hdots as (l & Hrun & Hlen & _).
    + repeat constructor.
    + exists l. split; [exact Hrun|]. rewrite Hlen. reflexivity.
  - destruct (patternsToArray_spec "localhost") as [_ Hthrow].
    apply Hthrow. by left.
Defined.
